(** * Discovery, assessment and inventory pipeline: a shallow embedding

    The three scripts of the tier-0 discovery stage are embedded here as
    Rocq functions:

    - [scripts/generate_inventory.py]   (module [Inventory]),
    - [network_scan/network_discovery.py]   (module [Discovery]),
    - [hardware_assessment/hardware_analyzer.py]   (module [Assessment]).

    The definitions come first; the properties follow, in the modules
    [SafeHostname], [Tree], [Chain], [EntryPoints], [Scan] and those
    after them.

    Conventions of the embedding.

    - A value read by [json.load] is a [json]; a device record is a JSON
      object, the shape the discovery and assessment stages write.  The
      modules [Inventory] and [Assessment] follow the code on arrays of
      such records; the modules [Loaded], [Generator] and [Assessor]
      follow the loading, the two loops and the two [main] functions on
      input of any shape, where an element that is not an object makes
      [device.get] raise.  JSON numbers are integers (the pipeline only ever writes and compares
      port numbers); strings are sequences of 8-bit characters, and the
      character classes [isalnum], [isdigit] and [lower] are Python's on
      the ASCII range (a character above 127 is treated as neither
      alphanumeric nor a digit and is left alone by [lower]).
    - A Python exception is an explicit [Raise] in the [result] monad.
    - The network, the file system and the clock are read through records
      of oracle functions, one snapshot per run. *)

From Stdlib Require Import ZArith Ascii Bool Lia.
From stdpp Require Import base option list strings pretty gmap fin_maps functions.

Local Open Scope Z_scope.

(** ** Python values and exceptions *)

#[local] Unset Elimination Schemes.
Inductive json : Type :=
| JNull : json
| JBool : bool -> json
| JNum : Z -> json
| JStr : string -> json
| JArr : list json -> json
| JObj : list (string * json) -> json.
#[local] Set Elimination Schemes.

(** The exceptions the embedded code can raise. *)
Inductive exn : Type :=
| AttributeError
| TypeError
| ValueError
| OSError.

Inductive result (A : Type) : Type :=
| Ok : A -> result A
| Raise : exn -> result A.
Arguments Ok {A} _.
Arguments Raise {A} _.

(** Sequencing stops at the first exception, as a Python block does. *)
Definition rbind {A B : Type} (m : result A) (k : A -> result B) : result B :=
  match m with
  | Ok a => k a
  | Raise e => Raise e
  end.

Notation "'let*' x ':=' m 'in' k" := (rbind m (fun x => k))
  (at level 10, x name, m at level 100, k at level 200).

(** A dict as [json.load] builds it: an association list with one entry
    per key. *)
Abbreviation dict := (list (string * json)).

Fixpoint dict_lookup (k : string) (d : dict) : option json :=
  match d with
  | [] => None
  | (k', v) :: d' => if String.eqb k k' then Some v else dict_lookup k d'
  end.

(** [k in d] *)
Definition dict_has (k : string) (d : dict) : bool :=
  match dict_lookup k d with Some _ => true | None => false end.

(** [d.get(k, default)] *)
Definition dict_get (k : string) (default : json) (d : dict) : json :=
  match dict_lookup k d with Some v => v | None => default end.

(** Python truthiness of a loaded value ([not v] is its negation). *)
Definition truthy (v : json) : bool :=
  match v with
  | JNull => false
  | JBool b => b
  | JNum z => negb (z =? 0)
  | JStr s => negb (String.eqb s "")
  | JArr l => match l with [] => false | _ => true end
  | JObj d => match d with [] => false | _ => true end
  end.

(** ** Strings *)

Module Str.

Definition code (c : ascii) : nat := nat_of_ascii c.

Definition in_range (lo hi : nat) (c : ascii) : bool :=
  (Nat.leb lo (code c)) && (Nat.leb (code c) hi).

(** [c.isdigit()] *)
Definition isdigit (c : ascii) : bool := in_range 48 57 c.

(** [c.isalnum()] *)
Definition isalnum (c : ascii) : bool :=
  isdigit c || in_range 65 90 c || in_range 97 122 c.

Definition lower_char (c : ascii) : ascii :=
  if in_range 65 90 c then ascii_of_nat (code c + 32) else c.

Fixpoint map (f : ascii -> ascii) (s : string) : string :=
  match s with
  | EmptyString => EmptyString
  | String c s' => String (f c) (map f s')
  end.

(** [s.lower()] *)
Definition lower (s : string) : string := map lower_char s.

(** [s.split(sep)[0]]: the part before the first separator. *)
Fixpoint first_field (sep : ascii) (s : string) : string :=
  match s with
  | EmptyString => EmptyString
  | String c s' => if Ascii.eqb c sep then EmptyString else String c (first_field sep s')
  end.

(** [s.replace(a, b)] for one-character [a] and [b]. *)
Definition replace_char (a b : ascii) (s : string) : string :=
  map (fun c => if Ascii.eqb c a then b else c) s.

(** [c in chars] for a character [c]. *)
Fixpoint mem_char (c : ascii) (chars : string) : bool :=
  match chars with
  | EmptyString => false
  | String c' r => Ascii.eqb c c' || mem_char c r
  end.

Fixpoint forallb (p : ascii -> bool) (s : string) : bool :=
  match s with
  | EmptyString => true
  | String c s' => p c && forallb p s'
  end.

(** [t in s] for strings: [t] occurs in [s] as a contiguous run. *)
Fixpoint contains (t s : string) : bool :=
  String.prefix t s ||
  match s with
  | EmptyString => false
  | String _ s' => contains t s'
  end.

End Str.

(** [d[k] = v]: the entry is replaced in place, or added at the end. *)
Fixpoint dict_set (k : string) (v : json) (d : dict) : dict :=
  match d with
  | [] => [(k, v)]
  | (k', v') :: d' =>
      if String.eqb k k' then (k, v) :: d' else (k', v') :: dict_set k v d'
  end.

(** [{**d, **e}] *)
Definition dict_merge (d e : dict) : dict :=
  foldl (fun acc kv => dict_set kv.1 kv.2 acc) d e.

(** ** Artifact files *)

Module Files.

(** A file of the artifact directory: its name, its modification time
    and what [json.load] makes of it ([None]: opening or parsing raises;
    otherwise the array of device records it holds). *)
Record file : Type := {
  name : string;
  mtime : Z;
  content : option (list dict)
}.

Definition ends_with (suffix s : string) : bool :=
  String.prefix (String.rev suffix) (String.rev s).

(** [fnmatch] of a name against [prefix*suffix]. *)
Definition matches (prefix suffix : string) (n : string) : bool :=
  String.prefix prefix n && ends_with suffix n &&
  Nat.leb (String.length prefix + String.length suffix) (String.length n).

(** [list(dir.glob(prefix + "*" + suffix))] *)
Definition glob (prefix suffix : string) (listing : list file) : list file :=
  filter (fun f => matches prefix suffix (name f) = true) listing.

(** [max(files, key=lambda f: f.stat().st_mtime)] on a non-empty list:
    the first file of greatest modification time. *)
Fixpoint latest (first : file) (others : list file) : file :=
  match others with
  | [] => first
  | f :: rest => if mtime first <? mtime f then latest f rest else latest first rest
  end.

End Files.

(** ** The inventory generator ([generate_inventory.py]) *)

Module Inventory.

(** The OS-family groups under [os_types]. *)
Inductive os_family : Type :=
| linux | windows | macos | network_devices | other.

(** The role groups of the four tiers, and the [ungrouped] role. *)
Inductive role : Type :=
| network | storage | security | virtualization
| automation | monitoring | identity | secrets
| business | media | cloud
| ai | gaming | security_specialized
| ungrouped.

Inductive tier : Type :=
| tier1_core | tier2_services | tier3_applications | tier4_specialized.

#[global] Instance os_family_eq_dec : EqDecision os_family.
Proof. solve_decision. Defined.
#[global] Instance role_eq_dec : EqDecision role.
Proof. solve_decision. Defined.
#[global] Instance tier_eq_dec : EqDecision tier.
Proof. solve_decision. Defined.

(** The variables of one host, and the [hosts] mapping of one group. *)
Abbreviation host_vars := (gmap string json).
Abbreviation hosts := (gmap string (gmap string json)).

(** [self.inventory]: the tree has a fixed shape, so the groups are
    indexed by their names; only the [hosts] mappings change. *)
Record inventory : Type := {
  ungrouped_hosts : hosts;
  tier_hosts : tier -> role -> hosts;
  os_hosts : os_family -> hosts
}.

Definition _create_base_inventory : inventory :=
  {| ungrouped_hosts := ∅;
     tier_hosts := fun _ _ => ∅;
     os_hosts := fun _ => ∅ |}.

(** What the generator prints. *)
Inductive message : Type :=
| InputDirNotFound
| NoAssessmentFiles
| NoDiscoveryFilesEither
| UsingLatestDiscovery (f : string)
| UsingLatestAssessment (f : string)
| LoadedFromDiscovery (n : nat)
| LoadedFromAssessment (n : nat)
| ErrorLoadingDiscovery
| ErrorLoadingAssessment
| NoDevicesLoaded
| SkippingDeviceWithoutIp (device : dict)
| ErrorProcessingDevice (ip : json) (e : exn)
| InventorySaved
| ErrorSavingInventory
| FailedToLoad
| FailedToGenerate
| FailedToSave
| CompletedSuccessfully.

(** The allow-list of [_safe_hostname]: [c.isalnum() or c in '-_']. *)
Definition allowed_char (c : ascii) : bool :=
  Str.isalnum c || Str.mem_char c "-_".

Definition sanitize_char (c : ascii) : ascii :=
  if allowed_char c then c else "_"%char.

(** The fallback of [_safe_hostname]:
    [f"host_{ip_address.replace('.', '_')}"]. *)
Definition ip_key (ip_address : json) : result string :=
  match ip_address with
  | JStr a => Ok ("host_" +:+ Str.replace_char "." "_" a)
  | _ => Raise AttributeError
  end.

Definition _safe_hostname (hostname ip_address : json) : result string :=
  match hostname with
  | JStr s =>
      if truthy hostname && negb (String.eqb (Str.lower s) "unknown") then
        let hostname := Str.first_field "." s in
        let safe_name := Str.map sanitize_char hostname in
        let safe_name :=
          match safe_name with
          | String c _ => if Str.isdigit c then "host_" +:+ safe_name else safe_name
          | EmptyString => safe_name
          end in
        if negb (String.eqb safe_name "") then Ok safe_name
        else ip_key ip_address
      else ip_key ip_address
  | _ =>
      (* a true value that is not a string has no [lower] *)
      if truthy hostname then Raise AttributeError else ip_key ip_address
  end.

(** A name the normalisation leaves alone: allowed characters only, not
    empty, no leading digit. *)
Definition normal_name (n : string) : Prop :=
  Str.forallb allowed_char n = true ∧
  match n with
  | EmptyString => False
  | String c _ => Str.isdigit c = false
  end.

(** The characters of an address whose IP-derived key is a normal name:
    the allowed ones and the dot (every dotted IPv4 address). *)
Definition ip_char (c : ascii) : bool :=
  allowed_char c || Ascii.eqb c ".".

(** [v in l] for a list [l] of integers ([True] and [False] compare
    equal to 1 and 0). *)
Definition num_in (v : json) (l : list Z) : bool :=
  match v with
  | JNum z => existsb (Z.eqb z) l
  | JBool b => existsb (Z.eqb (if b then 1 else 0)) l
  | _ => false
  end.

(** [any(p.get('port') in l for p in ports if isinstance(p, dict))] *)
Definition any_port (l : list Z) (ports : list json) : bool :=
  existsb (fun p => match p with
                    | JObj d => num_in (dict_get "port" JNull d) l
                    | _ => false
                    end) ports.

(** [any(term in hostname for term in terms)] *)
Definition any_term (terms : list string) (hostname : string) : bool :=
  existsb (fun term => Str.contains term hostname) terms.

(** The port-based guess of [_determine_os_type], and its default. *)
Definition os_from_ports (device : dict) : os_family :=
  match dict_lookup "open_ports" device with
  | Some (JArr ports) =>
      if any_port [3389; 5985; 5986] ports then windows
      else if any_port [22] ports then linux
      else other
  | _ => other
  end.

Definition _determine_os_type (device : dict) : result os_family :=
  match dict_lookup "operating_system" device with
  | Some (JObj os_data) =>
      match dict_lookup "type" os_data with
      | Some (JStr t) =>
          let os_type := Str.lower t in
          if String.eqb os_type "linux" then Ok linux
          else if String.eqb os_type "windows" then Ok windows
          else if String.eqb os_type "macos" then Ok macos
          else if Str.contains "network" os_type then Ok network_devices
          else Ok (os_from_ports device)
      | Some _ => Raise AttributeError
      | None => Ok (os_from_ports device)
      end
  | _ => Ok (os_from_ports device)
  end.

(** The test
    ['hardware' in device and 'virtualization_support' in device['hardware']]
    followed by [device['hardware']['virtualization_support']]. *)
Definition virtualization_flag (device : dict) : result bool :=
  match dict_lookup "hardware" device with
  | None => Ok false
  | Some (JObj hardware) =>
      match dict_lookup "virtualization_support" hardware with
      | Some v => Ok (truthy v)
      | None => Ok false
      end
  | Some (JArr l) =>
      (* membership holds for an equal element; indexing a list by a
         string then raises *)
      if existsb (fun v => match v with
                           | JStr s => String.eqb s "virtualization_support"
                           | _ => false
                           end) l
      then Raise TypeError else Ok false
  | Some (JStr s) =>
      if Str.contains "virtualization_support" s then Raise TypeError
      else Ok false
  | Some _ => Raise TypeError
  end.

Definition _determine_device_role (device : dict) : result role :=
  let* hostname := match dict_get "hostname" (JStr "") device with
                   | JStr s => Ok (Str.lower s)
                   | _ => Raise AttributeError
                   end in
  if any_term ["router"; "switch"; "fw"; "firewall"; "gateway"] hostname
  then Ok network
  else if any_term ["nas"; "san"; "storage"; "backup"] hostname
  then Ok storage
  else
    let* virt := virtualization_flag device in
    if virt then Ok virtualization
    else
      match dict_lookup "open_ports" device with
      | Some (JArr ports) =>
          if any_port [80; 443; 8080] ports then Ok cloud
          else if any_port [3306; 5432; 1521; 27017] ports then Ok business
          else Ok ungrouped
      | _ => Ok ungrouped
      end.

(** The first half of [_add_host_to_inventory]: the [host_vars] dict. *)
Definition build_host_vars (ip_address : json) (os_type : os_family)
    (device_data : dict) : result host_vars :=
  let host_vars : host_vars := {["ansible_host" := ip_address]} in
  let host_vars :=
    match os_type with
    | windows =>
        <["ansible_winrm_server_cert_validation" := JStr "ignore"]>
          (<["ansible_connection" := JStr "winrm"]> host_vars)
    | linux | macos => <["ansible_connection" := JStr "ssh"]> host_vars
    | network_devices | other => host_vars
    end in
  match dict_lookup "hardware" device_data with
  | Some (JObj hardware) =>
      let* host_vars :=
        match dict_lookup "cpu" hardware with
        | None => Ok host_vars
        | Some (JObj cpu) =>
            Ok (<["cpu_arch" := dict_get "architecture" JNull cpu]>
                  (<["cpu_cores" := dict_get "cores" JNull cpu]> host_vars))
        | Some _ => Raise AttributeError
        end in
      let* host_vars :=
        match dict_lookup "memory" hardware with
        | None => Ok host_vars
        | Some (JObj memory) =>
            Ok (<["memory_mb" := dict_get "total_mb" JNull memory]> host_vars)
        | Some _ => Raise AttributeError
        end in
      match dict_lookup "virtualization_support" hardware with
      | Some v => Ok (<["virtualization_support" := v]> host_vars)
      | None => Ok host_vars
      end
  | _ => Ok host_vars
  end.

(** The static role-to-tier table; its [else] branch ([tier_group = None])
    is for names outside the fixed role set. *)
Definition tier_group (device_role : role) : option tier :=
  match device_role with
  | network | storage | security | virtualization => Some tier1_core
  | automation | monitoring | identity | secrets => Some tier2_services
  | business | media | cloud => Some tier3_applications
  | ai | gaming | security_specialized => Some tier4_specialized
  | ungrouped => None
  end.

Definition _add_host_to_inventory (inv : inventory) (hostname : string)
    (ip_address : json) (os_type : os_family) (device_role : role)
    (device_data : dict) : result inventory :=
  let* host_vars := build_host_vars ip_address os_type device_data in
  (* Add to OS type group *)
  let os' := <[os_type := <[hostname := host_vars]> (os_hosts inv os_type)]>
               (os_hosts inv) in
  (* Add to role-based group *)
  if decide (device_role <> ungrouped) then
    match tier_group device_role with
    | Some t =>
        Ok {| ungrouped_hosts := ungrouped_hosts inv;
              tier_hosts :=
                <[t := <[device_role := <[hostname := ∅]>
                                         (tier_hosts inv t device_role)]>
                         (tier_hosts inv t)]> (tier_hosts inv);
              os_hosts := os' |}
    | None =>
        Ok {| ungrouped_hosts := ungrouped_hosts inv;
              tier_hosts := tier_hosts inv;
              os_hosts := os' |}
    end
  else
    Ok {| ungrouped_hosts := <[hostname := host_vars]> (ungrouped_hosts inv);
          tier_hosts := tier_hosts inv;
          os_hosts := os' |}.

(** One turn of the loop of [generate_inventory], with its [try] and
    [except]: the inventory afterwards and what was printed. *)
Definition process_device (inv : inventory) (device : dict)
    : inventory * list message :=
  let ip_address := dict_get "ip_address" JNull device in
  let hostname := dict_get "hostname" (JStr "unknown") device in
  if negb (truthy ip_address) then (inv, [SkippingDeviceWithoutIp device])
  else
    match (let* safe_hostname := _safe_hostname hostname ip_address in
           let* os_type := _determine_os_type device in
           let* device_role := _determine_device_role device in
           _add_host_to_inventory inv safe_hostname ip_address os_type
             device_role device) with
    | Ok inv' => (inv', [])
    | Raise e => (inv, [ErrorProcessingDevice ip_address e])
    end.

Fixpoint process_devices (inv : inventory) (devices : list dict)
    : inventory * list message :=
  match devices with
  | [] => (inv, [])
  | device :: rest =>
      let '(inv1, log1) := process_device inv device in
      let '(inv2, log2) := process_devices inv1 rest in
      (inv2, log1 ++ log2)
  end.

(** [generate_inventory]: the returned flag, the inventory and the log. *)
Definition generate_inventory (discovered_devices : list dict)
    (inv : inventory) : bool * inventory * list message :=
  match discovered_devices with
  | [] => (false, inv, [NoDevicesLoaded])
  | _ =>
      let '(inv', log) := process_devices inv discovered_devices in
      (true, inv', log)
  end.

(** *** Loading the input and [main] *)

(** The file system as the generator sees it. *)
Record filesystem : Type := {
  dir_exists : bool;              (* [self.input_dir.exists()] *)
  listing : list Files.file;      (* the files of [self.input_dir] *)
  write_ok : bool                 (* [save_inventory] writes without error *)
}.

(** [load_discovered_devices]: the returned flag,
    [self.discovered_devices] and the log. *)
Definition load_discovered_devices (fs : filesystem)
    : bool * list dict * list message :=
  if negb (dir_exists fs) then (false, [], [InputDirNotFound])
  else
    match Files.glob "hardware_assessment_" ".json" (listing fs) with
    | [] =>
        match Files.glob "network_discovery_" ".json" (listing fs) with
        | [] => (false, [], [NoAssessmentFiles; NoDiscoveryFilesEither])
        | f :: others =>
            let latest_file := Files.latest f others in
            match Files.content latest_file with
            | Some devices =>
                (Nat.ltb 0 (length devices), devices,
                 [NoAssessmentFiles;
                  UsingLatestDiscovery (Files.name latest_file);
                  LoadedFromDiscovery (length devices)])
            | None =>
                (false, [],
                 [NoAssessmentFiles;
                  UsingLatestDiscovery (Files.name latest_file);
                  ErrorLoadingDiscovery])
            end
        end
    | f :: others =>
        let latest_file := Files.latest f others in
        match Files.content latest_file with
        | Some devices =>
            (Nat.ltb 0 (length devices), devices,
             [UsingLatestAssessment (Files.name latest_file);
              LoadedFromAssessment (length devices)])
        | None =>
            (false, [],
             [UsingLatestAssessment (Files.name latest_file);
              ErrorLoadingAssessment])
        end
    end.

(** [main]: the exit status of the process, the log and the inventory
    written, if any. *)
Definition main (fs : filesystem) : Z * list message * option inventory :=
  let '(loaded, devices, log1) := load_discovered_devices fs in
  if negb loaded then (1, log1 ++ [FailedToLoad], None)
  else
    let '(generated, inv, log2) :=
      generate_inventory devices _create_base_inventory in
    if negb generated then (1, log1 ++ log2 ++ [FailedToGenerate], None)
    else if write_ok fs
    then (0, log1 ++ log2 ++ [InventorySaved; CompletedSuccessfully], Some inv)
    else (1, log1 ++ log2 ++ [ErrorSavingInventory; FailedToSave], None).

(** *** Reading the loop as a list of placements *)

(** The record of one placed host: key, OS family, role, variables. *)
Record placed : Type := {
  p_key : string;
  p_os : os_family;
  p_role : role;
  p_vars : host_vars
}.

(** The host a device contributes, when the loop neither skips it nor
    catches an exception for it. *)
Definition placement (device : dict) : option placed :=
  let ip_address := dict_get "ip_address" JNull device in
  let hostname := dict_get "hostname" (JStr "unknown") device in
  if negb (truthy ip_address) then None
  else
    match (let* safe_hostname := _safe_hostname hostname ip_address in
           let* os_type := _determine_os_type device in
           let* device_role := _determine_device_role device in
           let* host_vars := build_host_vars ip_address os_type device in
           Ok {| p_key := safe_hostname; p_os := os_type;
                 p_role := device_role; p_vars := host_vars |}) with
    | Ok p => Some p
    | Raise _ => None
    end.

(** The two insertions of [_add_host_to_inventory]. *)
Definition place (inv : inventory) (p : placed) : inventory :=
  {| ungrouped_hosts :=
       if decide (p_role p = ungrouped)
       then <[p_key p := p_vars p]> (ungrouped_hosts inv)
       else ungrouped_hosts inv;
     tier_hosts :=
       match tier_group (p_role p) with
       | Some t =>
           <[t := <[p_role p := <[p_key p := ∅]>
                                   (tier_hosts inv t (p_role p))]>
                    (tier_hosts inv t)]> (tier_hosts inv)
       | None => tier_hosts inv
       end;
     os_hosts :=
       <[p_os p := <[p_key p := p_vars p]> (os_hosts inv (p_os p))]>
         (os_hosts inv) |}.

(** The connection variable [_add_host_to_inventory] sets per family. *)
Definition connection_of (os_type : os_family) : option json :=
  match os_type with
  | windows => Some (JStr "winrm")
  | linux | macos => Some (JStr "ssh")
  | network_devices | other => None
  end.

End Inventory.

(** ** The discovery engine ([network_discovery.py]) *)

Module Discovery.

(** *** [ipaddress.IPv4Network] *)

(** A network as the constructor leaves it; addresses are 32-bit
    integers. *)
Record network : Type := {
  network_address : Z;
  prefixlen : Z
}.

Definition hostmask (prefixlen : Z) : Z := 2 ^ (32 - prefixlen) - 1.

(** [IPv4Network(subnet)] for the address and prefix length the text of
    [subnet] denotes: with host bits set the constructor raises. *)
Definition IPv4Network (address prefixlen : Z) : result network :=
  if (0 <=? address) && (address <? 2 ^ 32) &&
     (0 <=? prefixlen) && (prefixlen <=? 32) &&
     (Z.land address (hostmask prefixlen) =? 0)
  then Ok {| network_address := address; prefixlen := prefixlen |}
  else Raise ValueError.

Definition broadcast_address (n : network) : Z :=
  Z.lor (network_address n) (hostmask (prefixlen n)).

(** [network.hosts()]: the addresses strictly between the network and the
    broadcast address; both addresses of a /31 and the one of a /32. *)
Definition hosts (n : network) : list Z :=
  if prefixlen n =? 31 then
    seqZ (network_address n) (broadcast_address n + 1 - network_address n)
  else if prefixlen n =? 32 then [network_address n]
  else seqZ (network_address n + 1)
            (broadcast_address n - (network_address n + 1)).

Definition octet (a : Z) (i : Z) : Z := (a / 2 ^ (8 * i)) `mod` 256.

(** [str(ip)]: the dotted quad. *)
Definition str_of_ip (a : Z) : string :=
  pretty (octet a 3) +:+ "." +:+ pretty (octet a 2) +:+ "." +:+
  pretty (octet a 1) +:+ "." +:+ pretty (octet a 0).

(** *** The network as the scans see it *)

(** One host of [scanner.all_hosts()], with what [_get_os_details] and
    [_get_open_ports] extract for it. *)
Record nmap_host : Type := {
  nm_host : string;
  nm_hostname : string;              (* [scanner[host].hostname()] *)
  nm_mac : option string;            (* [scanner[host]['addresses'].get('mac')] *)
  nm_os : dict;
  nm_open_ports : list json
}.

(** One entry of the lease table. *)
Record lease : Type := {
  l_ip : string;
  l_mac : string;
  l_hostname : option string
}.

(** The outcome of [socket.gethostbyaddr]. *)
Inductive lookup : Type :=
| Resolved (hostname : string)
| HostError                    (* [socket.herror] *)
| OtherFailure (e : exn).      (* any other exception *)

Record world : Type := {
  NMAP_AVAILABLE : bool;
  SCAPY_AVAILABLE : bool;
  (* the hosts the scan loop records, and the exception that ends the
     [try] block early, if any *)
  nmap_hosts : list nmap_host;
  nmap_error : option exn;
  (* [scapy.srp(packet, timeout=1)[0]]: the hardware addresses of the
     answers to the request for one address *)
  srp : Z -> result (list string);
  gethostbyaddr : string -> lookup;
  (* the parsed lease table; an exception while reading it is caught *)
  dhcp_leases : result (list lease);
  now : string
}.

Definition nmap_device (w : world) (h : nmap_host) : dict :=
  [("ip_address", JStr (nm_host h));
   ("hostname",
    JStr (if String.eqb (nm_hostname h) "" then "Unknown" else nm_hostname h));
   ("mac_address", JStr (default "Unknown" (nm_mac h)));
   ("os", JObj (nm_os h));
   ("open_ports", JArr (nm_open_ports h));
   ("discovery_method", JStr "nmap");
   ("timestamp", JStr (now w))].

Definition arp_device (w : world) (ip_str hostname mac_address : string) : dict :=
  [("ip_address", JStr ip_str);
   ("hostname", JStr hostname);
   ("mac_address", JStr mac_address);
   ("discovery_method", JStr "arp");
   ("timestamp", JStr (now w))].

Definition dhcp_device (w : world) (l : lease) : dict :=
  [("ip_address", JStr (l_ip l));
   ("mac_address", JStr (l_mac l));
   ("hostname", JStr (default "Unknown" (l_hostname l)));
   ("discovery_method", JStr "dhcp");
   ("timestamp", JStr (now w))].

(** Each method takes [self.discovered_devices] and gives it back
    together with the list it returns. *)
Definition scan_with_nmap (w : world) (discovered_devices : list dict)
    : list dict * list dict :=
  if negb (NMAP_AVAILABLE w) then (discovered_devices, [])
  else
    let discovered_devices :=
      discovered_devices ++ (nmap_device w <$> nmap_hosts w) in
    match nmap_error w with
    | None => (discovered_devices, discovered_devices)
    | Some _ => (discovered_devices, [])
    end.

(** The inner loop [for sent, received in result]: the devices so far and
    the exception that ended the loop, if any. *)
Fixpoint arp_answers (w : world) (ip_str : string) (answers : list string)
    (discovered_devices : list dict) : list dict * option exn :=
  match answers with
  | [] => (discovered_devices, None)
  | mac_address :: rest =>
      match gethostbyaddr w ip_str with
      | Resolved hostname =>
          arp_answers w ip_str rest
            (discovered_devices ++ [arp_device w ip_str hostname mac_address])
      | HostError =>
          arp_answers w ip_str rest
            (discovered_devices ++ [arp_device w ip_str "Unknown" mac_address])
      | OtherFailure e => (discovered_devices, Some e)
      end
  end.

(** The loop [for ip in network.hosts()]. *)
Fixpoint arp_probes (w : world) (n : network) (ips : list Z)
    (discovered_devices : list dict) : list dict * option exn :=
  match ips with
  | [] => (discovered_devices, None)
  | ip :: rest =>
      (* Skip network and broadcast addresses *)
      if (ip =? network_address n) || (ip =? broadcast_address n)
      then arp_probes w n rest discovered_devices
      else
        match srp w ip with
        | Raise e => (discovered_devices, Some e)
        | Ok answers =>
            match arp_answers w (str_of_ip ip) answers discovered_devices with
            | (discovered_devices, None) =>
                arp_probes w n rest discovered_devices
            | (discovered_devices, Some e) => (discovered_devices, Some e)
            end
        end
  end.

Definition scan_with_arp (w : world) (subnet : Z * Z)
    (discovered_devices : list dict) : list dict * list dict :=
  if negb (SCAPY_AVAILABLE w) then (discovered_devices, [])
  else
    match IPv4Network subnet.1 subnet.2 with
    | Raise _ => (discovered_devices, [])
    | Ok n =>
        match arp_probes w n (hosts n) discovered_devices with
        | (discovered_devices, None) => (discovered_devices, discovered_devices)
        | (discovered_devices, Some _) => (discovered_devices, [])
        end
    end.

Definition get_dhcp_leases (w : world) (discovered_devices : list dict)
    : list dict * list dict :=
  match dhcp_leases w with
  | Ok leases =>
      let devices := dhcp_device w <$> leases in
      (discovered_devices ++ devices, devices)
  | Raise _ => (discovered_devices, [])
  end.

(** [main] with the three method flags: [discovery.discovered_devices]
    at the end, which is saved when it is not empty. *)
Definition main (w : world) (subnet : Z * Z) (run_nmap run_arp run_dhcp : bool)
    : list dict :=
  let discovered_devices := [] in
  let discovered_devices :=
    if run_nmap then (scan_with_nmap w discovered_devices).1
    else discovered_devices in
  let discovered_devices :=
    if run_arp then (scan_with_arp w subnet discovered_devices).1
    else discovered_devices in
  let discovered_devices :=
    if run_dhcp then (get_dhcp_leases w discovered_devices).1
    else discovered_devices in
  discovered_devices.

(** *** Reading the result *)

(** [a] lies in the subnet and is neither its network nor its broadcast
    address. *)
Definition usable_host (n : network) (a : Z) : Prop :=
  network_address n < a < broadcast_address n.

(** A record of the link-layer method for the address [a]. *)
Definition arp_record (a : Z) (d : dict) : Prop :=
  dict_lookup "ip_address" d = Some (JStr (str_of_ip a)) ∧
  dict_lookup "discovery_method" d = Some (JStr "arp").

(** The method a record came from. *)
Definition found_by (method : string) (d : dict) : Prop :=
  dict_lookup "discovery_method" d = Some (JStr method).

(** The records of a list for one address. *)
Definition has_ip (ip : string) (d : dict) : bool :=
  match dict_lookup "ip_address" d with
  | Some (JStr s) => String.eqb s ip
  | _ => false
  end.

Definition records_for (ip : string) (devices : list dict) : list dict :=
  filter (fun d => has_ip ip d = true) devices.

End Discovery.

(** ** The assessment engine ([hardware_analyzer.py]) *)

Module Assessment.

Definition SSH_PORT : Z := 22.
Definition WINRM_PORT : Z := 5985.

(** What a remote session reports once its output is parsed; the session
    and the parsing are read through the oracles below. *)
Record ssh_facts : Type := {
  ssh_os_name : json;
  ssh_os_version : json;
  ssh_cpu_cores : json;
  ssh_cpu_arch : json;
  ssh_total_memory : json;
  ssh_disks : list json;
  ssh_virt_support : bool;
  ssh_docker_installed : bool
}.

Record wmi_facts : Type := {
  wmi_os_details : dict;
  wmi_cpu_details : dict;
  wmi_memory_details : dict;
  wmi_disks : list json;
  wmi_virt_support : bool;
  wmi_docker_installed : bool
}.

(** The outcome of the shell session of [_assess_via_ssh]. *)
Inductive ssh_outcome : Type :=
| SshFacts (f : ssh_facts)    (* connected, queried and parsed *)
| SshCaught                   (* an exception inside the [try] *)
| SshEscaped (e : exn).       (* an exception outside it: the client
                                 constructor, or [ssh.close()] in the handler *)

(** One snapshot of the network, the platform and the clock. *)
Record world : Type := {
  PARAMIKO_AVAILABLE : bool;
  WMI_AVAILABLE : bool;
  connect_ex : json -> Z -> result Z;   (* [sock.connect_ex((ip, port))] *)
  ssh_session : json -> ssh_outcome;
  wmi_session : json -> option wmi_facts;  (* [None]: an exception, caught *)
  ping_returncode : json -> result Z;   (* [subprocess.run(ping ...)] *)
  now : string                          (* [datetime.now().isoformat()] *)
}.

Definition _check_port_open (w : world) (ip_address : json) (port : Z) : bool :=
  match connect_ex w ip_address port with
  | Ok r => r =? 0
  | Raise _ => false
  end.

Definition _assess_via_ssh (w : world) (ip_address : json)
    : result (option dict) :=
  if negb (PARAMIKO_AVAILABLE w) then Ok None
  else
    match ssh_session w ip_address with
    | SshFacts f =>
        Ok (Some
          [("assessment_method", JStr "ssh");
           ("operating_system",
            JObj [("name", ssh_os_name f);
                  ("version", ssh_os_version f);
                  ("type", JStr "linux")]);
           ("hardware",
            JObj [("cpu", JObj [("cores", ssh_cpu_cores f);
                                ("architecture", ssh_cpu_arch f)]);
                  ("memory", JObj [("total_mb", ssh_total_memory f)]);
                  ("storage", JArr (ssh_disks f));
                  ("virtualization_support", JBool (ssh_virt_support f))]);
           ("software",
            JObj [("docker_installed", JBool (ssh_docker_installed f))])])
    | SshCaught => Ok None
    | SshEscaped e => Raise e
    end.

Definition _assess_via_winrm (w : world) (ip_address : json) : option dict :=
  if negb (WMI_AVAILABLE w) then None
  else
    match wmi_session w ip_address with
    | Some f =>
        Some
          [("assessment_method", JStr "winrm");
           ("operating_system", JObj (wmi_os_details f));
           ("hardware",
            JObj [("cpu", JObj (wmi_cpu_details f));
                  ("memory", JObj (wmi_memory_details f));
                  ("storage", JArr (wmi_disks f));
                  ("virtualization_support", JBool (wmi_virt_support f))]);
           ("software",
            JObj [("docker_installed", JBool (wmi_docker_installed f))])]
    | None => None
    end.

Definition common_ports : list Z := [22; 23; 80; 443; 445; 3389; 5985].

(** [x in open_ports] *)
Definition port_in (x : Z) (open_ports : list Z) : bool :=
  existsb (Z.eqb x) open_ports.

Definition _assess_via_basic_scan (w : world) (ip_address : json)
    : option dict :=
  match ping_returncode w ip_address with
  | Raise _ => None
  | Ok returncode =>
      let is_alive := returncode =? 0 in
      if negb is_alive then None
      else
        let open_ports :=
          filter (fun port => _check_port_open w ip_address port = true)
                 common_ports in
        let os_type :=
          if port_in 3389 open_ports || port_in 5985 open_ports
          then "windows"
          else if port_in 22 open_ports && negb (port_in 445 open_ports)
          then "linux"
          else "unknown" in
        Some [("assessment_method", JStr "basic_scan");
              ("operating_system", JObj [("type", JStr os_type)]);
              ("network", JObj [("open_ports", JArr (JNum <$> open_ports))])]
  end.

Definition assess_device (w : world) (ip_address : json)
    : result (option dict) :=
  (* Try SSH first *)
  let* assessment :=
    if PARAMIKO_AVAILABLE w && _check_port_open w ip_address SSH_PORT
    then _assess_via_ssh w ip_address
    else Ok None in
  (* Try WinRM if SSH failed *)
  let assessment :=
    match assessment with
    | Some a => Some a
    | None =>
        if WMI_AVAILABLE w && _check_port_open w ip_address WINRM_PORT
        then _assess_via_winrm w ip_address
        else None
    end in
  (* If all else fails, ICMP and port scanning *)
  let assessment :=
    match assessment with
    | Some a => Some a
    | None => _assess_via_basic_scan w ip_address
    end in
  match assessment with
  | Some a => Ok (Some (dict_set "assessment_timestamp" (JStr (now w)) a))
  | None => Ok None
  end.

(** What the loop of [assess_all_devices] and [main] print (the lines
    printed inside the three methods are left out). *)
Inductive message : Type :=
| UsingLatestInventory (f : string)
| InventoryFileNotFound (f : option string)
| LoadedDevices (n : nat)
| ErrorLoadingInventory
| SkippingDeviceWithoutIp (device : dict)
| AssessingDevice (ip : json)
| ErrorAssessingDevice (ip : json) (e : exn)
| ResultsSaved
| NoDevicesAssessed.

(** One turn of the loop of [assess_all_devices]: the records appended to
    [self.assessed_devices] and the lines printed. *)
Definition assess_one (w : world) (device : dict) : list dict * list message :=
  let ip_address := dict_get "ip_address" JNull device in
  if negb (truthy ip_address) then ([], [SkippingDeviceWithoutIp device])
  else
    match assess_device w ip_address with
    | Ok (Some assessment) =>
        ([dict_merge device assessment], [AssessingDevice ip_address])
    | Ok None => ([], [AssessingDevice ip_address])
    | Raise e =>
        ([], [AssessingDevice ip_address; ErrorAssessingDevice ip_address e])
    end.

Fixpoint assess_all_devices (w : world) (devices : list dict)
    : list dict * list message :=
  match devices with
  | [] => ([], [])
  | device :: rest =>
      let '(new, log1) := assess_one w device in
      let '(assessed, log2) := assess_all_devices w rest in
      (new ++ assessed, log1 ++ log2)
  end.

(** The file system as the engine sees it, [output_dir] having been made
    by the constructor. *)
Record filesystem : Type := {
  listing : list Files.file;               (* the files of [output_dir] *)
  lookup : string -> option Files.file;    (* a file given by its path *)
  write_ok : bool                          (* [save_results] writes without error *)
}.

Definition _find_inventory_file (fs : filesystem) (inventory_file : option string)
    : option (string * option Files.file) * list message :=
  match inventory_file with
  | Some path =>
      if negb (String.eqb path "") then (Some (path, lookup fs path), [])
      else
        match Files.glob "network_discovery_" ".json" (listing fs) with
        | [] => (None, [])
        | f :: others =>
            let latest_file := Files.latest f others in
            (Some (Files.name latest_file, Some latest_file),
             [UsingLatestInventory (Files.name latest_file)])
        end
  | None =>
      match Files.glob "network_discovery_" ".json" (listing fs) with
      | [] => (None, [])
      | f :: others =>
          let latest_file := Files.latest f others in
          (Some (Files.name latest_file, Some latest_file),
           [UsingLatestInventory (Files.name latest_file)])
      end
  end.

(** [_load_inventory], on what [_find_inventory_file] found: a path and
    the file there, if it exists. *)
Definition _load_inventory (found : option (string * option Files.file))
    : list dict * list message :=
  match found with
  | None => ([], [InventoryFileNotFound None])
  | Some (path, None) => ([], [InventoryFileNotFound (Some path)])
  | Some (path, Some f) =>
      match Files.content f with
      | Some devices => (devices, [LoadedDevices (length devices)])
      | None => ([], [ErrorLoadingInventory])
      end
  end.

(** [main]: the exit status of the process, the log and the artifact
    written, if any. *)
Definition main (w : world) (fs : filesystem) (inventory_file : option string)
    : Z * list message * option (list dict) :=
  let '(found, log1) := _find_inventory_file fs inventory_file in
  let '(devices, log2) := _load_inventory found in
  let '(assessed_devices, log3) := assess_all_devices w devices in
  match assessed_devices with
  | _ :: _ =>
      if write_ok fs
      then (0, log1 ++ log2 ++ log3 ++ [ResultsSaved], Some assessed_devices)
      else (1, log1 ++ log2 ++ log3, None)   (* the exception of [open] ends the process *)
  | [] => (0, log1 ++ log2 ++ log3 ++ [NoDevicesAssessed], None)
  end.

(** *** Reachability, as the fallback chain experiences it *)

(** The remote-shell attempt yields no assessment: the capability is
    absent, or the port is closed, or the session fails and the method's
    handler catches it. *)
Definition ssh_unreachable (w : world) (ip_address : json) : Prop :=
  PARAMIKO_AVAILABLE w = false ∨
  _check_port_open w ip_address SSH_PORT = false ∨
  ssh_session w ip_address = SshCaught.

Definition winrm_unreachable (w : world) (ip_address : json) : Prop :=
  WMI_AVAILABLE w = false ∨
  _check_port_open w ip_address WINRM_PORT = false ∨
  wmi_session w ip_address = None.

Definition responds_to_ping (w : world) (ip_address : json) : Prop :=
  ping_returncode w ip_address = Ok 0.

(** The OS rule of the basic scan, on the open/closed state of a port. *)
Definition os_rule (is_open : Z -> bool) : string :=
  if is_open 3389 || is_open 5985 then "windows"
  else if is_open 22 && negb (is_open 445) then "linux"
  else "unknown".

End Assessment.

(** ** Sample inputs *)

Module Samples.

(** The device of the end-to-end scenario: a web server, not assessed. *)
Definition web01 : dict :=
  [("ip_address", JStr "10.0.0.5");
   ("hostname", JStr "web01.example.com");
   ("open_ports", JArr [JObj [("port", JNum 80)]])].

(** Two hosts named [web01] in different domains. *)
Definition web01_lan : dict :=
  [("ip_address", JStr "10.0.0.5");
   ("hostname", JStr "web01");
   ("open_ports", JArr [JObj [("port", JNum 22)]])].

Definition web01_dmz : dict :=
  [("ip_address", JStr "10.0.0.6");
   ("hostname", JStr "web01.example.com");
   ("open_ports", JArr [JObj [("port", JNum 3389)]; JObj [("port", JNum 80)]])].

(** A record whose hostname is [null]. *)
Definition nameless : dict :=
  [("ip_address", JStr "10.0.0.7"); ("hostname", JNull)].

(** A Linux host and a router. *)
Definition db01 : dict :=
  [("ip_address", JStr "10.0.0.8");
   ("hostname", JStr "db01");
   ("open_ports", JArr [JObj [("port", JNum 22)]; JObj [("port", JNum 5432)]])].

Definition router : dict :=
  [("ip_address", JStr "10.0.0.1"); ("hostname", JStr "core-router")].

(** A host that drops ICMP echo and accepts shell sessions, on a
    machine with the shell client installed. *)
Definition shell_facts : Assessment.ssh_facts :=
  {| Assessment.ssh_os_name := JStr "Debian GNU/Linux 12 (bookworm)";
     Assessment.ssh_os_version := JStr "12";
     Assessment.ssh_cpu_cores := JStr "4";
     Assessment.ssh_cpu_arch := JStr "x86_64";
     Assessment.ssh_total_memory := JStr "7953";
     Assessment.ssh_disks := [];
     Assessment.ssh_virt_support := false;
     Assessment.ssh_docker_installed := false |}.

Definition no_icmp_world : Assessment.world :=
  {| Assessment.PARAMIKO_AVAILABLE := true;
     Assessment.WMI_AVAILABLE := false;
     Assessment.connect_ex := fun _ port => Ok (if port =? 22 then 0 else 111);
     Assessment.ssh_session := fun _ => Assessment.SshFacts shell_facts;
     Assessment.wmi_session := fun _ => None;
     Assessment.ping_returncode := fun _ => Ok 1;
     Assessment.now := "2024-01-01T00:00:00" |}.

(** A network on which nothing answers. *)
Definition silent_world : Assessment.world :=
  {| Assessment.PARAMIKO_AVAILABLE := true;
     Assessment.WMI_AVAILABLE := false;
     Assessment.connect_ex := fun _ _ => Ok 111;
     Assessment.ssh_session := fun _ => Assessment.SshCaught;
     Assessment.wmi_session := fun _ => None;
     Assessment.ping_returncode := fun _ => Ok 1;
     Assessment.now := "2024-01-01T00:00:00" |}.

(** A host that answers ping, with only the shell port open, whose shell
    session is refused. *)
Definition ping_only_world : Assessment.world :=
  {| Assessment.PARAMIKO_AVAILABLE := true;
     Assessment.WMI_AVAILABLE := false;
     Assessment.connect_ex := fun _ port => Ok (if port =? 22 then 0 else 111);
     Assessment.ssh_session := fun _ => Assessment.SshCaught;
     Assessment.wmi_session := fun _ => None;
     Assessment.ping_returncode := fun _ => Ok 0;
     Assessment.now := "2024-01-01T00:00:00" |}.


(** The subnet 10.0.0.0/29 and its first two hosts. *)
Definition lan : Z * Z := (167772160, 29).
Definition host1 : Z := 167772161.
Definition host2 : Z := 167772162.

(** A segment on which only 10.0.0.2 answers, with no reverse DNS; the
    request for 10.0.0.1 cannot be sent. *)
Definition failing_probe_world : Discovery.world :=
  {| Discovery.NMAP_AVAILABLE := false;
     Discovery.SCAPY_AVAILABLE := true;
     Discovery.nmap_hosts := [];
     Discovery.nmap_error := None;
     Discovery.srp := fun a =>
       if a =? host1 then Raise OSError
       else if a =? host2 then Ok ["aa:bb:cc:dd:ee:02"]
       else Ok [];
     Discovery.gethostbyaddr := fun _ => Discovery.HostError;
     Discovery.dhcp_leases := Ok [];
     Discovery.now := "2024-01-01T00:00:00" |}.

(** The same segment, the request for 10.0.0.1 going unanswered. *)
Definition quiet_probe_world : Discovery.world :=
  {| Discovery.NMAP_AVAILABLE := false;
     Discovery.SCAPY_AVAILABLE := true;
     Discovery.nmap_hosts := [];
     Discovery.nmap_error := None;
     Discovery.srp := fun a =>
       if a =? host2 then Ok ["aa:bb:cc:dd:ee:02"] else Ok [];
     Discovery.gethostbyaddr := fun _ => Discovery.HostError;
     Discovery.dhcp_leases := Ok [];
     Discovery.now := "2024-01-01T00:00:00" |}.

(** A segment whose host 10.0.0.2 is seen by all three methods. *)
Definition three_views_world : Discovery.world :=
  {| Discovery.NMAP_AVAILABLE := true;
     Discovery.SCAPY_AVAILABLE := true;
     Discovery.nmap_hosts :=
       [{| Discovery.nm_host := "10.0.0.2";
           Discovery.nm_hostname := "alpha.lan";
           Discovery.nm_mac := Some "AA:BB:CC:DD:EE:02";
           Discovery.nm_os :=
             [("name", JStr "Linux 5.X"); ("accuracy", JStr "96");
              ("matches", JArr [JStr "Linux 5.X"])];
           Discovery.nm_open_ports :=
             [JObj [("port", JNum 22); ("protocol", JStr "tcp");
                    ("service", JStr "ssh"); ("product", JStr "OpenSSH")]] |}];
     Discovery.nmap_error := None;
     Discovery.srp := fun a =>
       if a =? host2 then Ok ["aa:bb:cc:dd:ee:02"] else Ok [];
     Discovery.gethostbyaddr := fun _ => Discovery.HostError;
     Discovery.dhcp_leases :=
       Ok [{| Discovery.l_ip := "10.0.0.2";
              Discovery.l_mac := "aa:bb:cc:dd:ee:02";
              Discovery.l_hostname := Some "alpha" |}];
     Discovery.now := "2024-01-01T00:00:00" |}.

(** Artifact directories with no file. *)
Definition empty_output_dir : Assessment.filesystem :=
  {| Assessment.listing := [];
     Assessment.lookup := fun _ => None;
     Assessment.write_ok := true |}.

Definition empty_input_dir : Inventory.filesystem :=
  {| Inventory.dir_exists := true;
     Inventory.listing := [];
     Inventory.write_ok := true |}.

End Samples.

(** ** What the scan method extracts from the scanner *)

Module Nmap.

(** [scanner[host]], as far as the two extraction helpers read it: the
    protocols of [all_protocols()] in its order, each with its ports in
    the order of [keys()] and the dict the scanner holds for the port,
    and the [osmatch] list when the key is there. *)
Record host_data : Type := {
  protocols : list (string * list (Z * dict));
  osmatch : option (list dict)
}.

(** The entry appended for an open port; [None] when ['name'] is missing
    (a [KeyError]). *)
Definition port_entry (proto : string) (port : Z) (info : dict) : option json :=
  match dict_lookup "name" info with
  | Some name =>
      Some (JObj [("port", JNum port);
                  ("protocol", JStr proto);
                  ("service", name);
                  ("product", dict_get "product" (JStr "") info)])
  | None => None
  end.

(** [info['state'] == 'open'], [None] when ['state'] is missing. *)
Definition state_is_open (info : dict) : option bool :=
  match dict_lookup "state" info with
  | Some (JStr st) => Some (String.eqb st "open")
  | Some _ => Some false
  | None => None
  end.

(** The inner loop over the ports of one protocol; [None] stands for the
    [KeyError] that leaves the loops. *)
Fixpoint collect_ports (proto : string) (ports : list (Z * dict))
    (open_ports : list json) : option (list json) :=
  match ports with
  | [] => Some open_ports
  | (port, info) :: rest =>
      match state_is_open info with
      | None => None
      | Some false => collect_ports proto rest open_ports
      | Some true =>
          match port_entry proto port info with
          | None => None
          | Some e => collect_ports proto rest (open_ports ++ [e])
          end
      end
  end.

Fixpoint collect_protocols (protos : list (string * list (Z * dict)))
    (open_ports : list json) : option (list json) :=
  match protos with
  | [] => Some open_ports
  | (proto, ports) :: rest =>
      match collect_ports proto ports open_ports with
      | None => None
      | Some open_ports => collect_protocols rest open_ports
      end
  end.

Definition _get_open_ports (data : host_data) : list json :=
  match collect_protocols (protocols data) [] with
  | Some open_ports => open_ports
  | None => []     (* except (KeyError, IndexError): return [] *)
  end.

Definition unknown_os : dict :=
  [("name", JStr "Unknown"); ("accuracy", JStr "0"); ("matches", JArr [])].

(** [[m['name'] for m in matches]], [None] on a missing key. *)
Fixpoint match_names (matches : list dict) : option (list json) :=
  match matches with
  | [] => Some []
  | m :: rest =>
      match dict_lookup "name" m, match_names rest with
      | Some n, Some names => Some (n :: names)
      | _, _ => None
      end
  end.

Definition _get_os_details (data : host_data) : dict :=
  match osmatch data with
  | Some (best :: others) =>
      match dict_lookup "name" best, dict_lookup "accuracy" best,
            match_names (take 3 (best :: others)) with
      | Some name, Some accuracy, Some names =>
          [("name", name); ("accuracy", accuracy); ("matches", JArr names)]
      | _, _, _ => unknown_os
      end
  | _ => unknown_os
  end.

(** The ports of a protocol whose state is [open]. *)
Definition open_of (ports : list (Z * dict)) : list (Z * dict) :=
  filter (fun pi => state_is_open pi.2 = Some true) ports.

(** Port data with the keys the helper reads: a state everywhere, a name
    for the open ones. *)
Definition readable (ports : list (Z * dict)) : Prop :=
  Forall (fun pi => is_Some (state_is_open pi.2) ∧
                    (state_is_open pi.2 = Some true →
                     is_Some (dict_lookup "name" pi.2))) ports.

End Nmap.

(** ** Text functions of the lease-table parser *)

Module Text.

(** [c.isspace()] on the ASCII range: tab to carriage return, the four
    separators 28 to 31, and the space. *)
Definition isspace (c : ascii) : bool :=
  Str.in_range 9 13 c || Str.in_range 28 32 c.

Definition cons_head (c : ascii) (pieces : list string) : list string :=
  match pieces with
  | piece :: rest => String c piece :: rest
  | [] => [String c EmptyString]
  end.

(** [s.split(sep)] for a one-character separator. *)
Fixpoint split_on (sep : ascii) (s : string) : list string :=
  match s with
  | EmptyString => [EmptyString]
  | String c s' =>
      if Ascii.eqb c sep then EmptyString :: split_on sep s'
      else cons_head c (split_on sep s')
  end.

(** [s.split(sep)] for a separator of several characters: occurrences
    are taken from the left and do not overlap; [skip] counts the
    characters of an occurrence still to be passed over. *)
Fixpoint split_go (sep : string) (skip : nat) (s : string) : list string :=
  match s with
  | EmptyString => [EmptyString]
  | String c s' =>
      match skip with
      | S k => split_go sep k s'
      | O =>
          if String.prefix sep s
          then EmptyString :: split_go sep (String.length sep - 1) s'
          else cons_head c (split_go sep 0 s')
      end
  end.

Definition split_str (sep s : string) : list string := split_go sep 0 s.

Fixpoint lstrip (p : ascii -> bool) (s : string) : string :=
  match s with
  | EmptyString => EmptyString
  | String c s' => if p c then lstrip p s' else s
  end.

Fixpoint rstrip (p : ascii -> bool) (s : string) : string :=
  match s with
  | EmptyString => EmptyString
  | String c s' =>
      match rstrip p s' with
      | EmptyString => if p c then EmptyString else String c EmptyString
      | r => String c r
      end
  end.

(** [s.strip()], [s.rstrip(chars)] and [s.strip(chars)]. *)
Definition strip (s : string) : string := rstrip isspace (lstrip isspace s).
Definition rstrip_chars (chars s : string) : string :=
  rstrip (fun c => Str.mem_char c chars) s.
Definition strip_chars (chars s : string) : string :=
  rstrip (fun c => Str.mem_char c chars) (lstrip (fun c => Str.mem_char c chars) s).

(** [pieces[-1]] of a split, which is never empty. *)
Definition last_piece (pieces : list string) : string :=
  List.last pieces EmptyString.

(** A text without blank of any kind. *)
Definition token (s : string) : Prop :=
  Str.forallb (fun c => negb (isspace c)) s = true.

End Text.

(** ** The lease-table parser of [_get_linux_dhcp_leases] *)

Module Leases.

Definition newline : ascii := "010"%char.
Definition quote : ascii := "034"%char.

(** The two characters that [strip] takes off a host name: the double
    quote and the semicolon. *)
Definition quote_semicolon : string := String quote ";".

(** The two assignments of the loop over the lines of one lease. *)
Definition scan_line (state : option string * option string) (line : string)
    : option string * option string :=
  let line := Text.strip line in
  if Str.contains "hardware ethernet" line then
    (Some (Text.rstrip_chars ";" (Text.last_piece (Text.split_on " " line))),
     state.2)
  else if Str.contains "client-hostname" line then
    (state.1,
     Some (Text.strip_chars quote_semicolon
             (Text.last_piece (Text.split_on " " line))))
  else state.

(** One element of [leases[1:]]; [None] when [ip and mac] is false. *)
Definition parse_lease (lease : string) : option Discovery.lease :=
  let lines := Text.split_on newline lease in
  let ip :=
    match lines with
    | first :: _ =>
        if Str.mem_char " " first
        then Some (default EmptyString (head (Text.split_on " " first)))
        else None
    | [] => None
    end in
  let '(mac, hostname) := foldl scan_line (None, None) lines in
  match ip, mac with
  | Some ip, Some mac =>
      if negb (String.eqb ip "") && negb (String.eqb mac "") then
        Some {| Discovery.l_ip := ip;
                Discovery.l_mac := mac;
                Discovery.l_hostname :=
                  match hostname with
                  | Some h => if String.eqb h "" then None else Some h
                  | None => None
                  end |}
      else None
  | _, _ => None
  end.

(** The leases read from the content of the lease file. *)
Definition parse_leases (content : string) : list Discovery.lease :=
  omap parse_lease (tail (Text.split_str "lease " content)).

(** The text of one lease as the DHCP server writes it, after the word
    [lease]: its lines, each ended by a line feed.  The host-name line
    is there when the client sent a name. *)
Definition lease_lines (l : Discovery.lease) : list string :=
  [Discovery.l_ip l +:+ " {";
   "  hardware ethernet " +:+ Discovery.l_mac l +:+ ";"]
  ++ match Discovery.l_hostname l with
     | Some hostname =>
         ["  client-hostname " +:+ String quote (hostname +:+ String quote ";")]
     | None => []
     end
  ++ ["}"].

Definition unlines (lines : list string) : string :=
  foldr (fun line rest => line +:+ String newline rest) EmptyString lines.

Definition lease_text (l : Discovery.lease) : string :=
  unlines (lease_lines l).

(** A lease file: a header, then the leases, each after the word
    [lease] and a space. *)
Definition lease_file (header : string) (leases : list Discovery.lease)
    : string :=
  header +:+ foldr (fun l rest => "lease " +:+ lease_text l +:+ rest)
                   EmptyString leases.

(** A dotted address: digits and dots only. *)
Definition address_like (s : string) : Prop :=
  Str.forallb (fun c => Str.isdigit c || Ascii.eqb c ".") s = true.

(** A token that holds neither a double quote nor a semicolon. *)
Definition plain (s : string) : Prop :=
  Str.forallb
    (fun c => negb (Text.isspace c) && negb (Str.mem_char c quote_semicolon)) s
  = true.

(** What the server writes for a lease: a dotted address, a hardware
    address and, if any, a host name, none of them empty. *)
Definition well_formed (l : Discovery.lease) : Prop :=
  address_like (Discovery.l_ip l) ∧ Discovery.l_ip l ≠ EmptyString ∧
  plain (Discovery.l_mac l) ∧ Discovery.l_mac l ≠ EmptyString ∧
  match Discovery.l_hostname l with
  | Some hostname => plain hostname ∧ hostname ≠ EmptyString
  | None => True
  end.

End Leases.

(** ** Further reading aids *)

Module Shapes.

(** The shape of a host key, whatever the address looks like: no dot,
    not empty, no leading digit. *)
Definition key_shape (n : string) : Prop :=
  Str.mem_char "." n = false ∧
  match n with
  | EmptyString => False
  | String c _ => Str.isdigit c = false
  end.

(** The hostnames [_safe_hostname] does not use. *)
Definition unusable_hostnames : list json :=
  [JNull; JStr ""; JStr "unknown"; JStr "Unknown"].

(** The top-level keys an assessment can have. *)
Definition assessment_keys : list string :=
  ["assessment_method"; "operating_system"; "hardware"; "software";
   "network"; "assessment_timestamp"].

(** The keys of a dict, in order. *)
Definition dict_keys (d : dict) : list string := d.*1.

(** The hostname the link-layer scan records for an address. *)
Definition hostname_for (w : Discovery.world) (ip_str : string) : string :=
  match Discovery.gethostbyaddr w ip_str with
  | Discovery.Resolved hostname => hostname
  | _ => "Unknown"
  end.

(** What the loop of the link-layer scan records for one address when
    nothing raises. *)
Definition recorded (w : Discovery.world) (n : Discovery.network) (ip : Z)
    : list dict :=
  if (ip =? Discovery.network_address n) || (ip =? Discovery.broadcast_address n)
  then []
  else match Discovery.srp w ip with
       | Ok answers =>
           Discovery.arp_device w (Discovery.str_of_ip ip)
             (hostname_for w (Discovery.str_of_ip ip)) <$> answers
       | Raise _ => []
       end.

End Shapes.

(** ** Inputs of any shape *)

(** The modules [Inventory] and [Assessment] follow the two loops on an
    array of JSON objects, the shape the engines write.  What
    [json.load] makes of a file can be any JSON value, and an array can
    hold any values; the modules below follow [load_discovered_devices],
    [generate_inventory], [_load_inventory], [assess_all_devices] and
    the two [main] functions on all of them.  An element that is an
    object is handled by the definitions above. *)

Module Loaded.

(** A file of the artifact directory: its name, its modification time
    and what [json.load] makes of it ([None]: opening or parsing
    raises). *)
Record document : Type := {
  name : string;
  mtime : Z;
  value : option json
}.

(** [list(dir.glob(prefix + "*" + suffix))] *)
Definition glob (prefix suffix : string) (listing : list document)
    : list document :=
  filter (fun f => Files.matches prefix suffix (name f) = true) listing.

(** [max(files, key=lambda f: f.stat().st_mtime)] on a non-empty list:
    the first file of greatest modification time. *)
Fixpoint latest (first : document) (others : list document) : document :=
  match others with
  | [] => first
  | f :: rest => if mtime first <? mtime f then latest f rest else latest first rest
  end.

(** What [for device in v] visits, whose number is [len(v)]: the
    elements of an array, the keys of an object, the characters of a
    string.  A number, a boolean and [None] have no length and cannot be
    iterated: [TypeError]. *)
Definition elements (v : json) : result (list json) :=
  match v with
  | JArr l => Ok l
  | JObj d => Ok (JStr <$> remove_dups d.*1)
  | JStr s =>
      Ok ((fun c => JStr (String c EmptyString)) <$> String.list_ascii_of_string s)
  | JNull | JBool _ | JNum _ => Raise TypeError
  end.

(** How a run of [main] ends: by [sys.exit] or by reaching its end
    (status 0), or by an exception that nothing catches, which the
    interpreter reports before it exits with status 1. *)
Inductive ending : Type :=
| Exit (status : Z)
| Uncaught (e : exn).

Definition status (e : ending) : Z :=
  match e with
  | Exit s => s
  | Uncaught _ => 1
  end.

(** A file holding an array of objects. *)
Definition of_file (f : Files.file) : document :=
  {| name := Files.name f;
     mtime := Files.mtime f;
     value := (fun devices => JArr (JObj <$> devices)) <$> Files.content f |}.

End Loaded.

(** *** The inventory generator on any input *)

Module Generator.
Import Inventory.

(** The loop of [generate_inventory]: the inventory, what was printed,
    and the exception that ended the loop, if any.  Only an object has
    [get]: for any other element [device.get] raises [AttributeError]
    inside the [try], and again inside the handler, which prints
    [device.get('ip_address')]; the second exception leaves the loop. *)
Fixpoint process_devices (inv : inventory) (devices : list json)
    : inventory * list message * option exn :=
  match devices with
  | [] => (inv, [], None)
  | JObj device :: rest =>
      let '(inv1, log1) := process_device inv device in
      let '(inv2, log2, raised) := process_devices inv1 rest in
      (inv2, log1 ++ log2, raised)
  | _ :: _ => (inv, [], Some AttributeError)
  end.

(** [generate_inventory]: the returned flag or the exception raised, the
    inventory and the log. *)
Definition generate_inventory (discovered_devices : json) (inv : inventory)
    : result bool * inventory * list message :=
  if negb (truthy discovered_devices)
  then (Ok false, inv, [NoDevicesLoaded])
  else
    match Loaded.elements discovered_devices with
    | Raise e => (Raise e, inv, [])
    | Ok devices =>
        let '(inv', log, raised) := process_devices inv devices in
        match raised with
        | Some e => (Raise e, inv', log)
        | None => (Ok true, inv', log)
        end
    end.

Record filesystem : Type := {
  dir_exists : bool;                  (* [self.input_dir.exists()] *)
  listing : list Loaded.document;     (* the files of [self.input_dir] *)
  write_ok : bool                     (* [save_inventory] writes without error *)
}.

(** [load_discovered_devices]: the returned flag,
    [self.discovered_devices] and the log.  The value is assigned before
    its length is printed; a value without length makes [len] raise
    inside the [try]. *)
Definition load_discovered_devices (fs : filesystem)
    : bool * json * list message :=
  if negb (dir_exists fs) then (false, JArr [], [InputDirNotFound])
  else
    match Loaded.glob "hardware_assessment_" ".json" (listing fs) with
    | [] =>
        match Loaded.glob "network_discovery_" ".json" (listing fs) with
        | [] => (false, JArr [], [NoAssessmentFiles; NoDiscoveryFilesEither])
        | f :: others =>
            let latest_file := Loaded.latest f others in
            match Loaded.value latest_file with
            | Some v =>
                match Loaded.elements v with
                | Ok devices =>
                    (Nat.ltb 0 (length devices), v,
                     [NoAssessmentFiles;
                      UsingLatestDiscovery (Loaded.name latest_file);
                      LoadedFromDiscovery (length devices)])
                | Raise _ =>
                    (false, v,
                     [NoAssessmentFiles;
                      UsingLatestDiscovery (Loaded.name latest_file);
                      ErrorLoadingDiscovery])
                end
            | None =>
                (false, JArr [],
                 [NoAssessmentFiles;
                  UsingLatestDiscovery (Loaded.name latest_file);
                  ErrorLoadingDiscovery])
            end
        end
    | f :: others =>
        let latest_file := Loaded.latest f others in
        match Loaded.value latest_file with
        | Some v =>
            match Loaded.elements v with
            | Ok devices =>
                (Nat.ltb 0 (length devices), v,
                 [UsingLatestAssessment (Loaded.name latest_file);
                  LoadedFromAssessment (length devices)])
            | Raise _ =>
                (false, v,
                 [UsingLatestAssessment (Loaded.name latest_file);
                  ErrorLoadingAssessment])
            end
        | None =>
            (false, JArr [],
             [UsingLatestAssessment (Loaded.name latest_file);
              ErrorLoadingAssessment])
        end
    end.

(** [main]: how the process ends, the log and the inventory written, if
    any. *)
Definition main (fs : filesystem)
    : Loaded.ending * list message * option inventory :=
  let '(loaded, devices, log1) := load_discovered_devices fs in
  if negb loaded then (Loaded.Exit 1, log1 ++ [FailedToLoad], None)
  else
    let '(generated, inv, log2) :=
      generate_inventory devices _create_base_inventory in
    match generated with
    | Raise e => (Loaded.Uncaught e, log1 ++ log2, None)
    | Ok false => (Loaded.Exit 1, log1 ++ log2 ++ [FailedToGenerate], None)
    | Ok true =>
        if write_ok fs
        then (Loaded.Exit 0,
              log1 ++ log2 ++ [InventorySaved; CompletedSuccessfully],
              Some inv)
        else (Loaded.Exit 1,
              log1 ++ log2 ++ [ErrorSavingInventory; FailedToSave], None)
    end.

(** A directory whose files hold arrays of objects. *)
Definition of_typed (fs : Inventory.filesystem) : filesystem :=
  {| dir_exists := Inventory.dir_exists fs;
     listing := Loaded.of_file <$> Inventory.listing fs;
     write_ok := Inventory.write_ok fs |}.

End Generator.

(** *** The assessment engine on any input *)

Module Assessor.
Import Assessment.

(** The loop of [assess_all_devices]: [self.assessed_devices], what was
    printed, and the exception that ended the loop, if any.  For an
    element that is not an object [device.get] raises [AttributeError]
    inside the [try], and again inside the handler, which prints
    [device.get('ip_address')]; the second exception leaves the loop. *)
Fixpoint assess_all_devices (w : world) (devices : list json)
    : list dict * list message * option exn :=
  match devices with
  | [] => ([], [], None)
  | JObj device :: rest =>
      let '(new, log1) := assess_one w device in
      let '(assessed, log2, raised) := assess_all_devices w rest in
      (new ++ assessed, log1 ++ log2, raised)
  | _ :: _ => ([], [], Some AttributeError)
  end.

Record filesystem : Type := {
  listing : list Loaded.document;              (* the files of [output_dir] *)
  lookup : string -> option Loaded.document;   (* a file given by its path *)
  write_ok : bool                              (* [save_results] writes without error *)
}.

Definition _find_inventory_file (fs : filesystem) (inventory_file : option string)
    : option (string * option Loaded.document) * list message :=
  match inventory_file with
  | Some path =>
      if negb (String.eqb path "") then (Some (path, lookup fs path), [])
      else
        match Loaded.glob "network_discovery_" ".json" (listing fs) with
        | [] => (None, [])
        | f :: others =>
            let latest_file := Loaded.latest f others in
            (Some (Loaded.name latest_file, Some latest_file),
             [UsingLatestInventory (Loaded.name latest_file)])
        end
  | None =>
      match Loaded.glob "network_discovery_" ".json" (listing fs) with
      | [] => (None, [])
      | f :: others =>
          let latest_file := Loaded.latest f others in
          (Some (Loaded.name latest_file, Some latest_file),
           [UsingLatestInventory (Loaded.name latest_file)])
      end
  end.

(** [_load_inventory]: [self.devices] and the log.  A value without
    length makes [len] raise inside the [try], and the handler returns
    the empty list. *)
Definition _load_inventory (found : option (string * option Loaded.document))
    : json * list message :=
  match found with
  | None => (JArr [], [InventoryFileNotFound None])
  | Some (path, None) => (JArr [], [InventoryFileNotFound (Some path)])
  | Some (path, Some f) =>
      match Loaded.value f with
      | Some v =>
          match Loaded.elements v with
          | Ok devices => (v, [LoadedDevices (length devices)])
          | Raise _ => (JArr [], [ErrorLoadingInventory])
          end
      | None => (JArr [], [ErrorLoadingInventory])
      end
  end.

(** [main]: how the process ends, the log and the artifact written, if
    any.  Nothing catches what [assess_all_devices] or [save_results]
    raises. *)
Definition main (w : world) (fs : filesystem) (inventory_file : option string)
    : Loaded.ending * list message * option (list dict) :=
  let '(found, log1) := _find_inventory_file fs inventory_file in
  let '(devices, log2) := _load_inventory found in
  match Loaded.elements devices with
  | Raise e => (Loaded.Uncaught e, log1 ++ log2, None)
  | Ok devices =>
      let '(assessed_devices, log3, raised) := assess_all_devices w devices in
      match raised with
      | Some e => (Loaded.Uncaught e, log1 ++ log2 ++ log3, None)
      | None =>
          match assessed_devices with
          | _ :: _ =>
              if write_ok fs
              then (Loaded.Exit 0, log1 ++ log2 ++ log3 ++ [ResultsSaved],
                    Some assessed_devices)
              else (Loaded.Uncaught OSError, log1 ++ log2 ++ log3, None)
          | [] =>
              (Loaded.Exit 0, log1 ++ log2 ++ log3 ++ [NoDevicesAssessed],
               None)
          end
      end
  end.

(** A directory whose files hold arrays of objects, and what
    [_find_inventory_file] finds there. *)
Definition as_document (found : string * option Files.file)
    : string * option Loaded.document :=
  (found.1, Loaded.of_file <$> found.2).

Definition of_typed (fs : Assessment.filesystem) : filesystem :=
  {| listing := Loaded.of_file <$> Assessment.listing fs;
     lookup := fun path => Loaded.of_file <$> Assessment.lookup fs path;
     write_ok := Assessment.write_ok fs |}.

End Assessor.

(** ** Further sample inputs *)

Module Cases.

Definition discovery_old : Files.file :=
  {| Files.name := "network_discovery_20240101_090000.json";
     Files.mtime := 1704099600;
     Files.content := Some [Samples.router] |}.

Definition discovery_new : Files.file :=
  {| Files.name := "network_discovery_20240102_090000.json";
     Files.mtime := 1704186000;
     Files.content := Some [Samples.router; Samples.db01] |}.

Definition assessment_empty : Files.file :=
  {| Files.name := "hardware_assessment_20240102_100000.json";
     Files.mtime := 1704189600;
     Files.content := Some [] |}.

Definition notes : Files.file :=
  {| Files.name := "notes.txt"; Files.mtime := 1704200000;
     Files.content := None |}.

(** An assessment directory with two discovery artifacts. *)
Definition two_discoveries : Assessment.filesystem :=
  {| Assessment.listing := [discovery_old; notes; discovery_new];
     Assessment.lookup := fun _ => None;
     Assessment.write_ok := true |}.

(** An input directory with two discovery artifacts. *)
Definition discoveries_only : Inventory.filesystem :=
  {| Inventory.dir_exists := true;
     Inventory.listing := [discovery_old; notes; discovery_new];
     Inventory.write_ok := true |}.

(** An input directory with a good discovery artifact and a newer, empty
    assessment artifact. *)
Definition empty_assessment : Inventory.filesystem :=
  {| Inventory.dir_exists := true;
     Inventory.listing := [discovery_new; assessment_empty];
     Inventory.write_ok := true |}.

(** An input directory whose only artifact lists records that cannot be
    placed: one without address, one with a null hostname. *)
Definition unplaceable : Files.file :=
  {| Files.name := "network_discovery_20240103_090000.json";
     Files.mtime := 1704272400;
     Files.content := Some [[("hostname", JStr "ghost")]; Samples.nameless] |}.

Definition only_unplaceable : Inventory.filesystem :=
  {| Inventory.dir_exists := true;
     Inventory.listing := [unplaceable];
     Inventory.write_ok := true |}.

(** A second Linux host whose name normalises to [web01]. *)
Definition web01_corp : dict :=
  [("ip_address", JStr "10.0.0.9");
   ("hostname", JStr "web01.corp");
   ("open_ports", JArr [JObj [("port", JNum 22)]; JObj [("port", JNum 443)]])].

(** A host that accepts shell sessions and answers the management
    protocol as well, seen from a machine that has both clients. *)
Definition management_facts : Assessment.wmi_facts :=
  {| Assessment.wmi_os_details :=
       [("name", JStr "Microsoft Windows Server 2022");
        ("version", JStr "10.0.20348"); ("type", JStr "windows")];
     Assessment.wmi_cpu_details := [("cores", JNum 8)];
     Assessment.wmi_memory_details := [("total_mb", JNum 16384)];
     Assessment.wmi_disks := [];
     Assessment.wmi_virt_support := true;
     Assessment.wmi_docker_installed := false |}.

Definition both_protocols_world : Assessment.world :=
  {| Assessment.PARAMIKO_AVAILABLE := true;
     Assessment.WMI_AVAILABLE := true;
     Assessment.connect_ex := fun _ _ => Ok 0;
     Assessment.ssh_session := fun _ => Assessment.SshFacts Samples.shell_facts;
     Assessment.wmi_session := fun _ => Some management_facts;
     Assessment.ping_returncode := fun _ => Ok 0;
     Assessment.now := "2024-01-01T00:00:00" |}.

(** The segment of [Samples.failing_probe_world] with the roles of the
    two hosts exchanged: 10.0.0.1 answers, the request for 10.0.0.2
    cannot be sent. *)
Definition late_failure_world : Discovery.world :=
  {| Discovery.NMAP_AVAILABLE := false;
     Discovery.SCAPY_AVAILABLE := true;
     Discovery.nmap_hosts := [];
     Discovery.nmap_error := None;
     Discovery.srp := fun a =>
       if a =? Samples.host1 then Ok ["aa:bb:cc:dd:ee:01"]
       else if a =? Samples.host2 then Raise OSError
       else Ok [];
     Discovery.gethostbyaddr := fun _ => Discovery.HostError;
     Discovery.dhcp_leases := Ok [];
     Discovery.now := "2024-01-01T00:00:00" |}.

(** Scanner data for a host with two open TCP ports and a closed one,
    and the same data with the state of the last port missing. *)
Definition scanned : Nmap.host_data :=
  {| Nmap.protocols :=
       [("tcp",
         [(22, [("state", JStr "open"); ("name", JStr "ssh");
                ("product", JStr "OpenSSH")]);
          (80, [("state", JStr "closed"); ("name", JStr "http")]);
          (443, [("state", JStr "open"); ("name", JStr "https")])])];
     Nmap.osmatch := None |}.

Definition scanned_badly : Nmap.host_data :=
  {| Nmap.protocols :=
       [("tcp",
         [(22, [("state", JStr "open"); ("name", JStr "ssh");
                ("product", JStr "OpenSSH")]);
          (80, [("state", JStr "closed"); ("name", JStr "http")]);
          (443, [("name", JStr "https")])])];
     Nmap.osmatch := None |}.

(** A lease with a host name and one without, the header of a lease
    file, and the text of a lease that was given back: it has no
    hardware line. *)
Definition lease_alpha : Discovery.lease :=
  {| Discovery.l_ip := "10.0.0.5";
     Discovery.l_mac := "aa:bb:cc:dd:ee:ff";
     Discovery.l_hostname := Some "alpha" |}.

Definition lease_nameless : Discovery.lease :=
  {| Discovery.l_ip := "10.0.0.6";
     Discovery.l_mac := "11:22:33:44:55:66";
     Discovery.l_hostname := None |}.

Definition lease_header : string :=
  Leases.unlines ["authoring-byte-order little-endian;"; EmptyString].

Definition released_lease_text : string :=
  Leases.unlines ["10.0.0.7 {"; "  binding state free;"; "}"].

(** An inventory whose first element is a bare address, not an object,
    and the same inventory without that element. *)
Definition stray_inventory : Loaded.document :=
  {| Loaded.name := "network_discovery_20240104_090000.json";
     Loaded.mtime := 1704358800;
     Loaded.value := Some (JArr [JStr "10.0.0.9"; JObj Samples.db01]) |}.




Definition stray_input_dir : Generator.filesystem :=
  {| Generator.dir_exists := true;
     Generator.listing := [stray_inventory];
     Generator.write_ok := true |}.

(** A segment on which the port scan reports the broadcast address of
    10.0.0.0/29 and nothing answers the link-layer requests. *)
Definition broadcast_seen_world : Discovery.world :=
  {| Discovery.NMAP_AVAILABLE := true;
     Discovery.SCAPY_AVAILABLE := true;
     Discovery.nmap_hosts :=
       [{| Discovery.nm_host := "10.0.0.7";
           Discovery.nm_hostname := "";
           Discovery.nm_mac := None;
           Discovery.nm_os := [("name", JStr "Unknown"); ("accuracy", JStr "0");
                               ("matches", JArr [])];
           Discovery.nm_open_ports := [] |}];
     Discovery.nmap_error := None;
     Discovery.srp := fun _ => Ok [];
     Discovery.gethostbyaddr := fun _ => Discovery.HostError;
     Discovery.dhcp_leases := Ok [];
     Discovery.now := "2024-01-01T00:00:00" |}.
End Cases.

(** * Properties *)

(** ** Hostname normalisation *)

Module SafeHostname.
Import Inventory.

Lemma sanitize_char_allowed c : allowed_char (sanitize_char c) = true.
Proof. unfold sanitize_char. destruct (allowed_char c) eqn:E; [exact E | reflexivity]. Qed.

Lemma map_sanitize_allowed s :
  Str.forallb allowed_char (Str.map sanitize_char s) = true.
Proof.
  induction s as [|c s IH]; simpl; [reflexivity|].
  rewrite sanitize_char_allowed. exact IH.
Qed.

Lemma map_sanitize_fixed s :
  Str.forallb allowed_char s = true → Str.map sanitize_char s = s.
Proof.
  induction s as [|c s IH]; simpl; [reflexivity|].
  intros [Hc Hs]%andb_prop. unfold sanitize_char at 1. rewrite Hc.
  f_equal. exact (IH Hs).
Qed.

Lemma first_field_fixed s :
  Str.forallb allowed_char s = true → Str.first_field "." s = s.
Proof.
  induction s as [|c s IH]; simpl; [reflexivity|].
  intros [Hc Hs]%andb_prop.
  destruct (Ascii.eqb c ".") eqn:E.
  - apply Ascii.eqb_eq in E. subst c. discriminate Hc.
  - f_equal. exact (IH Hs).
Qed.

Lemma forallb_app p s t :
  Str.forallb p (s +:+ t) = Str.forallb p s && Str.forallb p t.
Proof.
  induction s as [|c s IH]; simpl; [reflexivity|].
  rewrite IH. apply andb_assoc.
Qed.

Lemma replace_dot_allowed a :
  Str.forallb ip_char a = true →
  Str.forallb allowed_char (Str.replace_char "." "_" a) = true.
Proof.
  unfold Str.replace_char.
  induction a as [|c a IH]; simpl; [reflexivity|].
  intros [Hc Ha]%andb_prop. rewrite (IH Ha), andb_true_r.
  unfold ip_char in Hc. destruct (Ascii.eqb c "."); [reflexivity|].
  rewrite orb_false_r in Hc. exact Hc.
Qed.

(** A normal name other than the sentinel is returned as it is. *)
Lemma safe_hostname_normal n ip :
  normal_name n → Str.lower n ≠ "unknown" →
  _safe_hostname (JStr n) ip = Ok n.
Proof.
  intros [Hall Hhd] Hlow. unfold _safe_hostname.
  destruct n as [|c n]; [destruct Hhd|].
  apply String.eqb_neq in Hlow. rewrite Hlow.
  cbn [truthy negb andb String.eqb].
  rewrite first_field_fixed, map_sanitize_fixed by exact Hall.
  rewrite Hhd. reflexivity.
Qed.

(** What the first branch of [_safe_hostname] returns is a normal name. *)
Lemma prefixed_name_normal s :
  let safe_name := Str.map sanitize_char s in
  let safe_name' :=
    match safe_name with
    | String c _ => if Str.isdigit c then "host_" +:+ safe_name else safe_name
    | EmptyString => safe_name
    end in
  safe_name' ≠ "" → normal_name safe_name'.
Proof.
  intros safe_name safe_name' Hne. subst safe_name'.
  pose proof (map_sanitize_allowed s) as Hall. fold safe_name in Hall.
  destruct safe_name as [|c r]; [congruence|].
  destruct (Str.isdigit c) eqn:Hd.
  - split; [|reflexivity].
    rewrite forallb_app, Hall. reflexivity.
  - split; [exact Hall | exact Hd].
Qed.

Lemma ip_key_normal ip n :
  (∀ a, ip = JStr a → Str.forallb ip_char a = true) →
  ip_key ip = Ok n → normal_name n.
Proof.
  intros Hip. destruct ip as [| | |a| |]; simpl; try discriminate.
  intros [= <-]. split; [|reflexivity].
  rewrite forallb_app, (replace_dot_allowed a) by (apply Hip; reflexivity).
  reflexivity.
Qed.

Lemma safe_hostname_returns_normal hostname ip n :
  (∀ a, ip = JStr a → Str.forallb ip_char a = true) →
  _safe_hostname hostname ip = Ok n → normal_name n.
Proof.
  intros Hip. unfold _safe_hostname.
  destruct hostname as [|b|z|s|l|d];
    try (destruct (truthy _); [discriminate | apply ip_key_normal; exact Hip]).
  destruct (truthy (JStr s) && _); [|apply ip_key_normal; exact Hip].
  match goal with
  | |- (if negb (String.eqb ?x "") then _ else _) = _ → _ =>
      destruct (String.eqb x "") eqn:E
  end; cbn [negb].
  - apply ip_key_normal; exact Hip.
  - intros [= <-]. apply prefixed_name_normal. apply String.eqb_neq. exact E.
Qed.

Lemma leading_digit_prefixed c s ip :
  Str.isdigit c = true →
  _safe_hostname (JStr (String c s)) ip =
    Ok ("host_" +:+ Str.map sanitize_char (Str.first_field "." (String c s))).
Proof.
  intros Hd. unfold _safe_hostname.
  assert (Hdot : Ascii.eqb c "." = false).
  { destruct (Ascii.eqb c ".") eqn:E; [|reflexivity].
    apply Ascii.eqb_eq in E. subst c. discriminate Hd. }
  assert (Hlow : String.eqb (Str.lower (String c s)) "unknown" = false).
  { apply String.eqb_neq. intros [= Hc _]. unfold Str.lower_char in Hc.
    destruct (Str.in_range 65 90 c) eqn:Hup.
    - unfold Str.isdigit, Str.in_range in *.
      apply andb_prop in Hd as [_ Hd]. apply andb_prop in Hup as [Hup _].
      apply Nat.leb_le in Hd, Hup. lia.
    - subst c. discriminate Hd. }
  rewrite Hlow. cbn [truthy negb andb String.eqb Str.first_field Str.map].
  rewrite Hdot. cbn [Str.map].
  assert (Hs : sanitize_char c = c).
  { unfold sanitize_char, allowed_char, Str.isalnum. rewrite Hd. reflexivity. }
  rewrite Hs, Hd. reflexivity.
Qed.

(** C6, counterexample: normalising twice is not normalising once.  The
    sentinel test precedes the removal of the domain, so
    ["unknown.example.com"] normalises to ["unknown"], which is then read
    as the sentinel and replaced by the IP-derived key.  And the
    IP-derived key keeps every character of the address but the dots, so
    the key of an IPv6 address has colons, which a second pass replaces. *)
Lemma safe_hostname_not_idempotent :
  _safe_hostname (JStr "unknown.example.com") (JStr "10.0.0.5") = Ok "unknown" ∧
  _safe_hostname (JStr "unknown") (JStr "10.0.0.5") = Ok "host_10_0_0_5" ∧
  _safe_hostname (JStr "Unknown") (JStr "fe80::1") = Ok "host_fe80::1" ∧
  _safe_hostname (JStr "host_fe80::1") (JStr "fe80::1") = Ok "host_fe80__1" ∧
  ¬ (∀ hostname ip n,
       _safe_hostname hostname ip = Ok n → _safe_hostname (JStr n) ip = Ok n).
Proof.
  do 4 (split; [reflexivity|]).
  intros H.
  specialize (H (JStr "unknown.example.com") (JStr "10.0.0.5") "unknown" eq_refl).
  vm_compute in H. discriminate H.
Qed.

(** C6, as amended: when the address consists of allowed characters and
    dots, a name returned by the normalisation that is not the sentinel
    ["unknown"] (in any letter case) is returned unchanged when normalised
    again; a hostname starting with a digit normalises to ["host_"]
    followed by its sanitised first label; and ["3dprinter"] normalises to
    ["host_3dprinter"]. *)
Theorem safe_hostname_idempotent_off_sentinel :
  (∀ hostname ip n,
     (∀ a, ip = JStr a → Str.forallb ip_char a = true) →
     _safe_hostname hostname ip = Ok n →
     Str.lower n ≠ "unknown" →
     _safe_hostname (JStr n) ip = Ok n) ∧
  (∀ c s ip,
     Str.isdigit c = true →
     _safe_hostname (JStr (String c s)) ip =
       Ok ("host_" +:+ Str.map sanitize_char (Str.first_field "." (String c s)))) ∧
  (∀ ip, _safe_hostname (JStr "3dprinter") ip = Ok "host_3dprinter").
Proof.
  split; [|split].
  - intros hostname ip n Hip Hn Hlow.
    apply safe_hostname_normal; [|exact Hlow].
    exact (safe_hostname_returns_normal hostname ip n Hip Hn).
  - exact leading_digit_prefixed.
  - intros ip. reflexivity.
Qed.

Lemma safe_hostname_idempotent_witness :
  _safe_hostname (JStr "host_3dprinter") (JStr "10.0.0.5") = Ok "host_3dprinter" ∧
  _safe_hostname (JStr "host_10_0_0_5") (JStr "10.0.0.5") = Ok "host_10_0_0_5".
Proof.
  split.
  - apply (proj1 safe_hostname_idempotent_off_sentinel
             (JStr "3dprinter") (JStr "10.0.0.5") "host_3dprinter").
    + intros a [= <-]. reflexivity.
    + reflexivity.
    + intros [=].
  - apply (proj1 safe_hostname_idempotent_off_sentinel
             (JStr "Unknown") (JStr "10.0.0.5") "host_10_0_0_5").
    + intros a [= <-]. reflexivity.
    + reflexivity.
    + intros [=].
Defined.

End SafeHostname.

(** ** The inventory tree *)

Module Tree.
Import Inventory.

Lemma add_host_place inv k ip os role device :
  _add_host_to_inventory inv k ip os role device =
    (let* hv := build_host_vars ip os device in
     Ok (place inv {| p_key := k; p_os := os; p_role := role; p_vars := hv |})).
Proof.
  unfold _add_host_to_inventory, place.
  destruct (build_host_vars ip os device) as [hv|e]; [|reflexivity].
  cbn [rbind p_key p_os p_role p_vars].
  destruct role; reflexivity.
Qed.

(** One turn of the loop places the device's [placement], if it has one. *)
Lemma process_device_placement inv device :
  (process_device inv device).1 =
    match placement device with
    | Some p => place inv p
    | None => inv
    end.
Proof.
  unfold process_device, placement.
  destruct (negb (truthy _)); [reflexivity|].
  destruct (_safe_hostname _ _) as [k|e]; [|reflexivity].
  destruct (_determine_os_type device) as [os|e]; [|reflexivity].
  destruct (_determine_device_role device) as [role|e]; [|reflexivity].
  cbn [rbind]. rewrite add_host_place.
  destruct (build_host_vars _ os device) as [hv|e]; reflexivity.
Qed.

Lemma process_devices_cons inv device rest :
  (process_devices inv (device :: rest)).1 =
    (process_devices (process_device inv device).1 rest).1.
Proof.
  cbn [process_devices].
  destruct (process_device inv device) as [inv1 log1]. cbn [fst].
  destruct (process_devices inv1 rest) as [inv2 log2]. reflexivity.
Qed.

Lemma process_devices_app inv l1 l2 :
  (process_devices inv (l1 ++ l2)).1 =
    (process_devices (process_devices inv l1).1 l2).1.
Proof.
  revert inv. induction l1 as [|d l1 IH]; intros inv; [reflexivity|].
  rewrite <- app_comm_cons, !process_devices_cons. apply IH.
Qed.

(** The loop is a left fold of [place] over the placements. *)
Lemma process_devices_fold inv devices :
  (process_devices inv devices).1 = foldl place inv (omap placement devices).
Proof.
  revert inv. induction devices as [|d l IH]; intros inv; [reflexivity|].
  rewrite process_devices_cons, IH, process_device_placement.
  cbn [omap list_omap]. destruct (placement d); reflexivity.
Qed.

(** *** Lookups after one placement *)

Lemma place_os inv p os k :
  os_hosts (place inv p) os !! k =
    if decide (os = p_os p ∧ k = p_key p) then Some (p_vars p)
    else os_hosts inv os !! k.
Proof.
  cbn [place os_hosts]. unfold insert at 1, fn_insert.
  destruct (decide (p_os p = os)) as [<-|Hos].
  - destruct (decide (k = p_key p)) as [->|Hk].
    + rewrite lookup_insert_eq, decide_True by done. reflexivity.
    + rewrite lookup_insert_ne, decide_False by (intros ?; intuition congruence). reflexivity.
  - rewrite decide_False by (intros ?; intuition congruence). reflexivity.
Qed.

Lemma place_tier inv p t r k :
  tier_hosts (place inv p) t r !! k =
    if decide (tier_group (p_role p) = Some t ∧ r = p_role p ∧ k = p_key p)
    then Some ∅
    else tier_hosts inv t r !! k.
Proof.
  cbn [place tier_hosts].
  destruct (tier_group (p_role p)) as [t'|] eqn:Ht.
  - unfold insert at 1, fn_insert.
    destruct (decide (t' = t)) as [<-|Hne].
    + unfold insert at 1, fn_insert.
      destruct (decide (p_role p = r)) as [<-|Hr].
      * destruct (decide (k = p_key p)) as [->|Hk].
        -- rewrite lookup_insert_eq, decide_True by done. reflexivity.
        -- rewrite lookup_insert_ne, decide_False by (intros ?; intuition congruence). reflexivity.
      * rewrite decide_False by (intros ?; intuition congruence). reflexivity.
    + rewrite decide_False by (intros ?; intuition congruence). reflexivity.
  - rewrite decide_False by (intros ?; intuition congruence). reflexivity.
Qed.

Lemma place_ungrouped inv p k :
  ungrouped_hosts (place inv p) !! k =
    if decide (p_role p = ungrouped ∧ k = p_key p) then Some (p_vars p)
    else ungrouped_hosts inv !! k.
Proof.
  cbn [place ungrouped_hosts].
  destruct (decide (p_role p = ungrouped)) as [Hr|Hr].
  - destruct (decide (k = p_key p)) as [->|Hk].
    + rewrite lookup_insert_eq, decide_True by done. reflexivity.
    + rewrite lookup_insert_ne, decide_False by (intros ?; intuition congruence). reflexivity.
  - rewrite decide_False by (intros ?; intuition congruence). reflexivity.
Qed.

(** *** Where the entries of the finished tree come from *)

Section Fold.
Implicit Types (P : list placed) (inv : inventory).

Lemma fold_os_origin P : ∀ inv os k hv,
  os_hosts (foldl place inv P) os !! k = Some hv →
  os_hosts inv os !! k = Some hv ∨
  ∃ p, p ∈ P ∧ p_os p = os ∧ p_key p = k ∧ p_vars p = hv.
Proof.
  induction P as [|q P IH]; intros inv os k hv; cbn [foldl]; [by left|].
  intros [H|(p & Hp & ?)]%IH; [|right; exists p; split; [by right|done]].
  rewrite place_os in H. case_decide as Hd; [|by left].
  destruct Hd as [-> ->]. injection H as <-.
  right. exists q. split; [by left|done].
Qed.

Lemma fold_tier_origin P : ∀ inv t r k hv,
  tier_hosts (foldl place inv P) t r !! k = Some hv →
  tier_hosts inv t r !! k = Some hv ∨
  hv = ∅ ∧ ∃ p, p ∈ P ∧ tier_group (p_role p) = Some t ∧ p_role p = r ∧ p_key p = k.
Proof.
  induction P as [|q P IH]; intros inv t r k hv; cbn [foldl]; [by left|].
  intros [H|(-> & p & Hp & ?)]%IH;
    [|right; split; [done|]; exists p; split; [by right|done]].
  rewrite place_tier in H. case_decide as Hd; [|by left].
  destruct Hd as (Ht & -> & ->). injection H as <-.
  right. split; [done|]. exists q. split; [by left|done].
Qed.

Lemma fold_ungrouped_origin P : ∀ inv k hv,
  ungrouped_hosts (foldl place inv P) !! k = Some hv →
  ungrouped_hosts inv !! k = Some hv ∨
  ∃ p, p ∈ P ∧ p_role p = ungrouped ∧ p_key p = k ∧ p_vars p = hv.
Proof.
  induction P as [|q P IH]; intros inv k hv; cbn [foldl]; [by left|].
  intros [H|(p & Hp & ?)]%IH; [|right; exists p; split; [by right|done]].
  rewrite place_ungrouped in H. case_decide as Hd; [|by left].
  destruct Hd as [Hr ->]. injection H as <-.
  right. exists q. split; [by left|done].
Qed.

(** Entries are never removed. *)
Lemma fold_os_kept P : ∀ inv os k,
  is_Some (os_hosts inv os !! k) →
  is_Some (os_hosts (foldl place inv P) os !! k).
Proof.
  induction P as [|q P IH]; intros inv os k H; cbn [foldl]; [done|].
  apply IH. rewrite place_os. case_decide; [by eexists|done].
Qed.

Lemma fold_tier_kept P : ∀ inv t r k,
  is_Some (tier_hosts inv t r !! k) →
  is_Some (tier_hosts (foldl place inv P) t r !! k).
Proof.
  induction P as [|q P IH]; intros inv t r k H; cbn [foldl]; [done|].
  apply IH. rewrite place_tier. case_decide; [by eexists|done].
Qed.

Lemma fold_ungrouped_kept P : ∀ inv k,
  is_Some (ungrouped_hosts inv !! k) →
  is_Some (ungrouped_hosts (foldl place inv P) !! k).
Proof.
  induction P as [|q P IH]; intros inv k H; cbn [foldl]; [done|].
  apply IH. rewrite place_ungrouped. case_decide; [by eexists|done].
Qed.

(** Every placement is in the tree, in its family group and in the group
    of its role. *)
Lemma fold_placed P : ∀ inv p, p ∈ P →
  let inv' := foldl place inv P in
  is_Some (os_hosts inv' (p_os p) !! p_key p) ∧
  (∀ t, tier_group (p_role p) = Some t →
        is_Some (tier_hosts inv' t (p_role p) !! p_key p)) ∧
  (p_role p = ungrouped → is_Some (ungrouped_hosts inv' !! p_key p)).
Proof.
  induction P as [|q P IH]; intros inv p Hp; [by apply elem_of_nil in Hp|].
  apply elem_of_cons in Hp as [->|Hp]; [|by apply IH].
  cbn [foldl]. split; [|split].
  - apply fold_os_kept. rewrite place_os, decide_True by done. by eexists.
  - intros t Ht. apply fold_tier_kept.
    rewrite place_tier, decide_True by done. by eexists.
  - intros Hr. apply fold_ungrouped_kept.
    rewrite place_ungrouped, decide_True by done. by eexists.
Qed.

End Fold.

Lemma NoDup_keys_eq (P : list placed) p q :
  NoDup (p_key <$> P) → p ∈ P → q ∈ P → p_key p = p_key q → p = q.
Proof.
  induction P as [|x P IH]; [by intros _ ?%elem_of_nil|].
  csimpl. intros [Hx HP]%list.NoDup_cons.
  intros [->|Hp]%elem_of_cons [->|Hq]%elem_of_cons Hk; [done| | |by apply IH].
  - destruct Hx. rewrite Hk. by apply list_elem_of_fmap_2.
  - destruct Hx. rewrite <- Hk. by apply list_elem_of_fmap_2.
Qed.

Lemma base_inventory_empty :
  (∀ os k, os_hosts _create_base_inventory os !! k = None) ∧
  (∀ t r k, tier_hosts _create_base_inventory t r !! k = None) ∧
  (∀ k, ungrouped_hosts _create_base_inventory !! k = None).
Proof. repeat split; intros; apply lookup_empty. Qed.

(** The variables [build_host_vars] sets for the connection. *)
Lemma build_host_vars_connection ip os device hv :
  build_host_vars ip os device = Ok hv →
  hv !! "ansible_host" = Some ip ∧
  hv !! "ansible_connection" = connection_of os ∧
  hv !! "ansible_winrm_server_cert_validation" =
    (if decide (os = windows) then Some (JStr "ignore") else None).
Proof.
  unfold build_host_vars.
  set (hv0 := match os with
              | windows => _ | linux | macos => _ | _ => _ end).
  assert (H0 : hv0 !! "ansible_host" = Some ip ∧
               hv0 !! "ansible_connection" = connection_of os ∧
               hv0 !! "ansible_winrm_server_cert_validation" =
                 (if decide (os = windows) then Some (JStr "ignore") else None)).
  { subst hv0. destruct os; done. }
  clearbody hv0. destruct H0 as (Ha & Hc & Hw).
  intros H.
  repeat (case_match; simplify_eq/=; try done);
    rewrite ?lookup_insert_ne by done; done.
Qed.

Lemma placement_connection device p :
  placement device = Some p →
  p_vars p !! "ansible_connection" = connection_of (p_os p) ∧
  p_vars p !! "ansible_winrm_server_cert_validation" =
    (if decide (p_os p = windows) then Some (JStr "ignore") else None).
Proof.
  unfold placement. destruct (negb (truthy _)); [done|].
  destruct (_safe_hostname _ _) as [k|e]; [|done].
  destruct (_determine_os_type device) as [os|e]; [|done].
  destruct (_determine_device_role device) as [role|e]; [|done].
  cbn [rbind].
  destruct (build_host_vars _ os device) as [hv|e] eqn:Hb; [|done].
  intros [= <-]. cbn [p_vars p_os].
  by apply build_host_vars_connection in Hb as (_ & ? & ?).
Qed.

Lemma generate_inventory_tree devices inv :
  (generate_inventory devices inv).1.2 = (process_devices inv devices).1.
Proof.
  unfold generate_inventory. destruct devices as [|d l]; [reflexivity|].
  destruct (process_devices inv (d :: l)). reflexivity.
Qed.

Lemma generate_inventory_fold devices :
  (generate_inventory devices _create_base_inventory).1.2 =
    foldl place _create_base_inventory (omap placement devices).
Proof. rewrite generate_inventory_tree. apply process_devices_fold. Qed.

Lemma placement_elem_of (devices : list dict) device p :
  device ∈ devices → placement device = Some p → p ∈ omap placement devices.
Proof. intros Hd Hp. apply list_elem_of_omap. by exists device. Qed.

(** *** Placement invariant *)

(** C2, counterexample: two different devices named [web01] (in different
    domains, at different addresses) get the same host key; that key then
    sits in two OS-family groups, and in [ungrouped] as well as in a role
    group. *)
Lemma host_keys_collide :
  let inv := (generate_inventory [Samples.web01_lan; Samples.web01_dmz]
                _create_base_inventory).1.2 in
  Samples.web01_lan ≠ Samples.web01_dmz ∧
  p_key <$> placement Samples.web01_lan = Some "web01" ∧
  p_key <$> placement Samples.web01_dmz = Some "web01" ∧
  is_Some (os_hosts inv linux !! "web01") ∧
  is_Some (os_hosts inv windows !! "web01") ∧
  is_Some (ungrouped_hosts inv !! "web01") ∧
  is_Some (tier_hosts inv tier3_applications cloud !! "web01").
Proof.
  cbv zeta. split; [discriminate|].
  split; [reflexivity|]. split; [reflexivity|].
  repeat split; vm_compute; eauto.
Qed.

(** C2, as amended: host keys are not disambiguated, so the statement is
    for a run whose placed devices have pairwise different host keys.
    Then every key in the tree is the key of a placed device, and a
    placed device's key is in exactly the OS-family group of its family,
    in exactly the tier/role group of its role when the role is not
    [ungrouped], and in [ungrouped] exactly when the role is
    [ungrouped] (then in no tier/role group). *)
Theorem distinct_keys_one_group (devices : list dict) :
  let inv := (generate_inventory devices _create_base_inventory).1.2 in
  NoDup (p_key <$> omap placement devices) →
  (∀ k, (∃ os, is_Some (os_hosts inv os !! k)) ∨
        (∃ t r, is_Some (tier_hosts inv t r !! k)) ∨
        is_Some (ungrouped_hosts inv !! k) →
        ∃ device p, device ∈ devices ∧ placement device = Some p ∧ p_key p = k) ∧
  (∀ device p, device ∈ devices → placement device = Some p →
     (∀ os, is_Some (os_hosts inv os !! p_key p) ↔ os = p_os p) ∧
     (∀ t r, is_Some (tier_hosts inv t r !! p_key p) ↔
             r = p_role p ∧ tier_group (p_role p) = Some t) ∧
     (is_Some (ungrouped_hosts inv !! p_key p) ↔ p_role p = ungrouped) ∧
     (p_role p = ungrouped → ∀ t r, tier_hosts inv t r !! p_key p = None)).
Proof.
  intros inv Hnd. subst inv. rewrite generate_inventory_fold.
  set (P := omap placement devices) in *.
  destruct base_inventory_empty as (Bos & Bt & Bu).
  assert (Hback : ∀ p, p ∈ P → ∃ device, device ∈ devices ∧ placement device = Some p).
  { intros p (d & ? & ?)%list_elem_of_omap. by exists d. }
  split.
  - intros k [(os & [hv H]) | [(t & r & [hv H]) | [hv H]]].
    + apply fold_os_origin in H as [H|(p & Hp & _ & Hk & _)];
        [by rewrite Bos in H|].
      destruct (Hback p Hp) as (d & ? & ?). by exists d, p.
    + apply fold_tier_origin in H as [H|(_ & p & Hp & _ & _ & Hk)];
        [by rewrite Bt in H|].
      destruct (Hback p Hp) as (d & ? & ?). by exists d, p.
    + apply fold_ungrouped_origin in H as [H|(p & Hp & _ & Hk & _)];
        [by rewrite Bu in H|].
      destruct (Hback p Hp) as (d & ? & ?). by exists d, p.
  - intros device p Hd Hpl.
    assert (Hp : p ∈ P) by by eapply placement_elem_of.
    destruct (fold_placed P _create_base_inventory p Hp) as (Hos & Ht & Hu).
    assert (Hsame : ∀ q, q ∈ P → p_key q = p_key p → q = p).
    { intros q Hq Hk. by apply (NoDup_keys_eq P). }
    assert (Htier : ∀ t r, is_Some
              (tier_hosts (foldl place _create_base_inventory P) t r !! p_key p) ↔
              r = p_role p ∧ tier_group (p_role p) = Some t).
    { intros t r. split.
      - intros [hv H].
        apply fold_tier_origin in H as [H|(_ & q & Hq & Hqt & Hqr & Hk)];
          [by rewrite Bt in H|].
        apply Hsame in Hk as ->; done.
      - intros [-> Htg]. by apply Ht. }
    split; [|split; [exact Htier|split]].
    + intros os. split; [|by intros ->].
      intros [hv H].
      apply fold_os_origin in H as [H|(q & Hq & Hqos & Hk & _)];
        [by rewrite Bos in H|].
      apply Hsame in Hk as ->; done.
    + split; [|exact Hu].
      intros [hv H].
      apply fold_ungrouped_origin in H as [H|(q & Hq & Hqr & Hk & _)];
        [by rewrite Bu in H|].
      apply Hsame in Hk as ->; done.
    + intros Hr t r.
      destruct (tier_hosts _ t r !! p_key p) eqn:E; [|done].
      assert (is_Some (tier_hosts (foldl place _create_base_inventory P) t r
                         !! p_key p)) as [_ Htg]%Htier by by eexists.
      by rewrite Hr in Htg.
Qed.

Lemma distinct_keys_one_group_witness :
  let inv := (generate_inventory [Samples.db01; Samples.router]
                _create_base_inventory).1.2 in
  (∀ os, is_Some (os_hosts inv os !! "db01") ↔ os = linux) ∧
  (∀ t r, is_Some (tier_hosts inv t r !! "db01") ↔
          r = business ∧ tier_group business = Some t).
Proof.
  cbv zeta.
  assert (Hp : placement Samples.db01 =
               Some {| p_key := "db01"; p_os := linux; p_role := business;
                       p_vars := <["ansible_connection" := JStr "ssh"]>
                                   {["ansible_host" := JStr "10.0.0.8"]} |})
    by (vm_compute; reflexivity).
  assert (Hnd : NoDup (p_key <$> omap placement [Samples.db01; Samples.router])).
  { apply (bool_decide_unpack _). vm_compute. exact I. }
  destruct (distinct_keys_one_group [Samples.db01; Samples.router] Hnd)
    as [_ H].
  destruct (H Samples.db01 _ ltac:(left) Hp) as (Hos & Ht & _).
  split; [exact Hos | exact Ht].
Defined.

(** *** Host variables *)

(** C4, counterexample: the device of the end-to-end scenario (only port
    80 open, no assessment) is of family [other]; its variables under
    that group are the address alone, with no connection transport. *)
Lemma other_family_has_no_transport :
  let inv := (generate_inventory [Samples.web01] _create_base_inventory).1.2 in
  _determine_os_type Samples.web01 = Ok other ∧
  os_hosts inv other !! "web01" = Some {["ansible_host" := JStr "10.0.0.5"]} ∧
  (os_hosts inv other !! "web01") ≫= (.!! "ansible_connection") = None.
Proof. cbv zeta. repeat split; vm_compute; reflexivity. Qed.

(** C4, as amended: [_add_host_to_inventory] files the host under its
    OS-family group with [ansible_connection] set to [winrm] (and
    certificate validation ignored) for [windows], to [ssh] for [linux]
    and [macos], and not set for [network_devices] and [other]; the entry
    under the tier/role group is the empty mapping.  In the finished tree
    every placed device has such an entry, every entry of a family group
    has the transport of that family, and every entry of a tier/role
    group is empty. *)
Theorem connection_follows_family :
  (∀ inv k ip os role device inv',
     _add_host_to_inventory inv k ip os role device = Ok inv' →
     (∃ hv, os_hosts inv' os !! k = Some hv ∧
            hv !! "ansible_host" = Some ip ∧
            hv !! "ansible_connection" = connection_of os ∧
            hv !! "ansible_winrm_server_cert_validation" =
              (if decide (os = windows) then Some (JStr "ignore") else None)) ∧
     (∀ t, tier_group role = Some t → tier_hosts inv' t role !! k = Some ∅)) ∧
  (∀ devices : list dict,
     let inv := (generate_inventory devices _create_base_inventory).1.2 in
     (∀ device p, device ∈ devices → placement device = Some p →
        is_Some (os_hosts inv (p_os p) !! p_key p)) ∧
     (∀ os k hv, os_hosts inv os !! k = Some hv →
        hv !! "ansible_connection" = connection_of os ∧
        hv !! "ansible_winrm_server_cert_validation" =
          (if decide (os = windows) then Some (JStr "ignore") else None)) ∧
     (∀ t r k hv, tier_hosts inv t r !! k = Some hv → hv = ∅)).
Proof.
  split.
  - intros inv k ip os role device inv'. rewrite add_host_place.
    destruct (build_host_vars ip os device) as [hv|e] eqn:Hb; [|done].
    intros [= <-]. split.
    + exists hv. rewrite place_os, decide_True by done.
      by apply build_host_vars_connection in Hb.
    + intros t Ht. by rewrite place_tier, decide_True.
  - intros devices inv. subst inv. rewrite generate_inventory_fold.
    destruct base_inventory_empty as (Bos & Bt & _).
    split; [|split].
    + intros device p Hd Hp.
      by apply fold_placed, (placement_elem_of devices device).
    + intros os k hv [H|(p & Hp & <- & _ & <-)]%fold_os_origin;
        [by rewrite Bos in H|].
      apply list_elem_of_omap in Hp as (d & _ & Hd).
      by apply (placement_connection d).
    + intros t r k hv [H|[-> _]]%fold_tier_origin; [by rewrite Bt in H|done].
Qed.

Lemma connection_follows_family_witness :
  let inv := (generate_inventory [Samples.db01; Samples.router]
                _create_base_inventory).1.2 in
  (os_hosts inv linux !! "db01") ≫= (.!! "ansible_connection") =
    Some (JStr "ssh").
Proof.
  cbv zeta.
  assert (Hp : placement Samples.db01 =
               Some {| p_key := "db01"; p_os := linux; p_role := business;
                       p_vars := <["ansible_connection" := JStr "ssh"]>
                                   {["ansible_host" := JStr "10.0.0.8"]} |})
    by (vm_compute; reflexivity).
  destruct (proj2 connection_follows_family [Samples.db01; Samples.router])
    as (Hin & Hconn & _).
  destruct (Hin Samples.db01 _ ltac:(left) Hp) as [hv Hhv].
  cbn [p_os p_key] in Hhv. rewrite Hhv. cbn [mbind option_bind].
  exact (proj1 (Hconn linux "db01" hv Hhv)).
Defined.

(** *** Records with a null hostname *)

(** C10: a record whose [hostname] is [null] makes
    [_determine_device_role] raise; the handler of the loop drops the
    device, so the tree is the one built from the other devices. *)
Theorem null_hostname_excluded (device : dict) :
  dict_lookup "hostname" device = Some JNull →
  _determine_device_role device = Raise AttributeError ∧
  placement device = None ∧
  (∀ inv, (process_device inv device).1 = inv) ∧
  (∀ inv before after,
     (generate_inventory (before ++ device :: after) inv).1.2 =
     (generate_inventory (before ++ after) inv).1.2).
Proof.
  intros Hh.
  assert (Hrole : _determine_device_role device = Raise AttributeError).
  { unfold _determine_device_role, dict_get. by rewrite Hh. }
  assert (Hpl : placement device = None).
  { unfold placement. destruct (negb (truthy _)); [done|].
    destruct (_safe_hostname _ _); [|done].
    destruct (_determine_os_type device); [|done].
    by rewrite Hrole. }
  assert (Hstep : ∀ inv, (process_device inv device).1 = inv).
  { intros inv. by rewrite process_device_placement, Hpl. }
  repeat split; try done.
  intros inv before after. rewrite !generate_inventory_tree.
  by rewrite !process_devices_app, process_devices_cons, Hstep.
Qed.

Lemma null_hostname_excluded_witness :
  (generate_inventory [Samples.db01; Samples.nameless; Samples.router]
     _create_base_inventory).1.2 =
  (generate_inventory [Samples.db01; Samples.router]
     _create_base_inventory).1.2.
Proof.
  exact (proj2 (proj2 (proj2 (null_hostname_excluded Samples.nameless eq_refl)))
           _create_base_inventory [Samples.db01] [Samples.router]).
Defined.

End Tree.

(** ** The fallback chain *)

Module Chain.
Import Assessment.

Lemma port_in_filter (f : Z → bool) x l :
  port_in x (filter (λ port, f port = true) l) = port_in x l && f x.
Proof.
  unfold port_in. induction l as [|y l IH]; [reflexivity|].
  rewrite filter_cons. destruct (decide (f y = true)) as [Hy|Hy]; cbn [existsb].
  - rewrite IH. destruct (Z.eqb_spec x y) as [->|]; [|reflexivity].
    rewrite Hy. by destruct (existsb _ l).
  - rewrite IH. destruct (Z.eqb_spec x y) as [->|]; [|reflexivity].
    apply not_true_is_false in Hy. rewrite Hy. by destruct (existsb _ l).
Qed.

(** The basic scan of a host that answers ping. *)
Lemma basic_scan_alive w ip :
  responds_to_ping w ip →
  _assess_via_basic_scan w ip =
    Some [("assessment_method", JStr "basic_scan");
          ("operating_system",
           JObj [("type", JStr (os_rule (_check_port_open w ip)))]);
          ("network",
           JObj [("open_ports",
                  JArr (JNum <$> filter (λ port, _check_port_open w ip port = true)
                                        common_ports))])].
Proof.
  unfold responds_to_ping, _assess_via_basic_scan. intros ->.
  cbn [Z.eqb negb]. rewrite !port_in_filter. reflexivity.
Qed.


(** With neither protocol producing an assessment, the chain is the
    basic scan plus the timestamp. *)
Lemma chain_falls_through w ip :
  ssh_unreachable w ip → winrm_unreachable w ip →
  assess_device w ip =
    Ok (dict_set "assessment_timestamp" (JStr (now w))
          <$> _assess_via_basic_scan w ip).
Proof.
  intros Hssh Hwin. unfold assess_device.
  assert (H1 : (if PARAMIKO_AVAILABLE w && _check_port_open w ip SSH_PORT
                then _assess_via_ssh w ip else Ok None) = Ok None).
  { unfold _assess_via_ssh.
    destruct Hssh as [-> | [-> | ->] ]; [done| |].
    - by rewrite andb_false_r.
    - by repeat case_match. }
  assert (H2 : (if WMI_AVAILABLE w && _check_port_open w ip WINRM_PORT
                then _assess_via_winrm w ip else None) = None).
  { unfold _assess_via_winrm.
    destruct Hwin as [-> | [-> | ->] ]; [done| |].
    - by rewrite andb_false_r.
    - by repeat case_match. }
  rewrite H1. cbn [rbind]. rewrite H2.
  by destruct (_assess_via_basic_scan w ip).
Qed.

(** *** Dict updates *)

Lemma dict_lookup_set k k' v d :
  dict_lookup k (dict_set k' v d) =
    if String.eqb k k' then Some v else dict_lookup k d.
Proof.
  induction d as [|[k1 v1] d IH]; cbn [dict_set dict_lookup].
  - by destruct (String.eqb k k').
  - destruct (String.eqb_spec k' k1) as [->|Hne]; cbn [dict_lookup].
    + by destruct (String.eqb k k1).
    + rewrite IH. destruct (String.eqb_spec k k1) as [->|]; [|done].
      destruct (String.eqb_spec k1 k') as [->|]; done.
Qed.

Lemma dict_lookup_app k d e :
  dict_lookup k (d ++ e) =
    match dict_lookup k d with Some v => Some v | None => dict_lookup k e end.
Proof.
  induction d as [|[k1 v1] d IH]; [done|].
  cbn [app dict_lookup]. by destruct (String.eqb k k1).
Qed.

(** In [{**d, **e}] the last entry of [e] for a key wins, then [d]. *)
Lemma dict_lookup_merge k e : ∀ d,
  dict_lookup k (dict_merge d e) =
    match dict_lookup k (reverse e) with
    | Some v => Some v
    | None => dict_lookup k d
    end.
Proof.
  unfold dict_merge.
  induction e as [|[k1 v1] e IH]; intros d; [done|].
  cbn [foldl fst snd]. rewrite IH, reverse_cons, dict_lookup_app.
  destruct (dict_lookup k (reverse e)); [done|].
  rewrite dict_lookup_set. cbn [dict_lookup].
  by destruct (String.eqb k k1).
Qed.

Lemma assess_all_devices_app w l1 l2 :
  (assess_all_devices w (l1 ++ l2)).1 =
    (assess_all_devices w l1).1 ++ (assess_all_devices w l2).1.
Proof.
  induction l1 as [|d l1 IH]; [done|].
  cbn [app assess_all_devices].
  destruct (assess_one w d) as [new log1].
  destruct (assess_all_devices w (l1 ++ l2)) as [rest log2].
  destruct (assess_all_devices w l1) as [rest1 log3].
  cbn [fst] in *. by rewrite IH, app_assoc.
Qed.

Lemma assess_all_devices_cons w d l :
  (assess_all_devices w (d :: l)).1 =
    (assess_one w d).1 ++ (assess_all_devices w l).1.
Proof.
  cbn [assess_all_devices].
  destruct (assess_one w d) as [new log1].
  by destruct (assess_all_devices w l) as [rest log2].
Qed.

(** *** Basic scan as the last resort *)

(** C5: for a device that neither the remote-shell nor the management
    attempt can assess and that answers ping, the chain returns the
    basic-scan assessment: its method is [basic_scan], its OS type follows
    the port rule (3389 or 5985 open: windows; 22 open and 445 closed:
    linux; otherwise unknown), and it has no [hardware] entry; merging it
    into the device record adds none either. *)
Theorem basic_scan_is_last_resort w ip :
  ssh_unreachable w ip → winrm_unreachable w ip → responds_to_ping w ip →
  ∃ a, assess_device w ip = Ok (Some a) ∧
       dict_lookup "assessment_method" a = Some (JStr "basic_scan") ∧
       dict_lookup "operating_system" a =
         Some (JObj [("type", JStr (os_rule (_check_port_open w ip)))]) ∧
       dict_has "hardware" a = false ∧
       ∀ device,
         dict_lookup "assessment_method" (dict_merge device a) =
           Some (JStr "basic_scan") ∧
         dict_lookup "hardware" (dict_merge device a) =
           dict_lookup "hardware" device.
Proof.
  intros Hssh Hwin Hping.
  rewrite (chain_falls_through w ip Hssh Hwin), (basic_scan_alive w ip Hping).
  eexists. split; [reflexivity|].
  split; [reflexivity|]. split; [reflexivity|]. split; [reflexivity|].
  intros device. rewrite !dict_lookup_merge. split; reflexivity.
Qed.

Lemma basic_scan_is_last_resort_witness :
  ∃ a, assess_device Samples.ping_only_world (JStr "10.0.0.8") = Ok (Some a) ∧
       dict_lookup "assessment_method" a = Some (JStr "basic_scan") ∧
       dict_lookup "operating_system" a = Some (JObj [("type", JStr "linux")]) ∧
       dict_has "hardware" a = false.
Proof.
  destruct (basic_scan_is_last_resort Samples.ping_only_world (JStr "10.0.0.8"))
    as (a & Ha & Hm & Hos & Hhw & _).
  - right. right. reflexivity.
  - left. reflexivity.
  - reflexivity.
  - exists a. repeat split; assumption.
Defined.

(** *** Devices that yield no record *)

(** The liveness check belongs to the last step of the chain only: a
    host that does not answer ping but accepts the shell session is
    assessed, over the shell, and no ping is sent to it. *)
Lemma assessed_without_ping_reply :
  let w := Samples.no_icmp_world in
  let ip := dict_get "ip_address" JNull Samples.db01 in
  ¬ responds_to_ping w ip ∧
  ∃ record, (assess_all_devices w [Samples.db01]).1 = [record] ∧
            dict_lookup "assessment_method" record = Some (JStr "ssh").
Proof.
  cbv zeta. split; [by intros [=]|].
  eexists. split; [vm_compute; reflexivity|reflexivity].
Qed.

(** *** The batch *)

(** The loop on any elements, piece by piece. *)
Lemma batch_of_objects w (devices : list dict) :
  Assessor.assess_all_devices w (JObj <$> devices) =
    (assess_all_devices w devices, None).
Proof.
  induction devices as [|d l IH]; [done|].
  cbn [fmap list_fmap Assessor.assess_all_devices assess_all_devices].
  change (list_fmap dict json JObj l) with (JObj <$> l). rewrite IH.
  destruct (assess_one w d) as [new log1].
  by destruct (assess_all_devices w l) as [rest log2].
Qed.







End Chain.

(** ** Entry points without input *)

Module EntryPoints.

Lemma inventory_main_no_dir fs :
  Inventory.dir_exists fs = false →
  Inventory.main fs =
    (1, [Inventory.InputDirNotFound; Inventory.FailedToLoad], None).
Proof.
  intros H. unfold Inventory.main, Inventory.load_discovered_devices.
  by rewrite H.
Qed.

Lemma inventory_main_no_files fs :
  Inventory.dir_exists fs = true →
  Files.glob "hardware_assessment_" ".json" (Inventory.listing fs) = [] →
  Files.glob "network_discovery_" ".json" (Inventory.listing fs) = [] →
  Inventory.main fs =
    (1, [Inventory.NoAssessmentFiles; Inventory.NoDiscoveryFilesEither;
         Inventory.FailedToLoad], None).
Proof.
  intros H Ha Hd. unfold Inventory.main, Inventory.load_discovered_devices.
  by rewrite H, Ha, Hd.
Qed.

Lemma assessment_main_nothing_found w fs inventory_file :
  inventory_file = None ∨ inventory_file = Some "" →
  Files.glob "network_discovery_" ".json" (Assessment.listing fs) = [] →
  Assessment.main w fs inventory_file =
    (0, [Assessment.InventoryFileNotFound None; Assessment.NoDevicesAssessed],
     None).
Proof.
  intros Hf Hg. unfold Assessment.main, Assessment._find_inventory_file.
  by destruct Hf as [-> | ->]; rewrite ?Hg; cbn; rewrite ?Hg.
Qed.

Lemma assessment_main_missing_path w fs path :
  path ≠ "" → Assessment.lookup fs path = None →
  Assessment.main w fs (Some path) =
    (0, [Assessment.InventoryFileNotFound (Some path);
         Assessment.NoDevicesAssessed], None).
Proof.
  intros Hp Hl. unfold Assessment.main, Assessment._find_inventory_file.
  apply String.eqb_neq in Hp. by rewrite Hp, Hl.
Qed.

(** C3, counterexample: with no inventory file given and an artifact
    directory without discovery files, the assessment entry point prints
    two lines and ends with exit status 0. *)
Lemma assessment_exits_zero_without_input :
  Assessment.main Samples.silent_world Samples.empty_output_dir None =
    (0, [Assessment.InventoryFileNotFound None; Assessment.NoDevicesAssessed],
     None).
Proof. reflexivity. Qed.

(** C3, as amended: when no input file is located, the inventory
    generator says what is missing, prints that loading failed and exits
    with status 1; the assessment entry point prints that the inventory
    file was not found and that no device was assessed, writes nothing,
    and ends with status 0. *)
Theorem input_not_found_statuses :
  (∀ fs,
     Inventory.dir_exists fs = false ∨
     (Files.glob "hardware_assessment_" ".json" (Inventory.listing fs) = [] ∧
      Files.glob "network_discovery_" ".json" (Inventory.listing fs) = []) →
     ∃ missing,
       missing ≠ [] ∧
       Inventory.main fs = (1, missing ++ [Inventory.FailedToLoad], None)) ∧
  (∀ w fs inventory_file,
     match inventory_file with
     | None => True
     | Some path => path = "" ∨ Assessment.lookup fs path = None
     end →
     Files.glob "network_discovery_" ".json" (Assessment.listing fs) = [] →
     ∃ f,
       Assessment.main w fs inventory_file =
         (0, [Assessment.InventoryFileNotFound f; Assessment.NoDevicesAssessed],
          None)).
Proof.
  split.
  - intros fs H.
    destruct (Inventory.dir_exists fs) eqn:Hd.
    + destruct H as [|[Ha Hn]]; [done|].
      exists [Inventory.NoAssessmentFiles; Inventory.NoDiscoveryFilesEither].
      split; [done|]. by apply inventory_main_no_files.
    + exists [Inventory.InputDirNotFound].
      split; [done|]. by apply inventory_main_no_dir.
  - intros w fs [path|] H Hg.
    + destruct (String.eqb_spec path "") as [->|Hne].
      * exists None. apply assessment_main_nothing_found; [by right|done].
      * destruct H as [|Hl]; [done|].
        exists (Some path). by apply assessment_main_missing_path.
    + exists None. apply assessment_main_nothing_found; [by left|done].
Qed.

Lemma input_not_found_statuses_witness :
  ∃ missing,
    missing ≠ [] ∧
    Inventory.main Samples.empty_input_dir =
      (1, missing ++ [Inventory.FailedToLoad], None).
Proof.
  apply (proj1 input_not_found_statuses Samples.empty_input_dir).
  right. split; reflexivity.
Defined.

End EntryPoints.

(** ** Discovery *)

Module Scan.
Import Discovery.

(** *** The methods only append *)

Lemma arp_answers_from_empty w ip_str answers : ∀ devs,
  arp_answers w ip_str answers devs =
    (devs ++ (arp_answers w ip_str answers []).1,
     (arp_answers w ip_str answers []).2).
Proof.
  induction answers as [|mac rest IH]; intros devs; cbn [arp_answers].
  - by rewrite app_nil_r.
  - destruct (gethostbyaddr w ip_str) as [h| |e].
    + rewrite (IH (devs ++ _)), (IH ([] ++ _)). cbn [fst snd].
      by rewrite <- app_assoc.
    + rewrite (IH (devs ++ _)), (IH ([] ++ _)). cbn [fst snd].
      by rewrite <- app_assoc.
    + by rewrite app_nil_r.
Qed.

Lemma arp_probes_from_empty w n ips : ∀ devs,
  arp_probes w n ips devs =
    (devs ++ (arp_probes w n ips []).1, (arp_probes w n ips []).2).
Proof.
  induction ips as [|ip rest IH]; intros devs; cbn [arp_probes].
  - by rewrite app_nil_r.
  - destruct ((ip =? network_address n) || (ip =? broadcast_address n));
      [apply IH|].
    destruct (srp w ip) as [answers|e]; [|by rewrite app_nil_r].
    rewrite (arp_answers_from_empty w _ answers devs).
    destruct (arp_answers w (str_of_ip ip) answers []) as [new [e|]];
      cbn [fst snd]; [done|].
    rewrite (IH (devs ++ new)), (IH new). cbn [fst snd].
    by rewrite <- app_assoc.
Qed.

Lemma scan_with_arp_appends w subnet devs :
  (scan_with_arp w subnet devs).1 = devs ++ (scan_with_arp w subnet []).1.
Proof.
  unfold scan_with_arp.
  destruct (negb (SCAPY_AVAILABLE w)); [by rewrite app_nil_r|].
  destruct (IPv4Network _ _) as [n|e]; [|by rewrite app_nil_r].
  rewrite (arp_probes_from_empty w n (hosts n) devs).
  by destruct (arp_probes w n (hosts n) []) as [new [e|]].
Qed.

Lemma scan_with_arp_returns w subnet devs :
  (scan_with_arp w subnet devs).2 = [] ∨
  (scan_with_arp w subnet devs).2 = (scan_with_arp w subnet devs).1.
Proof.
  unfold scan_with_arp.
  destruct (negb (SCAPY_AVAILABLE w)); [by left|].
  destruct (IPv4Network _ _) as [n|e]; [|by left].
  destruct (arp_probes w n (hosts n) devs) as [new [e|]]; [by left|by right].
Qed.

Lemma get_dhcp_leases_appends w devs :
  (get_dhcp_leases w devs).1 = devs ++ (get_dhcp_leases w []).1.
Proof.
  unfold get_dhcp_leases. destruct (dhcp_leases w); [done|].
  by rewrite app_nil_r.
Qed.

(** *** What the link-layer scan records *)

Lemma arp_answers_records w a answers :
  Forall (arp_record a) (arp_answers w (str_of_ip a) answers []).1.
Proof.
  induction answers as [|mac rest IH]; cbn [arp_answers]; [constructor|].
  destruct (gethostbyaddr w _) as [h| |e]; [| |constructor].
  - rewrite arp_answers_from_empty. cbn [fst app].
    constructor; [by split|exact IH].
  - rewrite arp_answers_from_empty. cbn [fst app].
    constructor; [by split|exact IH].
Qed.

Lemma arp_probes_records w n ips :
  Forall (λ d, ∃ a, a ∈ ips ∧ a ≠ network_address n ∧
                    a ≠ broadcast_address n ∧ arp_record a d)
         (arp_probes w n ips []).1.
Proof.
  induction ips as [|ip rest IH]; cbn [arp_probes]; [constructor|].
  assert (Hrest : Forall (λ d, ∃ a, a ∈ ip :: rest ∧ a ≠ network_address n ∧
                               a ≠ broadcast_address n ∧ arp_record a d)
                         (arp_probes w n rest []).1).
  { apply (list.Forall_impl _ _ _ IH).
    intros d (a & Ha & ?). exists a. split; [by right|done]. }
  destruct (Z.eqb_spec ip (network_address n)) as [|Hn]; [exact Hrest|].
  destruct (Z.eqb_spec ip (broadcast_address n)) as [|Hb]; [exact Hrest|].
  cbn [orb]. destruct (srp w ip) as [answers|e]; [|constructor].
  pose proof (arp_answers_records w ip answers) as Hans.
  assert (Hnew : Forall (λ d, ∃ a, a ∈ ip :: rest ∧ a ≠ network_address n ∧
                              a ≠ broadcast_address n ∧ arp_record a d)
                        (arp_answers w (str_of_ip ip) answers []).1).
  { apply (list.Forall_impl _ _ _ Hans).
    intros d Hd. exists ip. split; [by left|done]. }
  destruct (arp_answers w (str_of_ip ip) answers []) as [new [e|]];
    cbn [fst] in *; [exact Hnew|].
  rewrite arp_probes_from_empty. cbn [fst].
  apply Forall_app. by split.
Qed.

(** The addresses [hosts] enumerates lie between the network and the
    broadcast address. *)
Lemma hosts_in_subnet n a :
  a ∈ hosts n → network_address n ≤ a ≤ broadcast_address n.
Proof.
  unfold hosts.
  destruct (prefixlen n =? 31); [rewrite elem_of_seqZ; lia|].
  destruct (Z.eqb_spec (prefixlen n) 32) as [H32|_].
  - intros ->%list_elem_of_singleton.
    unfold broadcast_address. rewrite H32.
    change (hostmask 32) with 0. rewrite Z.lor_0_r. lia.
  - rewrite elem_of_seqZ; lia.
Qed.

(** *** Dotted quads *)

Lemma octet_digits o :
  0 ≤ o < 256 → Str.forallb Str.isdigit (pretty o) = true.
Proof.
  intros Ho.
  assert (H : forallb (λ o, Str.forallb Str.isdigit (pretty o)) (seqZ 0 256)
              = true) by (vm_compute; reflexivity).
  rewrite forallb_forall in H. apply H, list_elem_of_In, elem_of_seqZ. lia.
Qed.

(** Two runs of digits followed by a dot: the runs and the rests agree. *)
Lemma digits_dot_inj s1 : ∀ s2 t1 t2,
  Str.forallb Str.isdigit s1 = true → Str.forallb Str.isdigit s2 = true →
  s1 +:+ String "." t1 = s2 +:+ String "." t2 → s1 = s2 ∧ t1 = t2.
Proof.
  induction s1 as [|c s1 IH]; intros [|c' s2] t1 t2 H1 H2; cbn.
  - by intros [= ->].
  - intros [= <- _]. cbn in H2. discriminate H2.
  - intros [= -> _]. cbn in H1. discriminate H1.
  - intros [= -> He]. cbn in H1, H2.
    apply andb_prop in H1 as [_ H1]. apply andb_prop in H2 as [_ H2].
    by destruct (IH s2 t1 t2 H1 H2 He) as [-> ->].
Qed.

Lemma octet_range a i : 0 ≤ octet a i < 256.
Proof. unfold octet. apply Z.mod_pos_bound. lia. Qed.

Lemma octets_determine a b :
  0 ≤ a < 2 ^ 32 → 0 ≤ b < 2 ^ 32 →
  octet a 3 = octet b 3 → octet a 2 = octet b 2 →
  octet a 1 = octet b 1 → octet a 0 = octet b 0 → a = b.
Proof.
  unfold octet.
  change (2 ^ (8 * 3)) with 16777216. change (2 ^ (8 * 2)) with 65536.
  change (2 ^ (8 * 1)) with 256. change (2 ^ (8 * 0)) with 1.
  change (2 ^ 32) with 4294967296.
  intros Ha Hb. Z.to_euclidean_division_equations. lia.
Qed.

(** [str_of_ip] tells 32-bit addresses apart. *)
Lemma str_of_ip_inj a b :
  0 ≤ a < 2 ^ 32 → 0 ≤ b < 2 ^ 32 → str_of_ip a = str_of_ip b → a = b.
Proof.
  intros Ha Hb. unfold str_of_ip. intros H.
  apply digits_dot_inj in H as [H3 H]; [|apply octet_digits, octet_range..].
  apply digits_dot_inj in H as [H2 H]; [|apply octet_digits, octet_range..].
  apply digits_dot_inj in H as [H1 H0]; [|apply octet_digits, octet_range..].
  apply (inj pretty) in H3, H2, H1, H0.
  by apply octets_determine.
Qed.

(** The broadcast address of a network is a 32-bit address. *)
Lemma broadcast_bound address prefixlen n :
  IPv4Network address prefixlen = Ok n →
  0 ≤ network_address n ∧ broadcast_address n < 2 ^ 32.
Proof.
  unfold IPv4Network. case_match eqn:Hv; [|done]. intros [= <-].
  repeat (apply andb_prop in Hv as [Hv ?]).
  unfold broadcast_address. cbn [network_address Discovery.prefixlen].
  assert (0 ≤ address) by lia. assert (address < 2 ^ 32) by lia.
  assert (0 ≤ prefixlen ≤ 32) by lia.
  assert (Hland : Z.land address (hostmask prefixlen) = 0) by lia.
  split; [done|].
  rewrite <- (Z.add_nocarry_lor _ _ Hland).
  unfold hostmask in *.
  replace (2 ^ (32 - prefixlen) - 1) with (Z.ones (32 - prefixlen)) in Hland
    by (rewrite Z.ones_equiv; lia).
  rewrite Z.land_ones in Hland by lia.
  assert (Hpow : 2 ^ 32 = 2 ^ (32 - prefixlen) * 2 ^ prefixlen).
  { rewrite <- Z.pow_add_r by lia. f_equal. lia. }
  assert (0 < 2 ^ (32 - prefixlen)) by (apply Z.pow_pos_nonneg; lia).
  assert (0 < 2 ^ prefixlen) by (apply Z.pow_pos_nonneg; lia).
  pose proof (Z.div_mod address (2 ^ (32 - prefixlen)) ltac:(lia)) as Hdm.
  rewrite Hland, Z.add_0_r in Hdm.
  set (q := address `div` 2 ^ (32 - prefixlen)) in *.
  set (h := 2 ^ (32 - prefixlen)) in *. set (p := 2 ^ prefixlen) in *.
  assert (q < p) by nia. nia.
Qed.

(** *** Link-layer scan: addresses *)

(** C9, counterexample: the list the link-layer scan returns is the
    whole list of discovered devices.  After a port scan that recorded
    10.0.0.7, the broadcast address of 10.0.0.0/29, the link-layer scan
    of that subnet returns the record for 10.0.0.7. *)
Lemma arp_returns_earlier_records :
  let w := Cases.broadcast_seen_world in
  let n := {| network_address := 167772160; prefixlen := 29 |} in
  let earlier := (scan_with_nmap w []).1 in
  IPv4Network 167772160 29 = Ok n ∧
  str_of_ip (broadcast_address n) = "10.0.0.7" ∧
  ∃ d, (scan_with_arp w (167772160, 29) earlier).2 = [d] ∧
       dict_lookup "ip_address" d = Some (JStr "10.0.0.7") ∧
       dict_lookup "discovery_method" d = Some (JStr "nmap").
Proof.
  cbv zeta. split; [reflexivity|]. split; [vm_compute; reflexivity|].
  eexists. split; [vm_compute; reflexivity|]. split; reflexivity.
Qed.

(** C9, as amended: for a valid subnet, every record the link-layer scan
    adds carries the text of an address strictly between the network
    and the broadcast address, and of no 32-bit address outside that
    range; the scan returns nothing, or the list it was given extended
    by these records. *)
Theorem arp_records_are_usable_hosts w address prefixlen n devs :
  IPv4Network address prefixlen = Ok n →
  let scan := scan_with_arp w (address, prefixlen) devs in
  ∃ new,
    scan.1 = devs ++ new ∧
    (scan.2 = [] ∨ scan.2 = devs ++ new) ∧
    Forall (λ d, ∃ a, usable_host n a ∧ arp_record a d) new ∧
    (∀ d b, d ∈ new → 0 ≤ b < 2 ^ 32 → ¬ usable_host n b →
            dict_lookup "ip_address" d ≠ Some (JStr (str_of_ip b))).
Proof.
  intros Hn scan. subst scan.
  exists (scan_with_arp w (address, prefixlen) []).1.
  assert (Hnew : Forall (λ d, ∃ a, usable_host n a ∧ arp_record a d)
                        (scan_with_arp w (address, prefixlen) []).1).
  { unfold scan_with_arp. cbn [fst snd]. rewrite Hn.
    destruct (negb (SCAPY_AVAILABLE w)); [constructor|].
    pose proof (arp_probes_records w n (hosts n)) as H.
    destruct (arp_probes w n (hosts n) []) as [new [e|]]; cbn [fst] in *;
      apply (list.Forall_impl _ _ _ H);
      intros d (a & Ha%hosts_in_subnet & Hne & Hbe & Hd);
      exists a; (split; [unfold usable_host; lia|done]). }
  split; [apply scan_with_arp_appends|].
  split.
  { rewrite <- scan_with_arp_appends. apply scan_with_arp_returns. }
  split; [exact Hnew|].
  intros d b Hd Hb Hout Hip.
  rewrite list.Forall_forall in Hnew.
  destruct (Hnew d Hd) as (a & Ha & Hrec & _).
  rewrite Hip in Hrec. injection Hrec as Heq.
  destruct (broadcast_bound _ _ _ Hn) as [Hlo Hhi].
  unfold usable_host in *.
  apply str_of_ip_inj in Heq; [lia|lia|lia].
Qed.

Lemma arp_records_are_usable_hosts_witness :
  ∃ new,
    (scan_with_arp Samples.quiet_probe_world Samples.lan []).1 = [] ++ new ∧
    Forall (λ d, ∃ a, 167772160 < a < 167772167 ∧ arp_record a d) new.
Proof.
  destruct (arp_records_are_usable_hosts Samples.quiet_probe_world
              167772160 29 {| network_address := 167772160; prefixlen := 29 |}
              [] eq_refl) as (new & H1 & _ & H2 & _).
  exists new. split; [exact H1|exact H2].
Defined.

(** *** Link-layer scan: failures *)

(** C8, counterexample: on 10.0.0.0/29, where only 10.0.0.2 answers, a
    request for 10.0.0.1 that raises ends the scan with nothing recorded:
    10.0.0.2 is never asked.  Had that request gone unanswered, 10.0.0.2
    would have been recorded. *)
Lemma failed_probe_ends_scan :
  Samples.failing_probe_world.(srp) Samples.host1 = Raise OSError ∧
  scan_with_arp Samples.failing_probe_world Samples.lan [] = ([], []) ∧
  scan_with_arp Samples.quiet_probe_world Samples.lan [] =
    (let found := [arp_device Samples.quiet_probe_world "10.0.0.2" "Unknown"
                     "aa:bb:cc:dd:ee:02"] in (found, found)).
Proof. split; [reflexivity|]. split; vm_compute; reflexivity. Qed.

(** C8, as amended: for a probed address, a reverse lookup that fails
    with [socket.herror] records the answers under the hostname
    ["Unknown"] and the scan goes on; a request without answer records
    nothing and the scan goes on; a request that raises, or a lookup that
    fails otherwise, ends the loop there, and the scan returns the empty
    list. *)
Theorem arp_scan_failures w n ip rest devs :
  ip ≠ network_address n → ip ≠ broadcast_address n →
  (∀ answers,
     srp w ip = Ok answers → gethostbyaddr w (str_of_ip ip) = HostError →
     arp_probes w n (ip :: rest) devs =
       arp_probes w n rest
         (devs ++ (arp_device w (str_of_ip ip) "Unknown" <$> answers))) ∧
  (srp w ip = Ok [] →
     arp_probes w n (ip :: rest) devs = arp_probes w n rest devs) ∧
  (∀ e, srp w ip = Raise e →
     arp_probes w n (ip :: rest) devs = (devs, Some e)) ∧
  (∀ e mac answers,
     srp w ip = Ok (mac :: answers) →
     gethostbyaddr w (str_of_ip ip) = OtherFailure e →
     arp_probes w n (ip :: rest) devs = (devs, Some e)) ∧
  (∀ subnet e devs',
     SCAPY_AVAILABLE w = true →
     IPv4Network subnet.1 subnet.2 = Ok n →
     arp_probes w n (hosts n) devs = (devs', Some e) →
     scan_with_arp w subnet devs = (devs', [])).
Proof.
  intros Hn Hb.
  assert (Hskip : (ip =? network_address n) || (ip =? broadcast_address n)
                  = false).
  { apply orb_false_intro; by apply Z.eqb_neq. }
  cbn [arp_probes]. rewrite Hskip.
  split; [|split; [|split; [|split]]].
  - intros answers -> Hlook.
    assert (Hans : ∀ acc, arp_answers w (str_of_ip ip) answers acc =
              (acc ++ (arp_device w (str_of_ip ip) "Unknown" <$> answers), None)).
    { induction answers as [|mac answers IH]; intros acc; cbn [arp_answers].
      - by rewrite app_nil_r.
      - rewrite Hlook, IH, <- app_assoc. reflexivity. }
    by rewrite Hans.
  - by intros ->.
  - by intros e ->.
  - intros e mac answers -> Hlook. cbn [arp_answers]. by rewrite Hlook.
  - intros subnet e devs' Hsc Hnet Hp. unfold scan_with_arp.
    by rewrite Hsc, Hnet, Hp.
Qed.

Lemma arp_scan_failures_witness :
  arp_probes Samples.failing_probe_world
    {| network_address := 167772160; prefixlen := 29 |}
    [Samples.host1; Samples.host2] [] = ([], Some OSError).
Proof.
  apply (arp_scan_failures Samples.failing_probe_world
           {| network_address := 167772160; prefixlen := 29 |}
           Samples.host1 [Samples.host2] []); [done|done|].
  reflexivity.
Defined.

(** *** Several methods, one address *)

(** C1, counterexample: with all three methods run on a segment whose
    host 10.0.0.2 each of them sees, the final list holds three records
    for that address, one per method, none merged. *)
Lemma one_record_per_report :
  let final := main Samples.three_views_world Samples.lan true true true in
  length (records_for "10.0.0.2" final) = 3%nat ∧
  (λ d, dict_lookup "discovery_method" d) <$> final =
    [Some (JStr "nmap"); Some (JStr "arp"); Some (JStr "dhcp")] ∧
  (λ d, dict_lookup "hostname" d) <$> final =
    [Some (JStr "alpha.lan"); Some (JStr "Unknown"); Some (JStr "alpha")].
Proof. cbv zeta. repeat split; vm_compute; reflexivity. Qed.

(** C1, as amended: the final list is the records of the scan, then
    those of the link-layer method, then those of the lease table, for
    the methods that were run; nothing is merged, so an address has as
    many records as there are reports of it, and every record keeps the
    [discovery_method] (and the fields) of the method that made it. *)
Theorem discovery_appends_reports w subnet (run_nmap run_arp run_dhcp : bool) :
  let by_nmap := if run_nmap then (scan_with_nmap w []).1 else [] in
  let by_arp := if run_arp then (scan_with_arp w subnet []).1 else [] in
  let by_dhcp := if run_dhcp then (get_dhcp_leases w []).1 else [] in
  let final := main w subnet run_nmap run_arp run_dhcp in
  final = by_nmap ++ by_arp ++ by_dhcp ∧
  (∀ ip, length (records_for ip final) =
         (length (records_for ip by_nmap) + length (records_for ip by_arp) +
          length (records_for ip by_dhcp))%nat) ∧
  Forall (found_by "nmap") by_nmap ∧
  Forall (found_by "arp") by_arp ∧
  Forall (found_by "dhcp") by_dhcp.
Proof.
  intros by_nmap by_arp by_dhcp final.
  assert (Hfinal : final = by_nmap ++ by_arp ++ by_dhcp).
  { subst final by_nmap by_arp by_dhcp. unfold main. cbv zeta.
    set (d1 := if run_nmap then (scan_with_nmap w []).1 else []).
    set (d2 := if run_arp then (scan_with_arp w subnet d1).1 else d1).
    assert (H2 : d2 = d1 ++ (if run_arp then (scan_with_arp w subnet []).1 else [])).
    { subst d2. destruct run_arp; [apply scan_with_arp_appends|].
      by rewrite app_nil_r. }
    assert (H3 : (if run_dhcp then (get_dhcp_leases w d2).1 else d2) =
                 d2 ++ (if run_dhcp then (get_dhcp_leases w []).1 else [])).
    { destruct run_dhcp; [apply get_dhcp_leases_appends|].
      by rewrite app_nil_r. }
    by rewrite H3, H2, <- app_assoc. }
  split; [exact Hfinal|]. split.
  { intros ip. rewrite Hfinal. unfold records_for.
    rewrite !list.filter_app, !length_app. lia. }
  subst by_nmap by_arp by_dhcp. split; [|split].
  - destruct run_nmap; [|constructor]. unfold scan_with_nmap.
    destruct (negb (NMAP_AVAILABLE w)); [constructor|].
    assert (H : Forall (found_by "nmap") ([] ++ (nmap_device w <$> nmap_hosts w))).
    { apply Forall_fmap, Forall_true. by intros h. }
    by destruct (nmap_error w).
  - destruct run_arp; [|constructor]. unfold scan_with_arp.
    destruct (negb (SCAPY_AVAILABLE w)); [constructor|].
    destruct (IPv4Network _ _) as [n|e]; [|constructor].
    pose proof (arp_probes_records w n (hosts n)) as H.
    assert (H' : Forall (found_by "arp") (arp_probes w n (hosts n) []).1).
    { apply (list.Forall_impl _ _ _ H). by intros d (a & _ & _ & _ & _ & ?). }
    by destruct (arp_probes w n (hosts n) []) as [new [e|]].
  - destruct run_dhcp; [|constructor]. unfold get_dhcp_leases.
    destruct (dhcp_leases w) as [leases|e]; [|constructor].
    apply Forall_fmap, Forall_true. by intros l.
Qed.

End Scan.

(** ** Host keys *)

Module Keys.
Import Inventory Shapes.

Lemma allowed_no_dot s :
  Str.forallb allowed_char s = true → Str.mem_char "." s = false.
Proof.
  induction s as [|c s IH]; [done|]. cbn [Str.forallb Str.mem_char].
  intros [Hc Hs]%andb_prop. rewrite (IH Hs), orb_false_r.
  destruct (Ascii.eqb_spec "."%char c) as [<-|]; [discriminate Hc|done].
Qed.

Lemma mem_char_app c s t :
  Str.mem_char c (s +:+ t) = Str.mem_char c s || Str.mem_char c t.
Proof.
  induction s as [|c' s IH]; [done|]. simpl.
  by rewrite IH, orb_assoc.
Qed.

Lemma replace_no_dot a : Str.mem_char "." (Str.replace_char "." "_" a) = false.
Proof.
  unfold Str.replace_char. induction a as [|c a IH]; [done|].
  cbn [Str.map Str.mem_char]. rewrite IH, orb_false_r.
  destruct (Ascii.eqb_spec c ".") as [->|Hne]; [done|].
  destruct (Ascii.eqb_spec "."%char c) as [<-|]; done.
Qed.

Lemma ip_key_shape ip n : ip_key ip = Ok n → key_shape n.
Proof.
  destruct ip as [| | |a| |]; try discriminate. intros [= <-].
  split; [|done]. rewrite mem_char_app, replace_no_dot. done.
Qed.

(** X1: a host key is never empty, never starts with a digit and never
    contains a dot, for every hostname and every address. *)
Theorem host_key_shape hostname ip n :
  _safe_hostname hostname ip = Ok n →
  n ≠ "" ∧ Str.mem_char "." n = false ∧
  ∃ c r, n = String c r ∧ Str.isdigit c = false.
Proof.
  intros H.
  assert (Hs : key_shape n).
  { revert H. unfold _safe_hostname.
    destruct hostname as [|b|z|s|l|d];
      try (destruct (truthy _); [discriminate | apply ip_key_shape]).
    destruct (truthy (JStr s) && _); [|apply ip_key_shape].
    match goal with
    | |- (if negb (String.eqb ?x "") then _ else _) = _ → _ =>
        destruct (String.eqb x "") eqn:E
    end; cbn [negb]; [apply ip_key_shape|].
    intros [= <-]. apply String.eqb_neq in E.
    destruct (SafeHostname.prefixed_name_normal
                (Str.first_field "." s) E) as [Hall Hhd].
    split; [by apply allowed_no_dot|exact Hhd]. }
  destruct Hs as [Hdot Hhd]. destruct n as [|c r]; [done|].
  split; [done|]. split; [done|]. by exists c, r.
Qed.

Lemma host_key_shape_witness :
  "host_10_0_0_5" ≠ "" ∧ Str.mem_char "." "host_10_0_0_5" = false ∧
  ∃ c r, "host_10_0_0_5" = String c r ∧ Str.isdigit c = false.
Proof.
  apply (host_key_shape JNull (JStr "10.0.0.5")). reflexivity.
Defined.

(** Replacing dots by underscores loses nothing on texts without
    underscore. *)
Lemma replace_dot_inj s : ∀ t,
  Str.mem_char "_" s = false → Str.mem_char "_" t = false →
  Str.replace_char "." "_" s = Str.replace_char "." "_" t → s = t.
Proof.
  unfold Str.replace_char.
  induction s as [|c s IH]; intros [|c' t]; cbn [Str.map Str.mem_char];
    try done.
  intros [Hc Hs]%orb_false_elim [Hc' Ht]%orb_false_elim [= Hh Hr].
  f_equal; [|by apply IH].
  destruct (Ascii.eqb_spec c ".") as [->|], (Ascii.eqb_spec c' ".") as [->|];
    try done.
  - subst c'. by rewrite Ascii.eqb_refl in Hc'.
  - subst c. by rewrite Ascii.eqb_refl in Hc.
Qed.

Lemma str_of_ip_no_underscore a :
  Str.mem_char "_" (Discovery.str_of_ip a) = false.
Proof.
  assert (Hd : ∀ s, Str.forallb Str.isdigit s = true → Str.mem_char "_" s = false).
  { induction s as [|c s IH]; [done|]. cbn [Str.forallb Str.mem_char].
    intros [Hc Hs]%andb_prop. rewrite (IH Hs), orb_false_r.
    destruct (Ascii.eqb_spec "_"%char c) as [<-|]; [discriminate Hc|done]. }
  unfold Discovery.str_of_ip.
  rewrite !mem_char_app,
    !(Hd _ (Scan.octet_digits _ (Scan.octet_range a _))). done.
Qed.

(** X2: two devices without a usable hostname (null, empty or the
    sentinel) at different IPv4 addresses never share a host key. *)
Theorem fallback_keys_distinct (h1 h2 : json) (a b : Z) n1 n2 :
  0 ≤ a < 2 ^ 32 → 0 ≤ b < 2 ^ 32 → a ≠ b →
  h1 ∈ unusable_hostnames → h2 ∈ unusable_hostnames →
  _safe_hostname h1 (JStr (Discovery.str_of_ip a)) = Ok n1 →
  _safe_hostname h2 (JStr (Discovery.str_of_ip b)) = Ok n2 →
  n1 ≠ n2.
Proof.
  intros Ha Hb Hab H1 H2 E1 E2 ->.
  assert (K : ∀ h x, h ∈ unusable_hostnames →
              _safe_hostname h (JStr x) = Ok ("host_" +:+ Str.replace_char "." "_" x)).
  { intros h x Hh. unfold unusable_hostnames in Hh.
    repeat (apply elem_of_cons in Hh as [->|Hh]; [done|]).
    by apply elem_of_nil in Hh. }
  rewrite (K _ _ H1) in E1. rewrite (K _ _ H2) in E2.
  rewrite <- E2 in E1. injection E1 as E.
  apply replace_dot_inj in E; [|apply str_of_ip_no_underscore..].
  by apply Scan.str_of_ip_inj in E.
Qed.

Lemma fallback_keys_distinct_witness : "host_10_0_0_1" ≠ "host_10_0_0_2".
Proof.
  apply (fallback_keys_distinct JNull (JStr "Unknown")
           Samples.host1 Samples.host2);
    [done|done|done|by left|by right; right; right; left| |];
    vm_compute; reflexivity.
Defined.

End Keys.

(** ** Roles and groups the generator fills *)

Module Roles.
Import Inventory.

Lemma determine_device_role_range device r :
  _determine_device_role device = Ok r →
  r ∈ [network; storage; virtualization; cloud; business; ungrouped].
Proof.
  unfold _determine_device_role.
  destruct (dict_get "hostname" (JStr "") device); try discriminate.
  cbn [rbind].
  destruct (any_term _ _); [intros [= <-]; set_solver|].
  destruct (any_term _ _); [intros [= <-]; set_solver|].
  destruct (virtualization_flag device) as [[|]|e]; cbn [rbind];
    [intros [= <-]; set_solver| |discriminate].
  repeat case_match; intros [= <-]; set_solver.
Qed.

Lemma placement_role_range device p :
  placement device = Some p →
  p_role p ∈ [network; storage; virtualization; cloud; business; ungrouped].
Proof.
  unfold placement. destruct (negb (truthy _)); [done|].
  destruct (_safe_hostname _ _) as [k|e]; [|done].
  destruct (_determine_os_type device) as [os|e]; [|done].
  destruct (_determine_device_role device) as [role|e] eqn:Hr; [|done].
  cbn [rbind]. destruct (build_host_vars _ os device) as [hv|e]; [|done].
  intros [= <-]. by apply determine_device_role_range in Hr.
Qed.

(** X3: whatever the input, the generator only ever fills the role groups
    [network], [storage] and [virtualization] of tier 1 and [business] and
    [cloud] of tier 3; every other tier/role group of the tree stays
    empty. *)
Theorem only_five_role_groups_filled (devices : list dict) :
  let inv := (generate_inventory devices _create_base_inventory).1.2 in
  ∀ t r,
    (t, r) ∉ [(tier1_core, network); (tier1_core, storage);
              (tier1_core, virtualization);
              (tier3_applications, business); (tier3_applications, cloud)] →
    tier_hosts inv t r = ∅.
Proof.
  intros inv t r Hout. subst inv. rewrite Tree.generate_inventory_fold.
  apply map_empty. intros k.
  destruct (tier_hosts _ t r !! k) as [hv|] eqn:E; [|done].
  apply Tree.fold_tier_origin in E as [E|(_ & p & Hp & Ht & Hr & _)].
  { destruct Tree.base_inventory_empty as (_ & Bt & _). by rewrite Bt in E. }
  apply list_elem_of_omap in Hp as (d & _ & Hd).
  apply placement_role_range in Hd. subst r. destruct Hout.
  repeat (apply elem_of_cons in Hd as [Hd|Hd];
          [rewrite Hd in Ht |- *;
           first [discriminate Ht | injection Ht as <-; set_solver]|]).
  by apply elem_of_nil in Hd.
Qed.

Lemma only_five_role_groups_filled_witness :
  tier_hosts (generate_inventory [Samples.db01; Samples.router]
                _create_base_inventory).1.2 tier2_services monitoring = ∅.
Proof.
  apply (only_five_role_groups_filled [Samples.db01; Samples.router]).
  intros H. repeat (apply elem_of_cons in H as [[=]|H]).
  by apply elem_of_nil in H.
Defined.

End Roles.

(** ** Choosing and loading the input file *)

Module Loading.

Lemma latest_newest f others :
  Files.latest f others ∈ f :: others ∧
  ∀ g, g ∈ f :: others → Files.mtime g ≤ Files.mtime (Files.latest f others).
Proof.
  revert f. induction others as [|h others IH]; intros f; cbn [Files.latest].
  - split; [by left|]. intros g ->%list_elem_of_singleton. lia.
  - destruct (Z.ltb_spec (Files.mtime f) (Files.mtime h)) as [Hlt|Hge].
    + destruct (IH h) as [Hin Hmax]. split; [by right|].
      intros g [->|Hg]%elem_of_cons; [|by apply Hmax].
      specialize (Hmax h ltac:(left)). lia.
    + destruct (IH f) as [Hin Hmax]. split.
      * apply elem_of_cons in Hin as [->|Hin]; [by left|by do 2 right].
      * intros g [->|[->|Hg]%elem_of_cons]%elem_of_cons.
        -- apply Hmax. by left.
        -- specialize (Hmax f ltac:(left)). lia.
        -- apply Hmax. by right.
Qed.

Lemma elem_of_glob prefix suffix listing g :
  g ∈ Files.glob prefix suffix listing ↔
  Files.matches prefix suffix (Files.name g) = true ∧ g ∈ listing.
Proof. unfold Files.glob. by rewrite list_elem_of_filter. Qed.

(** The newest file of a non-empty glob result. *)
Lemma latest_of_glob prefix suffix listing f others :
  Files.glob prefix suffix listing = f :: others →
  let l := Files.latest f others in
  l ∈ listing ∧ Files.matches prefix suffix (Files.name l) = true ∧
  ∀ g, g ∈ listing → Files.matches prefix suffix (Files.name g) = true →
       Files.mtime g ≤ Files.mtime l.
Proof.
  intros Hg l. destruct (latest_newest f others) as [Hin Hmax].
  fold l in Hin, Hmax. rewrite <- Hg in Hin, Hmax.
  apply elem_of_glob in Hin as [Hm Hin].
  split; [done|]. split; [done|].
  intros g Hgl Hgm. apply Hmax, elem_of_glob. by split.
Qed.

(** X4: when the generator reports that it loaded devices, they are the
    non-empty content of a file of the input directory that matches one
    of the two naming patterns and is at least as recent as every other
    file matching that pattern; a discovery file is only used when the
    directory holds no assessment file at all. *)
Theorem loaded_devices_come_from_newest fs devices log :
  Inventory.load_discovered_devices fs = (true, devices, log) →
  devices ≠ [] ∧
  ∃ f prefix,
    f ∈ Inventory.listing fs ∧
    Files.matches prefix ".json" (Files.name f) = true ∧
    Files.content f = Some devices ∧
    (∀ g, g ∈ Inventory.listing fs →
          Files.matches prefix ".json" (Files.name g) = true →
          Files.mtime g ≤ Files.mtime f) ∧
    (prefix = "hardware_assessment_" ∨
     prefix = "network_discovery_" ∧
     Files.glob "hardware_assessment_" ".json" (Inventory.listing fs) = []).
Proof.
  unfold Inventory.load_discovered_devices.
  destruct (negb (Inventory.dir_exists fs)); [done|].
  destruct (Files.glob "hardware_assessment_" _ _) as [|f others] eqn:Ha.
  - destruct (Files.glob "network_discovery_" _ _) as [|f others] eqn:Hd;
      [done|].
    destruct (latest_of_glob _ _ _ _ _ Hd) as (Hin & Hm & Hmax).
    destruct (Files.content (Files.latest f others)) as [l|] eqn:Hc; [|done].
    intros [= Hlen -> _]. split; [by destruct devices|].
    exists (Files.latest f others), "network_discovery_".
    repeat split; try done. by right.
  - destruct (latest_of_glob _ _ _ _ _ Ha) as (Hin & Hm & Hmax).
    destruct (Files.content (Files.latest f others)) as [l|] eqn:Hc; [|done].
    intros [= Hlen -> _]. split; [by destruct devices|].
    exists (Files.latest f others), "hardware_assessment_".
    repeat split; try done. by left.
Qed.

(** X5: with no inventory file named, the assessment engine takes the
    file of its directory that matches [network_discovery_*.json] and is
    at least as recent as every other such file. *)
Theorem assessment_takes_newest_discovery fs f others :
  Files.glob "network_discovery_" ".json" (Assessment.listing fs) = f :: others →
  ∃ chosen,
    (Assessment._find_inventory_file fs None).1 =
      Some (Files.name chosen, Some chosen) ∧
    chosen ∈ Assessment.listing fs ∧
    Files.matches "network_discovery_" ".json" (Files.name chosen) = true ∧
    (∀ g, g ∈ Assessment.listing fs →
          Files.matches "network_discovery_" ".json" (Files.name g) = true →
          Files.mtime g ≤ Files.mtime chosen) ∧
    (Assessment._load_inventory (Assessment._find_inventory_file fs None).1).1 =
      default [] (Files.content chosen).
Proof.
  intros Hg. exists (Files.latest f others).
  destruct (latest_of_glob _ _ _ _ _ Hg) as (Hin & Hm & Hmax).
  unfold Assessment._find_inventory_file. rewrite Hg. cbn [fst].
  repeat split; try done.
  unfold Assessment._load_inventory.
  by destruct (Files.content (Files.latest f others)).
Qed.

Lemma loaded_devices_come_from_newest_witness :
  ∃ f prefix,
    f ∈ Inventory.listing Cases.discoveries_only ∧
    Files.matches prefix ".json" (Files.name f) = true ∧
    Files.content f = Some [Samples.router; Samples.db01].
Proof.
  destruct (loaded_devices_come_from_newest Cases.discoveries_only
              [Samples.router; Samples.db01]
              [Inventory.NoAssessmentFiles;
               Inventory.UsingLatestDiscovery "network_discovery_20240102_090000.json";
               Inventory.LoadedFromDiscovery 2] eq_refl)
    as (_ & f & prefix & H1 & H2 & H3 & _).
  by exists f, prefix.
Defined.

Lemma assessment_takes_newest_discovery_witness :
  ∃ chosen,
    (Assessment._find_inventory_file Cases.two_discoveries None).1 =
      Some (Files.name chosen, Some chosen) ∧
    Files.mtime Cases.discovery_old ≤ Files.mtime chosen.
Proof.
  destruct (assessment_takes_newest_discovery Cases.two_discoveries
              Cases.discovery_old [Cases.discovery_new] eq_refl)
    as (chosen & H1 & _ & _ & Hmax & _).
  exists chosen. split; [exact H1|].
  apply Hmax; [by left|reflexivity].
Defined.

(** X6: once the input directory holds a file matching
    [hardware_assessment_*.json], discovery files are never read: when the
    newest assessment file cannot be loaded or lists no device, the
    generator exits with status 1 whatever discovery files exist. *)
Theorem assessment_file_shadows_discovery fs f others :
  Inventory.dir_exists fs = true →
  Files.glob "hardware_assessment_" ".json" (Inventory.listing fs) = f :: others →
  Files.content (Files.latest f others) = None ∨
  Files.content (Files.latest f others) = Some [] →
  ∃ log, Inventory.main fs = (1, log ++ [Inventory.FailedToLoad], None).
Proof.
  intros Hd Hg Hc.
  unfold Inventory.main, Inventory.load_discovered_devices.
  rewrite Hd, Hg. cbn [negb].
  destruct Hc as [-> | ->]; cbn.
  - by exists [Inventory.UsingLatestAssessment (Files.name (Files.latest f others));
               Inventory.ErrorLoadingAssessment].
  - by exists [Inventory.UsingLatestAssessment (Files.name (Files.latest f others));
               Inventory.LoadedFromAssessment 0].
Qed.

Lemma assessment_file_shadows_discovery_witness :
  ∃ log, Inventory.main Cases.empty_assessment =
           (1, log ++ [Inventory.FailedToLoad], None).
Proof.
  apply (assessment_file_shadows_discovery Cases.empty_assessment
           Cases.assessment_empty []); [reflexivity|reflexivity|].
  right. reflexivity.
Defined.



(** Each turn of the loop either places the device or prints one line. *)
Lemma process_device_log inv device :
  (Inventory.process_device inv device).2 = [] ∧
    is_Some (Inventory.placement device) ∨
  (∃ m, (Inventory.process_device inv device).2 = [m]) ∧
    Inventory.placement device = None.
Proof.
  unfold Inventory.process_device, Inventory.placement.
  destruct (negb (truthy _)); [right; eauto|].
  destruct (Inventory._safe_hostname _ _) as [k|e]; [|right; eauto].
  destruct (Inventory._determine_os_type device) as [os|e]; [|right; eauto].
  destruct (Inventory._determine_device_role device) as [role|e];
    [|right; eauto].
  cbn [rbind]. rewrite Tree.add_host_place.
  destruct (Inventory.build_host_vars _ os device) as [hv|e]; cbn [rbind];
    [left; eauto|right; eauto].
Qed.

(** *** The generator on elements of any shape *)

Lemma loop_of_objects inv (devices : list dict) :
  Generator.process_devices inv (JObj <$> devices) =
    (Inventory.process_devices inv devices, None).
Proof.
  revert inv. induction devices as [|d l IH]; intros inv; [done|].
  cbn [fmap list_fmap Generator.process_devices Inventory.process_devices].
  change (list_fmap dict json JObj l) with (JObj <$> l).
  destruct (Inventory.process_device inv d) as [inv1 log1]. rewrite IH.
  by destruct (Inventory.process_devices inv1 l) as [inv2 log2].
Qed.

(** The loop handles the objects at the head of the list and stops at
    the first element that is not one. *)
Lemma loop_stops_at_non_object inv (devices : list json) :
  ∃ objects rest,
    devices = (JObj <$> objects) ++ rest ∧
    (Generator.process_devices inv devices).1 =
      Inventory.process_devices inv objects ∧
    match (Generator.process_devices inv devices).2 with
    | None => rest = []
    | Some e =>
        e = AttributeError ∧
        ∃ element others, rest = element :: others ∧
                          ∀ device, element ≠ JObj device
    end.
Proof.
  revert inv. induction devices as [|element l IH]; intros inv.
  - by exists [], [].
  - destruct element as [| | | | |d];
      try (eexists [], _; cbn; split; [reflexivity|]; split; [done|];
           split; [done|]; eexists _, _; split; [reflexivity|done]).
    cbn [Generator.process_devices].
    destruct (Inventory.process_device inv d) as [inv1 log1] eqn:E1.
    destruct (IH inv1) as (objects & rest & -> & Hrun & Hend).
    destruct (Generator.process_devices inv1 _) as [[inv2 log2] raised].
    cbn [fst snd] in *.
    exists (d :: objects), rest. split; [done|].
    cbn [Inventory.process_devices]. rewrite E1, <- Hrun. done.
Qed.

Lemma objects_placed_or_reported (devices : list dict) inv :
  (length (Inventory.process_devices inv devices).2 +
   length (omap Inventory.placement devices))%nat = length devices.
Proof.
  revert inv. induction devices as [|d l IH]; intros inv; [done|].
  cbn [Inventory.process_devices omap list_omap].
  destruct (process_device_log inv d) as [[Hlog [p Hp]]|[[m Hlog] Hp]];
    destruct (Inventory.process_device inv d) as [inv1 log1];
    specialize (IH inv1);
    destruct (Inventory.process_devices inv1 l) as [inv2 log2];
    cbn [fst snd] in *; subst log1; rewrite Hp; cbn [length app]; lia.
Qed.

(** X8: the loop of the generator handles the elements in order up to
    the first one that is not a JSON object.  Every object before it is
    accounted for once: the number of lines the loop prints plus the
    number of devices it places is the number of those objects.  If
    there is such an element, the loop ends there with [AttributeError]:
    it and the elements after it are neither placed nor reported. *)
Theorem every_device_placed_or_reported (devices : list json) inv :
  let run := Generator.process_devices inv devices in
  ∃ objects rest,
    devices = (JObj <$> objects) ++ rest ∧
    run.1 = Inventory.process_devices inv objects ∧
    (length run.1.2 + length (omap Inventory.placement objects))%nat
      = length objects ∧
    match run.2 with
    | None => rest = []
    | Some e =>
        e = AttributeError ∧
        ∃ element others, rest = element :: others ∧
                          ∀ device, element ≠ JObj device
    end.
Proof.
  cbv zeta.
  destruct (loop_stops_at_non_object inv devices)
    as (objects & rest & Hd & Hrun & Hend).
  exists objects, rest. split; [done|]. split; [done|]. split; [|done].
  rewrite Hrun. apply objects_placed_or_reported.
Qed.

Lemma omap_placement_none (devices : list dict) :
  Forall (λ d, Inventory.placement d = None) devices →
  omap Inventory.placement devices = [].
Proof.
  induction 1 as [|d l Hd _ IH]; [done|].
  cbn [omap list_omap]. by rewrite Hd.
Qed.

Lemma loop_raises inv (devices : list json) element :
  element ∈ devices → (∀ device, element ≠ JObj device) →
  (Generator.process_devices inv devices).2 = Some AttributeError.
Proof.
  intros Hin Hne. revert inv.
  induction devices as [|e l IH]; intros inv; [by apply elem_of_nil in Hin|].
  destruct e as [| | | | |d]; try done.
  cbn [Generator.process_devices].
  destruct (Inventory.process_device inv d) as [inv1 log1].
  apply elem_of_cons in Hin as [->|Hin]; [by destruct (Hne d)|].
  specialize (IH Hin inv1).
  by destruct (Generator.process_devices inv1 l) as [[inv2 log2] raised].
Qed.

Lemma nonempty_truthy v devices :
  Loaded.elements v = Ok devices → Nat.ltb 0 (length devices) = true →
  truthy v = true.
Proof.
  destruct v as [| | |s|l|d]; try done; cbn; intros [= <-].
  - by destruct s.
  - by destruct l.
  - by destruct d.
Qed.

Lemma load_true_truthy fs :
  (Generator.load_discovered_devices fs).1.1 = true →
  truthy (Generator.load_discovered_devices fs).1.2 = true.
Proof.
  unfold Generator.load_discovered_devices.
  destruct (negb (Generator.dir_exists fs)); [done|].
  destruct (Loaded.glob "hardware_assessment_" _ _) as [|f others].
  - destruct (Loaded.glob "network_discovery_" _ _) as [|f others]; [done|].
    destruct (Loaded.value _) as [v|]; [|done].
    destruct (Loaded.elements v) as [devices|e] eqn:E; [|done].
    cbn [fst snd]. by apply nonempty_truthy.
  - destruct (Loaded.value _) as [v|]; [|done].
    destruct (Loaded.elements v) as [devices|e] eqn:E; [|done].
    cbn [fst snd]. by apply nonempty_truthy.
Qed.

(** X9: with a non-empty input loaded and a writable output, a run in
    which every element is an object that cannot be placed still
    succeeds: the generator exits with status 0 and writes the empty
    base inventory.  If some element is not an object the run fails
    instead: it ends with [AttributeError] uncaught, status 1, and
    writes nothing. *)
Theorem nothing_placed_still_succeeds fs devices :
  (Generator.load_discovered_devices fs).1.1 = true →
  Loaded.elements (Generator.load_discovered_devices fs).1.2 = Ok devices →
  Generator.write_ok fs = true →
  (Forall (λ element, ∃ device, element = JObj device ∧
                                Inventory.placement device = None) devices →
   (Generator.main fs).1.1 = Loaded.Exit 0 ∧
   (Generator.main fs).2 = Some Inventory._create_base_inventory) ∧
  ((∃ element, element ∈ devices ∧ ∀ device, element ≠ JObj device) →
   (Generator.main fs).1.1 = Loaded.Uncaught AttributeError ∧
   Loaded.status (Generator.main fs).1.1 = 1 ∧
   (Generator.main fs).2 = None).
Proof.
  intros Hl He Hw. unfold Generator.main.
  pose proof (load_true_truthy fs Hl) as Htrue.
  destruct (Generator.load_discovered_devices fs) as [[b value] log1].
  cbn [fst snd] in *. subst b. cbn [negb].
  unfold Generator.generate_inventory. rewrite Htrue, He. cbn [negb].
  split.
  - intros Hall.
    assert (∃ objects, devices = JObj <$> objects ∧
                       Forall (λ d, Inventory.placement d = None) objects)
      as (objects & -> & Hnone).
    { clear -Hall. induction Hall as [|e l (d & -> & Hd) _ (objs & -> & IH)].
      - by exists [].
      - exists (d :: objs). split; [done|]. by constructor. }
    rewrite loop_of_objects.
    pose proof (Tree.process_devices_fold Inventory._create_base_inventory
                  objects) as Hfold.
    rewrite (omap_placement_none objects Hnone) in Hfold. cbn [foldl] in Hfold.
    destruct (Inventory.process_devices _ objects) as [inv log2].
    cbn [fst snd] in *. rewrite Hw. cbn [fst snd]. by rewrite Hfold.
  - intros (element & Hin & Hne).
    pose proof (loop_raises Inventory._create_base_inventory devices element
                  Hin Hne) as Hr.
    destruct (Generator.process_devices _ devices) as [[inv log2] raised].
    cbn [snd] in Hr. subst raised. done.
Qed.

Lemma nothing_placed_still_succeeds_witness :
  (Generator.main (Generator.of_typed Cases.only_unplaceable)).1.1 =
    Loaded.Exit 0 ∧
  (Generator.main (Generator.of_typed Cases.only_unplaceable)).2 =
    Some Inventory._create_base_inventory ∧
  (Generator.main Cases.stray_input_dir).1.1 = Loaded.Uncaught AttributeError ∧
  (Generator.main Cases.stray_input_dir).2 = None.
Proof.
  destruct (nothing_placed_still_succeeds
              (Generator.of_typed Cases.only_unplaceable)
              [JObj [("hostname", JStr "ghost")]; JObj Samples.nameless]
              eq_refl eq_refl eq_refl) as [H _].
  destruct (nothing_placed_still_succeeds Cases.stray_input_dir
              [JStr "10.0.0.9"; JObj Samples.db01]
              eq_refl eq_refl eq_refl) as [_ H'].
  split; [|split; [|split]].
  - apply H. repeat constructor; by eexists.
  - apply H. repeat constructor; by eexists.
  - apply H'. exists (JStr "10.0.0.9"). split; [by left|done].
  - apply H'. exists (JStr "10.0.0.9"). split; [by left|done].
Defined.

(** *** Agreement with the run on arrays of objects *)

Lemma glob_of_files prefix suffix (l : list Files.file) :
  Loaded.glob prefix suffix (Loaded.of_file <$> l) =
    Loaded.of_file <$> Files.glob prefix suffix l.
Proof.
  unfold Loaded.glob, Files.glob. induction l as [|f l IH]; [done|].
  cbn [fmap list_fmap]. rewrite !filter_cons. cbn [Loaded.of_file Loaded.name].
  destruct (decide (Files.matches prefix suffix (Files.name f) = true));
    cbn [fmap list_fmap]; by rewrite <- IH.
Qed.

Lemma latest_of_files f (others : list Files.file) :
  Loaded.latest (Loaded.of_file f) (Loaded.of_file <$> others) =
    Loaded.of_file (Files.latest f others).
Proof.
  revert f. induction others as [|g l IH]; intros f; [done|].
  cbn [fmap list_fmap Loaded.latest Files.latest].
  cbn [Loaded.of_file Loaded.mtime].
  destruct (Files.mtime f <? Files.mtime g); apply IH.
Qed.

Lemma load_of_typed fs :
  Generator.load_discovered_devices (Generator.of_typed fs) =
    let '(loaded, devices, log) := Inventory.load_discovered_devices fs in
    (loaded, JArr (JObj <$> devices), log).
Proof.
  unfold Generator.load_discovered_devices, Inventory.load_discovered_devices.
  cbn [Generator.of_typed Generator.dir_exists Generator.listing].
  destruct (negb (Inventory.dir_exists fs)); [done|].
  rewrite !glob_of_files.
  destruct (Files.glob "hardware_assessment_" ".json" _) as [|f others].
  - cbn [fmap list_fmap].
    destruct (Files.glob "network_discovery_" ".json" _) as [|f others];
      [done|].
    cbn [fmap list_fmap].
    change (list_fmap _ _ Loaded.of_file others) with (Loaded.of_file <$> others).
    rewrite latest_of_files. cbn [Loaded.of_file Loaded.value Loaded.name].
    destruct (Files.content (Files.latest f others)) as [devices|]; [|done].
    cbn [fmap option_fmap option_map Loaded.elements].
    by rewrite length_fmap.
  - cbn [fmap list_fmap].
    change (list_fmap _ _ Loaded.of_file others) with (Loaded.of_file <$> others).
    rewrite latest_of_files. cbn [Loaded.of_file Loaded.value Loaded.name].
    destruct (Files.content (Files.latest f others)) as [devices|]; [|done].
    cbn [fmap option_fmap option_map Loaded.elements].
    by rewrite length_fmap.
Qed.

(** On a directory whose files hold arrays of objects the generator
    ends as [Inventory.main] says. *)
Lemma generator_main_of_typed fs :
  Generator.main (Generator.of_typed fs) =
    let '(status, log, written) := Inventory.main fs in
    (Loaded.Exit status, log, written).
Proof.
  unfold Generator.main, Inventory.main. rewrite load_of_typed.
  destruct (Inventory.load_discovered_devices fs) as [[loaded devices] log1].
  destruct loaded; [|done]. cbn [negb].
  unfold Generator.generate_inventory, Inventory.generate_inventory.
  destruct devices as [|d l]; [done|].
  cbn [truthy fmap list_fmap negb Loaded.elements].
  rewrite (loop_of_objects _ (d :: l)).
  destruct (Inventory.process_devices _ (d :: l)) as [inv log2].
  cbn [negb]. cbn [Generator.of_typed Generator.write_ok].
  by destruct (Inventory.write_ok fs).
Qed.

End Loading.

(** ** Devices that share a host key *)

Module Overwrite.
Import Inventory.

Lemma fold_other_key (P : list placed) k : ∀ inv,
  Forall (λ q, p_key q ≠ k) P →
  (∀ os, os_hosts (foldl place inv P) os !! k = os_hosts inv os !! k) ∧
  (∀ t r, tier_hosts (foldl place inv P) t r !! k = tier_hosts inv t r !! k) ∧
  ungrouped_hosts (foldl place inv P) !! k = ungrouped_hosts inv !! k.
Proof.
  induction P as [|q P IH]; intros inv HP; [done|].
  apply list.Forall_cons in HP as [Hq HP]. cbn [foldl].
  destruct (IH (place inv q) HP) as (Hos & Ht & Hu).
  split; [|split].
  - intros os. rewrite Hos, Tree.place_os.
    by rewrite decide_False by (intros [_ ?]; congruence).
  - intros t r. rewrite Ht, Tree.place_tier.
    by rewrite decide_False by (intros (_ & _ & ?); congruence).
  - rewrite Hu, Tree.place_ungrouped.
    by rewrite decide_False by (intros [_ ?]; congruence).
Qed.

(** X10: the entries of a host key are those of the last device placed
    under it: if no device after [device] gets the same key, the entry in
    the family group of [device] holds its variables, its role group
    holds the key with an empty mapping, and, for the [ungrouped] role,
    [ungrouped] holds its variables; whatever an earlier device with the
    same key and family had put there is gone. *)
Theorem last_device_of_a_key_wins (before after : list dict) device p :
  placement device = Some p →
  Forall (λ d, ∀ q, placement d = Some q → p_key q ≠ p_key p) after →
  let inv := (generate_inventory (before ++ device :: after)
                _create_base_inventory).1.2 in
  os_hosts inv (p_os p) !! p_key p = Some (p_vars p) ∧
  (∀ t, tier_group (p_role p) = Some t →
        tier_hosts inv t (p_role p) !! p_key p = Some ∅) ∧
  (p_role p = ungrouped → ungrouped_hosts inv !! p_key p = Some (p_vars p)).
Proof.
  intros Hp Hafter inv. subst inv.
  rewrite Tree.generate_inventory_tree, Tree.process_devices_app,
    Tree.process_devices_cons, Tree.process_device_placement, Hp,
    (Tree.process_devices_fold _ after).
  set (inv0 := (process_devices _create_base_inventory before).1).
  assert (HP : Forall (λ q, p_key q ≠ p_key p) (omap placement after)).
  { apply list.Forall_forall. intros q (d & Hd & Hq)%list_elem_of_omap.
    rewrite list.Forall_forall in Hafter. by apply (Hafter d). }
  destruct (fold_other_key _ _ (place inv0 p) HP) as (Hos & Ht & Hu).
  split; [|split].
  - by rewrite Hos, Tree.place_os, decide_True.
  - intros t Htg. by rewrite Ht, Tree.place_tier, decide_True.
  - intros Hr. by rewrite Hu, Tree.place_ungrouped, decide_True.
Qed.

Lemma last_device_of_a_key_wins_witness :
  os_hosts (generate_inventory [Samples.web01_lan; Cases.web01_corp]
              _create_base_inventory).1.2 linux !! "web01" =
    Some (<["ansible_connection" := JStr "ssh"]>
            {["ansible_host" := JStr "10.0.0.9"]}).
Proof.
  refine (proj1 (last_device_of_a_key_wins [Samples.web01_lan] []
                   Cases.web01_corp
                   {| p_key := "web01"; p_os := linux; p_role := cloud;
                      p_vars := <["ansible_connection" := JStr "ssh"]>
                                  {["ansible_host" := JStr "10.0.0.9"]} |}
                   _ _)).
  - vm_compute. reflexivity.
  - constructor.
Defined.

End Overwrite.

(** ** What an assessment looks like *)

Module Profile.
Import Assessment Shapes.

Lemma dict_lookup_keys k d : is_Some (dict_lookup k d) → k ∈ dict_keys d.
Proof.
  unfold dict_keys. induction d as [|[k1 v1] d IH]; cbn [dict_lookup].
  - by intros [? ?].
  - destruct (String.eqb_spec k k1) as [->|]; [by left|].
    intros H. right. by apply IH.
Qed.

Lemma dict_keys_set k v d :
  dict_keys (dict_set k v d) =
    if decide (k ∈ dict_keys d) then dict_keys d else dict_keys d ++ [k].
Proof.
  unfold dict_keys. induction d as [|[k1 v1] d IH]; cbn [dict_set].
  - rewrite decide_False by apply not_elem_of_nil. done.
  - destruct (String.eqb_spec k k1) as [->|Hne]; csimpl.
    + rewrite decide_True by by left. done.
    + rewrite IH. destruct (decide (k ∈ d.*1)) as [Hin|Hout].
      * rewrite decide_True by by right. done.
      * rewrite decide_False; [done|].
        by intros [?|?]%elem_of_cons.
Qed.

(** The three assessments the chain can return, before the timestamp. *)
Lemma chain_cases w ip r :
  assess_device w ip = Ok r →
  ∃ a0, r = dict_set "assessment_timestamp" (JStr (now w)) <$> a0 ∧
    ((PARAMIKO_AVAILABLE w = true ∧ _check_port_open w ip SSH_PORT = true ∧
      _assess_via_ssh w ip = Ok a0 ∧ is_Some a0) ∨
     (ssh_unreachable w ip ∧ WMI_AVAILABLE w = true ∧
      _check_port_open w ip WINRM_PORT = true ∧
      _assess_via_winrm w ip = a0 ∧ is_Some a0) ∨
     (ssh_unreachable w ip ∧ winrm_unreachable w ip ∧
      _assess_via_basic_scan w ip = a0)).
Proof.
  unfold assess_device.
  destruct (PARAMIKO_AVAILABLE w && _check_port_open w ip SSH_PORT) eqn:Hs.
  - apply andb_prop in Hs as [Hp Ho].
    destruct (_assess_via_ssh w ip) as [[a|]|e] eqn:Hssh; cbn [rbind];
      [| |done].
    + intros [= <-]. exists (Some a). split; [done|]. left. by eauto.
    + assert (HU : ssh_unreachable w ip).
      { right. right. revert Hssh. unfold _assess_via_ssh. rewrite Hp.
        cbn [negb]. by destruct (ssh_session w ip). }
      destruct (WMI_AVAILABLE w && _check_port_open w ip WINRM_PORT) eqn:Hw.
      * apply andb_prop in Hw as [Hwa Hwo].
        destruct (_assess_via_winrm w ip) as [a|] eqn:Hwin.
        -- intros [= <-]. exists (Some a). split; [done|].
           right. left. by eauto 10.
        -- intros H. exists (_assess_via_basic_scan w ip).
           split; [by destruct (_assess_via_basic_scan w ip); injection H|].
           right. right. split; [done|]. split; [|done].
           right. right. revert Hwin. unfold _assess_via_winrm.
           rewrite Hwa. cbn [negb]. by destruct (wmi_session w ip).
      * intros H. exists (_assess_via_basic_scan w ip).
        split; [by destruct (_assess_via_basic_scan w ip); injection H|].
        right. right. split; [done|]. split; [|done].
        apply andb_false_iff in Hw as [?|?]; [by left|by right; left].
  - cbn [rbind].
    assert (HU : ssh_unreachable w ip).
    { apply andb_false_iff in Hs as [?|?]; [by left|by right; left]. }
    destruct (WMI_AVAILABLE w && _check_port_open w ip WINRM_PORT) eqn:Hw.
    + apply andb_prop in Hw as [Hwa Hwo].
      destruct (_assess_via_winrm w ip) as [a|] eqn:Hwin.
      * intros [= <-]. exists (Some a). split; [done|].
        right. left. by eauto 10.
      * intros H. exists (_assess_via_basic_scan w ip).
        split; [by destruct (_assess_via_basic_scan w ip); injection H|].
        right. right. split; [done|]. split; [|done].
        right. right. revert Hwin. unfold _assess_via_winrm.
        rewrite Hwa. cbn [negb]. by destruct (wmi_session w ip).
    + intros H. exists (_assess_via_basic_scan w ip).
      split; [by destruct (_assess_via_basic_scan w ip); injection H|].
      right. right. split; [done|]. split; [|done].
      apply andb_false_iff in Hw as [?|?]; [by left|by right; left].
Qed.

(** Inclusion of one explicit list of keys in another. *)
Ltac keys_subset :=
  let k := fresh "k" in
  let Hk := fresh "Hk" in
  intros k Hk;
  repeat (apply elem_of_cons in Hk as [->|Hk];
          [by repeat first [left | right]|]);
  by apply elem_of_nil in Hk.

Lemma basic_scan_some w ip a :
  _assess_via_basic_scan w ip = Some a → responds_to_ping w ip.
Proof.
  unfold _assess_via_basic_scan, responds_to_ping.
  destruct (ping_returncode w ip) as [r|e]; [|done].
  by destruct (Z.eqb_spec r 0) as [->|].
Qed.

(** X11: every assessment the chain returns carries the time of the
    assessment, has no top-level key beyond the six of an assessment, and
    names the method that produced it: [ssh] or [winrm] with a [hardware]
    section, the client being installed and the port open, or
    [basic_scan] without [hardware], after both protocol attempts yielded
    nothing and the host answered ping. *)
Theorem assessment_names_its_method w ip a :
  assess_device w ip = Ok (Some a) →
  dict_lookup "assessment_timestamp" a = Some (JStr (now w)) ∧
  (∀ k, is_Some (dict_lookup k a) → k ∈ assessment_keys) ∧
  ((dict_lookup "assessment_method" a = Some (JStr "ssh") ∧
    is_Some (dict_lookup "hardware" a) ∧
    PARAMIKO_AVAILABLE w = true ∧ _check_port_open w ip SSH_PORT = true) ∨
   (dict_lookup "assessment_method" a = Some (JStr "winrm") ∧
    is_Some (dict_lookup "hardware" a) ∧ ssh_unreachable w ip ∧
    WMI_AVAILABLE w = true ∧ _check_port_open w ip WINRM_PORT = true) ∨
   (dict_lookup "assessment_method" a = Some (JStr "basic_scan") ∧
    dict_lookup "hardware" a = None ∧ ssh_unreachable w ip ∧
    winrm_unreachable w ip ∧ responds_to_ping w ip)).
Proof.
  intros (a0 & Ha & Hcase)%chain_cases.
  destruct a0 as [a'|]; [|done]. injection Ha as ->.
  assert (Hkeys : ∀ b, dict_keys b ⊆ assessment_keys →
            ∀ k, is_Some (dict_lookup k
                   (dict_set "assessment_timestamp" (JStr (now w)) b)) →
                 k ∈ assessment_keys).
  { intros b Hb k Hk%dict_lookup_keys. rewrite dict_keys_set in Hk.
    case_decide; [by apply Hb|].
    apply elem_of_app in Hk as [Hk|Hk]; [by apply Hb|].
    apply list_elem_of_singleton in Hk as ->. unfold assessment_keys.
    by do 5 right; left. }
  destruct Hcase as [(Hp & Ho & Hssh & _)|[(HU & Hwa & Hwo & Hwin & _)|
                     (HU & HW & Hb)]].
  - unfold _assess_via_ssh in Hssh. rewrite Hp in Hssh. cbn [negb] in Hssh.
    destruct (ssh_session w ip) as [f| |e]; [|done..].
    injection Hssh as <-.
    split; [done|]. split.
    { apply Hkeys. unfold dict_keys, assessment_keys. csimpl. keys_subset. }
    left. by eauto.
  - unfold _assess_via_winrm in Hwin. rewrite Hwa in Hwin. cbn [negb] in Hwin.
    destruct (wmi_session w ip) as [f|]; [|done].
    injection Hwin as <-.
    split; [done|]. split.
    { apply Hkeys. unfold dict_keys, assessment_keys. csimpl. keys_subset. }
    right. left. by eauto 10.
  - pose proof (basic_scan_some w ip a' Hb) as Hping.
    rewrite (Chain.basic_scan_alive w ip Hping) in Hb. injection Hb as <-.
    split; [done|]. split.
    { apply Hkeys. unfold dict_keys, assessment_keys. csimpl. keys_subset. }
    right. right. by eauto 10.
Qed.

Lemma assessment_names_its_method_witness :
  ∃ a, assess_device Samples.ping_only_world (JStr "10.0.0.8") = Ok (Some a) ∧
       dict_lookup "assessment_timestamp" a = Some (JStr "2024-01-01T00:00:00").
Proof.
  eexists. split; [reflexivity|].
  exact (proj1 (assessment_names_its_method Samples.ping_only_world
                  (JStr "10.0.0.8") _ eq_refl)).
Defined.

(** X12: the first method that succeeds settles the assessment: a shell
    session that yields its facts gives method [ssh] whatever the
    management protocol or ping would have given, and, the shell attempt
    having yielded nothing, a management session that yields its facts
    gives method [winrm] whether or not the host answers ping. *)
Theorem first_success_settles_the_method w ip :
  (∀ f, PARAMIKO_AVAILABLE w = true → _check_port_open w ip SSH_PORT = true →
        ssh_session w ip = SshFacts f →
        ∃ a, assess_device w ip = Ok (Some a) ∧
             dict_lookup "assessment_method" a = Some (JStr "ssh") ∧
             dict_lookup "operating_system" a =
               Some (JObj [("name", ssh_os_name f);
                           ("version", ssh_os_version f);
                           ("type", JStr "linux")])) ∧
  (∀ f, ssh_unreachable w ip →
        WMI_AVAILABLE w = true → _check_port_open w ip WINRM_PORT = true →
        wmi_session w ip = Some f →
        ∃ a, assess_device w ip = Ok (Some a) ∧
             dict_lookup "assessment_method" a = Some (JStr "winrm") ∧
             dict_lookup "operating_system" a = Some (JObj (wmi_os_details f))).
Proof.
  split.
  - intros f Hp Ho Hs. unfold assess_device, _assess_via_ssh.
    rewrite Hp, Ho, Hs. cbn. eexists. split; [reflexivity|]. by split.
  - intros f HU Hwa Hwo Hs. unfold assess_device.
    assert (H1 : (if PARAMIKO_AVAILABLE w && _check_port_open w ip SSH_PORT
                  then _assess_via_ssh w ip else Ok None) = Ok None).
    { unfold _assess_via_ssh.
      destruct HU as [-> | [-> | ->] ]; [done| |].
      - by rewrite andb_false_r.
      - by repeat case_match. }
    rewrite H1. cbn [rbind]. unfold _assess_via_winrm.
    rewrite Hwa, Hwo, Hs. cbn. eexists. split; [reflexivity|]. by split.
Qed.

Lemma first_success_settles_the_method_witness :
  ∃ a, assess_device Cases.both_protocols_world (JStr "10.0.0.8") = Ok (Some a) ∧
       dict_lookup "assessment_method" a = Some (JStr "ssh").
Proof.
  destruct (proj1 (first_success_settles_the_method Cases.both_protocols_world
                     (JStr "10.0.0.8")) Samples.shell_facts eq_refl eq_refl eq_refl)
    as (a & Ha & Hm & _).
  by exists a.
Defined.

End Profile.

(** ** The assessed set *)

Module Batch.
Import Assessment Shapes.

Lemma dict_lookup_not_key k d : k ∉ dict_keys d → dict_lookup k d = None.
Proof.
  intros Hk. destruct (dict_lookup k d) eqn:E; [|done].
  destruct Hk. apply Profile.dict_lookup_keys. by eexists.
Qed.

Lemma dict_keys_reverse d : dict_keys (reverse d) = reverse (dict_keys d).
Proof. unfold dict_keys. by rewrite fmap_reverse. Qed.

(** Merging an assessment into a device leaves alone every field whose
    key the assessment does not have. *)
Lemma merge_keeps_other_fields device a k :
  k ∉ dict_keys a → dict_lookup k (dict_merge device a) = dict_lookup k device.
Proof.
  intros Hk. rewrite Chain.dict_lookup_merge, dict_lookup_not_key; [done|].
  rewrite dict_keys_reverse, elem_of_reverse. exact Hk.
Qed.

Lemma assessment_keys_bound w ip a :
  assess_device w ip = Ok (Some a) → dict_keys a ⊆ assessment_keys.
Proof.
  intros (a0 & Ha & Hcase)%Profile.chain_cases.
  destruct a0 as [a'|]; [|done]. injection Ha as ->.
  assert (Hset : ∀ b, dict_keys b ⊆ assessment_keys →
            dict_keys (dict_set "assessment_timestamp" (JStr (now w)) b)
              ⊆ assessment_keys).
  { intros b Hb k. rewrite Profile.dict_keys_set.
    case_decide; [by apply Hb|].
    intros [Hk|Hk]%elem_of_app; [by apply Hb|].
    apply list_elem_of_singleton in Hk as ->. by do 5 right; left. }
  apply Hset.
  destruct Hcase as [(Hp & Ho & Hssh & _)|[(HU & Hwa & Hwo & Hwin & _)|
                     (HU & HW & Hb)]].
  - unfold _assess_via_ssh in Hssh. rewrite Hp in Hssh. cbn [negb] in Hssh.
    destruct (ssh_session w ip) as [f| |e]; [|done..].
    injection Hssh as <-. unfold dict_keys, assessment_keys. csimpl.
    by Profile.keys_subset.
  - unfold _assess_via_winrm in Hwin. rewrite Hwa in Hwin. cbn [negb] in Hwin.
    destruct (wmi_session w ip) as [f|]; [|done].
    injection Hwin as <-. unfold dict_keys, assessment_keys. csimpl.
    by Profile.keys_subset.
  - pose proof (Profile.basic_scan_some w ip a' Hb) as Hping.
    rewrite (Chain.basic_scan_alive w ip Hping) in Hb. injection Hb as <-.
    unfold dict_keys, assessment_keys. csimpl. by Profile.keys_subset.
Qed.

Lemma assess_one_cases w device :
  (assess_one w device).1 = [] ∨
  ∃ a, truthy (dict_get "ip_address" JNull device) = true ∧
       assess_device w (dict_get "ip_address" JNull device) = Ok (Some a) ∧
       (assess_one w device).1 = [dict_merge device a].
Proof.
  unfold assess_one.
  destruct (truthy (dict_get "ip_address" JNull device)) eqn:Ht; cbn [negb];
    [|by left].
  destruct (assess_device w _) as [[a|]|e]; [|by left..].
  right. by exists a.
Qed.

(** X13: the assessed set holds at most one record per input device, in
    input order; every record belongs to a device with a non-empty
    address for which the chain returned an assessment, and it has the
    device's own value (or absence) for every field that is not one of
    the six assessment keys, the address and the hostname among them. *)
Theorem assessed_records_extend_their_devices w (devices : list dict) :
  let assessed := (assess_all_devices w devices).1 in
  (dict_get "ip_address" JNull <$> assessed)
    `sublist_of` (dict_get "ip_address" JNull <$> devices) ∧
  Forall (λ record,
            ∃ device a,
              device ∈ devices ∧
              truthy (dict_get "ip_address" JNull device) = true ∧
              assess_device w (dict_get "ip_address" JNull device)
                = Ok (Some a) ∧
              record = dict_merge device a ∧
              ∀ k, k ∉ assessment_keys →
                   dict_lookup k record = dict_lookup k device)
         assessed.
Proof.
  cbv zeta. induction devices as [|d l [IHs IHf]].
  { split; [constructor|constructor]. }
  rewrite Chain.assess_all_devices_cons.
  assert (IHf' : Forall (λ record, ∃ device a,
              device ∈ d :: l ∧
              truthy (dict_get "ip_address" JNull device) = true ∧
              assess_device w (dict_get "ip_address" JNull device)
                = Ok (Some a) ∧
              record = dict_merge device a ∧
              ∀ k, k ∉ assessment_keys →
                   dict_lookup k record = dict_lookup k device)
            (assess_all_devices w l).1).
  { apply (list.Forall_impl _ _ _ IHf).
    intros r (dev & a & Hin & ?). exists dev, a. split; [by right|done]. }
  destruct (assess_one_cases w d) as [-> | (a & Ht & Ha & ->)].
  - split; [|exact IHf']. csimpl. by apply sublist_cons.
  - assert (Hkeep : ∀ k, k ∉ assessment_keys →
              dict_lookup k (dict_merge d a) = dict_lookup k d).
    { intros k Hk. apply merge_keeps_other_fields.
      intros Hin. apply Hk. by apply (assessment_keys_bound w _ a Ha). }
    split.
    + csimpl. unfold dict_get at 1. rewrite Hkeep.
      * by apply sublist_skip.
      * unfold assessment_keys. intros Hin.
        repeat (apply elem_of_cons in Hin as [[=]|Hin]).
        by apply elem_of_nil in Hin.
    + cbn [app]. constructor; [|exact IHf'].
      exists d, a. split; [by left|done].
Qed.

End Batch.

(** ** The link-layer scan, address by address *)

Module Probes.
Import Discovery Shapes.

Lemma arp_probes_app w n ips1 ips2 : ∀ devs,
  arp_probes w n (ips1 ++ ips2) devs =
    match arp_probes w n ips1 devs with
    | (devs1, None) => arp_probes w n ips2 devs1
    | (devs1, Some e) => (devs1, Some e)
    end.
Proof.
  induction ips1 as [|ip ips1 IH]; intros devs; [done|].
  cbn [app arp_probes].
  destruct ((ip =? network_address n) || (ip =? broadcast_address n));
    [apply IH|].
  destruct (srp w ip) as [answers|e]; [|done].
  destruct (arp_answers w (str_of_ip ip) answers devs) as [devs1 [e|]];
    [done|apply IH].
Qed.

Lemma arp_probes_all_skipped w n ips devs :
  Forall (λ ip, ip = network_address n ∨ ip = broadcast_address n) ips →
  arp_probes w n ips devs = (devs, None).
Proof.
  induction 1 as [|ip ips Hip _ IH]; [done|]. cbn [arp_probes].
  assert (Hs : (ip =? network_address n) || (ip =? broadcast_address n) = true).
  { apply orb_true_iff. destruct Hip as [->| ->]; [left|right];
      apply Z.eqb_refl. }
  by rewrite Hs.
Qed.

(** The two addresses of a /31 are its network and broadcast address. *)
Lemma broadcast_of_31 address n :
  IPv4Network address 31 = Ok n →
  network_address n = address ∧ prefixlen n = 31 ∧
  broadcast_address n = address + 1.
Proof.
  unfold IPv4Network. case_match eqn:Hv; [|done]. intros [= <-].
  repeat (apply andb_prop in Hv as [Hv ?]).
  unfold broadcast_address. cbn [network_address prefixlen].
  split; [done|]. split; [done|].
  change (hostmask 31) with 1 in *.
  symmetry. apply Z.add_nocarry_lor. lia.
Qed.

(** X14: on a /31 or /32 subnet the link-layer scan sends no request and
    records nothing: the addresses [hosts()] yields there are the
    network and broadcast addresses, which the loop skips. *)
Theorem point_to_point_subnets_are_not_probed w address prefixlen n devs :
  IPv4Network address prefixlen = Ok n →
  prefixlen = 31 ∨ prefixlen = 32 →
  (scan_with_arp w (address, prefixlen) devs).1 = devs ∧
  (SCAPY_AVAILABLE w = true →
   scan_with_arp w (address, prefixlen) devs = (devs, devs)).
Proof.
  intros Hn Hp.
  assert (Hall : arp_probes w n (hosts n) devs = (devs, None)).
  { apply arp_probes_all_skipped. destruct Hp as [-> | ->].
    - destruct (broadcast_of_31 _ _ Hn) as (Ha & Hl & Hb).
      unfold hosts. rewrite Hl, Hb, Ha. cbn [Z.eqb Pos.eqb].
      apply list.Forall_forall. intros x Hx%elem_of_seqZ. lia.
    - revert Hn. unfold IPv4Network. case_match; [|done]. intros [= <-].
      unfold hosts. cbn [Discovery.prefixlen network_address Z.eqb Pos.eqb].
      apply list.Forall_forall. intros x ->%list_elem_of_singleton. by left. }
  unfold scan_with_arp. cbn [fst snd]. rewrite Hn, Hall.
  destruct (SCAPY_AVAILABLE w); cbn [negb]; by split.
Qed.

Lemma point_to_point_subnets_are_not_probed_witness :
  scan_with_arp Samples.quiet_probe_world (167772162, 31) [] = ([], []).
Proof.
  apply (point_to_point_subnets_are_not_probed Samples.quiet_probe_world
           167772162 31 {| network_address := 167772162; prefixlen := 31 |} []);
    [reflexivity|by left|reflexivity].
Defined.

(** Every address strictly between network and broadcast is probed. *)
Lemma usable_hosts_enumerated address prefixlen n a :
  IPv4Network address prefixlen = Ok n → usable_host n a → a ∈ hosts n.
Proof.
  intros Hn [Hlo Hhi]. unfold hosts.
  destruct (Discovery.prefixlen n =? 31); [apply elem_of_seqZ; lia|].
  destruct (Z.eqb_spec (Discovery.prefixlen n) 32) as [H32|_].
  - unfold broadcast_address in Hhi. rewrite H32 in Hhi.
    change (hostmask 32) with 0 in Hhi. rewrite Z.lor_0_r in Hhi. lia.
  - apply elem_of_seqZ. lia.
Qed.

Lemma arp_answers_ok w ip_str answers : ∀ devs,
  (∀ e, gethostbyaddr w ip_str ≠ OtherFailure e) →
  arp_answers w ip_str answers devs =
    (devs ++ (arp_device w ip_str (hostname_for w ip_str) <$> answers), None).
Proof.
  intros devs Hok. revert devs. unfold hostname_for.
  induction answers as [|mac answers IH]; intros devs; cbn [arp_answers].
  - by rewrite app_nil_r.
  - destruct (gethostbyaddr w ip_str) as [h| |e];
      [| |by destruct (Hok e)]; by rewrite IH, <- app_assoc.
Qed.

Lemma arp_probes_ok w n ips : ∀ devs,
  Forall (λ ip, ip = network_address n ∨ ip = broadcast_address n ∨
                ((∀ e, srp w ip ≠ Raise e) ∧
                 ∀ e, gethostbyaddr w (str_of_ip ip) ≠ OtherFailure e)) ips →
  arp_probes w n ips devs = (devs ++ (ips ≫= recorded w n), None).
Proof.
  intros devs Hall. revert devs.
  induction Hall as [|ip ips Hip _ IH]; intros devs; cbn [arp_probes].
  { by rewrite app_nil_r. }
  csimpl. unfold recorded at 1.
  destruct ((ip =? network_address n) || (ip =? broadcast_address n)) eqn:Hs.
  { by rewrite IH. }
  apply orb_false_elim in Hs as [Hn%Z.eqb_neq Hb%Z.eqb_neq].
  destruct Hip as [?|[?|[Hsrp Hlook]]]; [done..|].
  destruct (srp w ip) as [answers|e]; [|by destruct (Hsrp e)].
  by rewrite (arp_answers_ok w _ answers devs Hlook), IH, <- app_assoc.
Qed.

(** X15: when no request to a usable host raises and no reverse lookup
    fails other than with [socket.herror], the scan of a valid subnet
    returns the list it has built, and that list holds a record for
    every answer of every usable host, under the resolved hostname or
    ["Unknown"]: no answering host is left out. *)
Theorem arp_scan_is_complete w address prefixlen n devs :
  IPv4Network address prefixlen = Ok n →
  SCAPY_AVAILABLE w = true →
  (∀ a, usable_host n a →
        (∀ e, srp w a ≠ Raise e) ∧
        (∀ e, gethostbyaddr w (str_of_ip a) ≠ OtherFailure e)) →
  let scan := scan_with_arp w (address, prefixlen) devs in
  scan.1 = devs ++ (hosts n ≫= recorded w n) ∧
  scan.2 = scan.1 ∧
  ∀ a answers mac,
    usable_host n a → srp w a = Ok answers → mac ∈ answers →
    arp_device w (str_of_ip a) (hostname_for w (str_of_ip a)) mac ∈ scan.1.
Proof.
  intros Hn Hsc Hok scan.
  assert (Hp : arp_probes w n (hosts n) devs =
               (devs ++ (hosts n ≫= recorded w n), None)).
  { apply arp_probes_ok, list.Forall_forall. intros ip Hip%Scan.hosts_in_subnet.
    destruct (decide (ip = network_address n)) as [?|Hne]; [by left|].
    destruct (decide (ip = broadcast_address n)) as [?|Hbe]; [by right; left|].
    right. right. apply Hok. unfold usable_host. lia. }
  assert (Hscan : scan = (devs ++ (hosts n ≫= recorded w n),
                          devs ++ (hosts n ≫= recorded w n))).
  { subst scan. unfold scan_with_arp. cbn [fst snd]. by rewrite Hsc, Hn, Hp. }
  rewrite Hscan. cbn [fst snd]. split; [done|]. split; [done|].
  intros a answers mac Ha Hsrp Hmac.
  apply elem_of_app. right. apply list_elem_of_bind. exists a.
  split; [|by eapply usable_hosts_enumerated].
  unfold recorded. destruct Ha as [Hlo Hhi].
  rewrite (proj2 (Z.eqb_neq _ _)), (proj2 (Z.eqb_neq _ _)) by lia.
  cbn [orb]. rewrite Hsrp. by apply list_elem_of_fmap_2.
Qed.

Lemma arp_scan_is_complete_witness :
  arp_device Samples.quiet_probe_world "10.0.0.2" "Unknown" "aa:bb:cc:dd:ee:02"
    ∈ (scan_with_arp Samples.quiet_probe_world Samples.lan []).1.
Proof.
  refine (proj2 (proj2 (arp_scan_is_complete Samples.quiet_probe_world
                          167772160 29
                          {| network_address := 167772160; prefixlen := 29 |}
                          [] eq_refl eq_refl _))
            Samples.host2 ["aa:bb:cc:dd:ee:02"] "aa:bb:cc:dd:ee:02" _ eq_refl _).
  - intros a _. split; [|done]. intros e. cbn.
    by destruct (a =? Samples.host2).
  - unfold usable_host. vm_compute. done.
  - by left.
Defined.

(** X16: when the request for one address raises, the scan returns the
    empty list, but what it recorded for the addresses before stays in
    the discovered-device list, which is what [main] saves. *)
Theorem records_before_a_failure_are_kept
    w address prefixlen n ips1 ip rest devs1 e :
  IPv4Network address prefixlen = Ok n →
  SCAPY_AVAILABLE w = true →
  hosts n = ips1 ++ ip :: rest →
  arp_probes w n ips1 [] = (devs1, None) →
  ip ≠ network_address n → ip ≠ broadcast_address n →
  srp w ip = Raise e →
  scan_with_arp w (address, prefixlen) [] = (devs1, []) ∧
  main w (address, prefixlen) false true false = devs1.
Proof.
  intros Hn Hsc Hh H1 Hne Hbe Hsrp.
  assert (Hscan : scan_with_arp w (address, prefixlen) [] = (devs1, [])).
  { unfold scan_with_arp. cbn [fst snd].
    rewrite Hsc, Hn, Hh, arp_probes_app, H1. cbn [negb arp_probes].
    rewrite (proj2 (Z.eqb_neq _ _) Hne), (proj2 (Z.eqb_neq _ _) Hbe).
    cbn [orb]. by rewrite Hsrp. }
  split; [exact Hscan|]. unfold main. cbv zeta. by rewrite Hscan.
Qed.

Lemma records_before_a_failure_are_kept_witness :
  scan_with_arp Cases.late_failure_world Samples.lan [] =
    ([arp_device Cases.late_failure_world "10.0.0.1" "Unknown"
        "aa:bb:cc:dd:ee:01"], []) ∧
  main Cases.late_failure_world Samples.lan false true false =
    [arp_device Cases.late_failure_world "10.0.0.1" "Unknown"
       "aa:bb:cc:dd:ee:01"].
Proof.
  apply (records_before_a_failure_are_kept Cases.late_failure_world
           167772160 29 {| network_address := 167772160; prefixlen := 29 |}
           [Samples.host1] Samples.host2
           [167772163; 167772164; 167772165; 167772166] _ OSError);
    try done; vm_compute; reflexivity.
Defined.

End Probes.

(** ** From one stage to the next *)

Module Pipeline.
Import Inventory Shapes.

Lemma truthy_text x : x ≠ "" → truthy (JStr x) = true.
Proof. intros H. cbn. by apply String.eqb_neq in H as ->. Qed.

Lemma str_of_ip_not_empty a : Discovery.str_of_ip a ≠ "".
Proof.
  unfold Discovery.str_of_ip.
  by destruct (pretty (Discovery.octet a 3)).
Qed.

(** X17: a record made by the link-layer scan after a failed reverse
    lookup is always placed by the generator: under the key derived from
    its address, in the [other] family with the address as its only
    variable, and in [ungrouped]. *)
Theorem unresolved_arp_record_placement w a mac :
  placement (Discovery.arp_device w (Discovery.str_of_ip a) "Unknown" mac) =
    Some {| p_key := "host_" +:+ Str.replace_char "." "_" (Discovery.str_of_ip a);
            p_os := other;
            p_role := ungrouped;
            p_vars := {["ansible_host" := JStr (Discovery.str_of_ip a)]} |}.
Proof.
  pose proof (truthy_text _ (str_of_ip_not_empty a)) as Ht.
  revert Ht. generalize (Discovery.str_of_ip a). intros x Ht.
  unfold placement, Discovery.arp_device, dict_get.
  cbn [dict_lookup String.eqb Ascii.eqb Bool.eqb].
  rewrite Ht. reflexivity.
Qed.

Lemma safe_hostname_of_texts s x : ∃ n, _safe_hostname (JStr s) (JStr x) = Ok n.
Proof.
  unfold _safe_hostname, ip_key. repeat case_match; eauto.
Qed.

(** The family read off the open ports alone. *)
Lemma os_type_without_os_data device :
  dict_lookup "operating_system" device = None →
  _determine_os_type device = Ok (os_from_ports device).
Proof. unfold _determine_os_type. by intros ->. Qed.

(** X18: the generator never reads the OS fingerprint of a scan record
    (it is stored under [os], not [operating_system]): a record made by
    the scan method is placed in the family its open ports alone
    indicate (a management port: windows; else port 22: linux; else
    other), never in the [virtualization] role, and with no variable
    besides the address and the connection settings of that family. *)
Theorem scan_record_family_from_ports w h :
  Discovery.nm_host h ≠ "" →
  ∃ p, placement (Discovery.nmap_device w h) = Some p ∧
       p_os p =
         (if any_port [3389; 5985; 5986] (Discovery.nm_open_ports h) then windows
          else if any_port [22] (Discovery.nm_open_ports h) then linux
          else other) ∧
       p_role p ≠ virtualization ∧
       ∀ k, k ∉ ["ansible_host"; "ansible_connection";
                 "ansible_winrm_server_cert_validation"] →
            p_vars p !! k = None.
Proof.
  intros Hhost%truthy_text. destruct h as [host hostname mac os ports].
  cbn [Discovery.nm_host Discovery.nm_open_ports] in *.
  set (d := Discovery.nmap_device w _).
  set (name := if String.eqb hostname "" then "Unknown" else hostname).
  assert (Hip : dict_get "ip_address" JNull d = JStr host) by done.
  assert (Hhn : dict_get "hostname" (JStr "unknown") d = JStr name) by done.
  assert (Hhn' : dict_get "hostname" (JStr "") d = JStr name) by done.
  assert (Hos : dict_lookup "operating_system" d = None) by done.
  assert (Hhw : dict_lookup "hardware" d = None) by done.
  assert (Hpo : dict_lookup "open_ports" d = Some (JArr ports)) by done.
  clearbody d name.
  unfold placement. rewrite Hip, Hhn, Hhost. cbn [negb].
  destruct (safe_hostname_of_texts name host) as [key ->]. cbn [rbind].
  rewrite (os_type_without_os_data d Hos). cbn [rbind].
  unfold os_from_ports at 1 2. rewrite Hpo.
  set (family := if any_port [3389; 5985; 5986] ports then windows
                 else if any_port [22] ports then linux else other).
  assert (Hrole : ∃ r, _determine_device_role d = Ok r ∧ r ≠ virtualization).
  { unfold _determine_device_role, virtualization_flag.
    rewrite Hhn', Hhw, Hpo. cbn [rbind]. repeat case_match; eauto. }
  destruct Hrole as (r & -> & Hr). cbn [rbind].
  unfold build_host_vars. rewrite Hhw. cbn [rbind].
  eexists. split; [reflexivity|]. cbn [p_os p_role p_vars].
  split; [done|]. split; [done|].
  intros k Hk.
  assert (k ≠ "ansible_host" ∧ k ≠ "ansible_connection" ∧
          k ≠ "ansible_winrm_server_cert_validation") as (? & ? & ?).
  { repeat split; intros ->; apply Hk; by repeat first [left | right]. }
  destruct family; by rewrite ?lookup_insert_ne, lookup_singleton_ne.
Qed.

Lemma scan_record_family_from_ports_witness :
  ∃ p, placement (Discovery.nmap_device Samples.three_views_world
                    {| Discovery.nm_host := "10.0.0.2";
                       Discovery.nm_hostname := "alpha.lan";
                       Discovery.nm_mac := None;
                       Discovery.nm_os := [("name", JStr "Microsoft Windows 10")];
                       Discovery.nm_open_ports := [JObj [("port", JNum 22)]] |})
         = Some p ∧ p_os p = linux.
Proof.
  destruct (scan_record_family_from_ports Samples.three_views_world
              {| Discovery.nm_host := "10.0.0.2";
                 Discovery.nm_hostname := "alpha.lan";
                 Discovery.nm_mac := None;
                 Discovery.nm_os := [("name", JStr "Microsoft Windows 10")];
                 Discovery.nm_open_ports := [JObj [("port", JNum 22)]] |})
    as (p & Hp & Hos & _); [done|].
  by exists p.
Defined.

(** X19: a device assessed over the shell is, for the generator, a Linux
    host reached over ssh whose variables repeat the assessed CPU count
    and architecture, memory total and virtualization flag as they were
    parsed; with the flag set, its role is [virtualization] unless its
    hostname names network or storage gear. *)
Theorem shell_assessed_device_in_inventory w (device : dict) f :
  let ip := dict_get "ip_address" JNull device in
  truthy ip = true →
  Assessment.PARAMIKO_AVAILABLE w = true →
  Assessment._check_port_open w ip Assessment.SSH_PORT = true →
  Assessment.ssh_session w ip = Assessment.SshFacts f →
  ∃ record,
    (Assessment.assess_one w device).1 = [record] ∧
    _determine_os_type record = Ok linux ∧
    (∃ hv, build_host_vars ip linux record = Ok hv ∧
           hv !! "ansible_connection" = Some (JStr "ssh") ∧
           hv !! "cpu_cores" = Some (Assessment.ssh_cpu_cores f) ∧
           hv !! "cpu_arch" = Some (Assessment.ssh_cpu_arch f) ∧
           hv !! "memory_mb" = Some (Assessment.ssh_total_memory f) ∧
           hv !! "virtualization_support" =
             Some (JBool (Assessment.ssh_virt_support f))) ∧
    (Assessment.ssh_virt_support f = true →
     ∀ r, _determine_device_role record = Ok r →
          r ∈ [network; storage; virtualization]).
Proof.
  intros ip Ht Hp Ho Hs.
  unfold Assessment.assess_one. fold ip. rewrite Ht. cbn [negb].
  unfold Assessment.assess_device, Assessment._assess_via_ssh.
  rewrite Hp, Ho, Hs. cbn [andb negb rbind].
  eexists. split; [reflexivity|].
  match goal with |- context [dict_merge device ?a] => set (a0 := a) end.
  assert (Hos : dict_lookup "operating_system" (dict_merge device a0) =
                Some (JObj [("name", Assessment.ssh_os_name f);
                            ("version", Assessment.ssh_os_version f);
                            ("type", JStr "linux")])).
  { by rewrite Chain.dict_lookup_merge. }
  assert (Hhw : dict_lookup "hardware" (dict_merge device a0) =
                Some (JObj [("cpu", JObj [("cores", Assessment.ssh_cpu_cores f);
                                          ("architecture", Assessment.ssh_cpu_arch f)]);
                            ("memory", JObj [("total_mb", Assessment.ssh_total_memory f)]);
                            ("storage", JArr (Assessment.ssh_disks f));
                            ("virtualization_support",
                             JBool (Assessment.ssh_virt_support f))])).
  { by rewrite Chain.dict_lookup_merge. }
  clearbody a0. split; [|split].
  - unfold _determine_os_type. by rewrite Hos.
  - unfold build_host_vars. rewrite Hhw. cbn [dict_lookup String.eqb Ascii.eqb
      Bool.eqb rbind dict_get].
    eexists. split; [reflexivity|].
    repeat split;
      repeat (first [rewrite lookup_insert_eq
                    |rewrite lookup_insert_ne by done]); done.
  - intros Hv r. unfold _determine_device_role, virtualization_flag.
    rewrite Hhw. cbn [dict_lookup String.eqb Ascii.eqb Bool.eqb].
    rewrite Hv. cbn [truthy rbind].
    destruct (dict_get "hostname" (JStr "") (dict_merge device a0));
      try done. cbn [rbind].
    repeat case_match; intros [= <-]; by repeat first [left | right].
Qed.

Lemma shell_assessed_device_in_inventory_witness :
  ∃ record,
    (Assessment.assess_one Samples.no_icmp_world Samples.db01).1 = [record] ∧
    _determine_os_type record = Ok linux.
Proof.
  destruct (shell_assessed_device_in_inventory Samples.no_icmp_world
              Samples.db01 Samples.shell_facts eq_refl eq_refl eq_refl eq_refl)
    as (record & H1 & H2 & _).
  by exists record.
Defined.

(** X20: a device known only from the basic scan gets the family the
    scan guessed, [windows] or [linux]; when the guess is [unknown], the
    generator falls back on the device's own [open_ports] list from
    discovery (the ports the basic scan found are stored elsewhere and
    are not read). *)
Theorem basic_scan_device_family w (device : dict) :
  let ip := dict_get "ip_address" JNull device in
  truthy ip = true →
  Assessment.ssh_unreachable w ip → Assessment.winrm_unreachable w ip →
  Assessment.responds_to_ping w ip →
  ∃ record,
    (Assessment.assess_one w device).1 = [record] ∧
    dict_lookup "open_ports" record = dict_lookup "open_ports" device ∧
    _determine_os_type record =
      Ok (let is_open := Assessment._check_port_open w ip in
          if is_open 3389 || is_open 5985 then windows
          else if is_open 22 && negb (is_open 445) then linux
          else os_from_ports device).
Proof.
  intros ip Ht Hssh Hwin Hping.
  unfold Assessment.assess_one. fold ip. rewrite Ht. cbn [negb].
  rewrite (Chain.chain_falls_through w ip Hssh Hwin),
    (Chain.basic_scan_alive w ip Hping).
  cbn [fmap option_fmap option_map].
  eexists. split; [reflexivity|].
  match goal with |- context [dict_merge device ?a] => set (a0 := a) end.
  assert (Hos : dict_lookup "operating_system" (dict_merge device a0) =
                Some (JObj [("type", JStr (Assessment.os_rule
                                             (Assessment._check_port_open w ip)))])).
  { by rewrite Chain.dict_lookup_merge. }
  assert (Hpo : dict_lookup "open_ports" (dict_merge device a0) =
                dict_lookup "open_ports" device).
  { by rewrite Chain.dict_lookup_merge. }
  clearbody a0. split; [exact Hpo|].
  unfold _determine_os_type. rewrite Hos.
  cbn [dict_lookup String.eqb Ascii.eqb Bool.eqb].
  unfold os_from_ports. rewrite Hpo. unfold Assessment.os_rule.
  destruct (_ || _); [done|]. by destruct (_ && _).
Qed.

Lemma basic_scan_device_family_witness :
  ∃ record,
    (Assessment.assess_one Samples.ping_only_world Samples.router).1 = [record] ∧
    _determine_os_type record = Ok linux.
Proof.
  destruct (basic_scan_device_family Samples.ping_only_world Samples.router)
    as (record & H1 & _ & H2); try done.
  - right. right. reflexivity.
  - left. reflexivity.
  - by exists record.
Defined.

End Pipeline.

(** ** Ports and OS guesses taken from the scanner *)

Module Extraction.
Import Nmap.

Lemma collect_ports_readable proto ports : ∀ acc,
  readable ports →
  collect_ports proto ports acc =
    Some (acc ++ omap (λ pi, port_entry proto pi.1 pi.2) (open_of ports)).
Proof.
  unfold readable, open_of.
  induction ports as [|[port info] ports IH]; intros acc Hr.
  { by rewrite app_nil_r. }
  apply list.Forall_cons in Hr as [[[b Hb] Hname] Hr]. cbn [fst snd] in *.
  cbn [collect_ports]. rewrite filter_cons. cbn [snd]. rewrite Hb.
  destruct b.
  - destruct (Hname Hb) as [nm Hnm].
    rewrite decide_True by done. cbn [omap list_omap fst snd].
    assert (He : is_Some (port_entry proto port info)).
    { unfold port_entry. rewrite Hnm. by eexists. }
    destruct He as [e He]. rewrite He.
    by rewrite (IH _ Hr), <- app_assoc.
  - rewrite decide_False by done. by apply IH.
Qed.

Lemma collect_protocols_readable protos : ∀ acc,
  Forall (λ pp, readable pp.2) protos →
  collect_protocols protos acc =
    Some (acc ++ (protos ≫= λ pp,
                    omap (λ pi, port_entry pp.1 pi.1 pi.2) (open_of pp.2))).
Proof.
  induction protos as [|[proto ports] protos IH]; intros acc Hr.
  { by rewrite app_nil_r. }
  apply list.Forall_cons in Hr as [Hp Hr]. cbn [fst snd] in *.
  cbn [collect_protocols]. rewrite (collect_ports_readable _ _ _ Hp).
  rewrite (IH _ Hr). csimpl. by rewrite <- app_assoc.
Qed.

Lemma open_entries_length proto ports :
  readable ports →
  length (omap (λ pi, port_entry proto pi.1 pi.2) (open_of ports)) =
    length (open_of ports).
Proof.
  unfold readable, open_of.
  induction 1 as [|[port info] l [_ Hn] _ IH]; [done|].
  rewrite filter_cons. cbn [fst snd] in *. case_decide as Ho; [|exact IH].
  cbn [omap list_omap fst snd].
  assert (He : is_Some (port_entry proto port info)).
  { unfold port_entry. destruct (Hn Ho) as [nm ->]. by eexists. }
  destruct He as [e ->]. cbn [length]. by rewrite IH.
Qed.

(** X21: when every port of the scanner's data has a state and every
    open port a service name, the helper returns one entry per open
    port and none for the others, in the order of the protocols and of
    their ports, each entry naming its port and protocol. *)
Theorem open_ports_are_the_open_ones data :
  Forall (λ pp, readable pp.2) (protocols data) →
  _get_open_ports data =
    (protocols data ≫= λ pp,
       omap (λ pi, port_entry pp.1 pi.1 pi.2) (open_of pp.2)) ∧
  length (_get_open_ports data) =
    length (protocols data ≫= λ pp, open_of pp.2).
Proof.
  intros Hr. unfold _get_open_ports.
  rewrite (collect_protocols_readable _ [] Hr). cbn [app].
  split; [done|].
  induction Hr as [|[proto ports] protos Hp _ IH]; [done|].
  csimpl. by rewrite !length_app, IH, (open_entries_length proto ports Hp).
Qed.

Lemma collect_ports_unreadable proto ports port info : ∀ acc,
  (port, info) ∈ ports →
  state_is_open info = None ∨
  (state_is_open info = Some true ∧ dict_lookup "name" info = None) →
  collect_ports proto ports acc = None.
Proof.
  induction ports as [|[port' info'] ports IH]; intros acc Hin Hbad.
  { by apply elem_of_nil in Hin. }
  cbn [collect_ports].
  apply elem_of_cons in Hin as [[= <- <-]|Hin].
  - destruct Hbad as [-> | [-> Hn] ]; [done|].
    unfold port_entry. by rewrite Hn.
  - destruct (state_is_open info') as [[|]|]; [|by apply IH|done].
    destruct (port_entry proto port' info'); [by apply IH|done].
Qed.

(** X22: one port entry that cannot be read empties the result: if any
    port of any protocol has no ['state'], or is open and has no
    ['name'], the helper returns the empty list, dropping the open ports
    it had already collected. *)
Theorem one_unreadable_port_drops_all data proto ports port info :
  (proto, ports) ∈ protocols data →
  (port, info) ∈ ports →
  dict_lookup "state" info = None ∨
  (dict_lookup "state" info = Some (JStr "open") ∧
   dict_lookup "name" info = None) →
  _get_open_ports data = [].
Proof.
  intros Hp Hi Hbad. unfold _get_open_ports.
  assert (Hbad' : state_is_open info = None ∨
                  (state_is_open info = Some true ∧
                   dict_lookup "name" info = None)).
  { unfold state_is_open.
    destruct Hbad as [-> | [-> ->] ]; [by left|by right]. }
  assert (H : ∀ acc, collect_protocols (protocols data) acc = None).
  { induction (protocols data) as [|[proto' ports'] protos IH]; intros acc.
    { by apply elem_of_nil in Hp. }
    cbn [collect_protocols].
    apply elem_of_cons in Hp as [[= <- <-]|Hp].
    - by rewrite (collect_ports_unreadable proto ports port info acc Hi Hbad').
    - destruct (collect_ports proto' ports' acc); [by apply IH|done]. }
  by rewrite H.
Qed.

Lemma open_ports_are_the_open_ones_witness :
  length (_get_open_ports Cases.scanned) = 2%nat.
Proof.
  refine (eq_trans (proj2 (open_ports_are_the_open_ones Cases.scanned _)) _);
    [|reflexivity].
  repeat constructor; cbn; eauto.
Defined.

Lemma one_unreadable_port_drops_all_witness :
  _get_open_ports Cases.scanned_badly = [].
Proof.
  eapply (one_unreadable_port_drops_all Cases.scanned_badly "tcp"
            _ 443 [("name", JStr "https")]).
  - by left.
  - by do 2 right; left.
  - by left.
Defined.

(** X23: the OS details always have the three keys [name], [accuracy]
    and [matches]; [matches] lists at most three names, and it is either
    empty, under the name ["Unknown"] with accuracy ["0"], or starts with
    the name given as [name], that of the first match. *)
Theorem os_details_shape data :
  ∃ name accuracy names,
    _get_os_details data =
      [("name", name); ("accuracy", accuracy); ("matches", JArr names)] ∧
    (length names ≤ 3)%nat ∧
    (names = [] ∧ name = JStr "Unknown" ∧ accuracy = JStr "0" ∨
     head names = Some name ∧
     ∃ best others, osmatch data = Some (best :: others) ∧
                    dict_lookup "name" best = Some name ∧
                    dict_lookup "accuracy" best = Some accuracy).
Proof.
  assert (Hunk : ∃ name accuracy names,
            unknown_os =
              [("name", name); ("accuracy", accuracy); ("matches", JArr names)] ∧
            (length names ≤ 3)%nat ∧
            (names = [] ∧ name = JStr "Unknown" ∧ accuracy = JStr "0" ∨
             head names = Some name ∧
             ∃ best others, osmatch data = Some (best :: others) ∧
                            dict_lookup "name" best = Some name ∧
                            dict_lookup "accuracy" best = Some accuracy)).
  { exists (JStr "Unknown"), (JStr "0"), []. split; [done|].
    split; [cbn; lia|]. by left. }
  assert (Hlen : ∀ l names, match_names l = Some names → length names = length l).
  { induction l as [|m l IH]; intros names; cbn [match_names].
    - by intros [= <-].
    - destruct (dict_lookup "name" m); [|done].
      destruct (match_names l) as [ns|]; [|done].
      intros [= <-]. cbn. f_equal. by apply IH. }
  unfold _get_os_details.
  destruct (osmatch data) as [[|best others]|] eqn:Hm; try exact Hunk.
  destruct (dict_lookup "name" best) as [name|] eqn:Hn; [|exact Hunk].
  destruct (dict_lookup "accuracy" best) as [accuracy|] eqn:Ha; [|exact Hunk].
  destruct (match_names (take 3 (best :: others))) as [names|] eqn:Hns;
    [|exact Hunk].
  exists name, accuracy, names. split; [done|]. split.
  - rewrite (Hlen _ _ Hns), length_take. lia.
  - right. split; [|by exists best, others].
    cbn [take match_names] in Hns. rewrite Hn in Hns.
    destruct (match_names (take 2 others)); [|done]. by injection Hns as <-.
Qed.

End Extraction.

(** ** The lease file *)

Module LeaseTable.
Import Text Leases.

Lemma append_cons c (a b : string) : String c a +:+ b = String c (a +:+ b).
Proof. done. Qed.

Lemma append_nil (b : string) : EmptyString +:+ b = b.
Proof. done. Qed.

Lemma append_empty (a : string) : a +:+ EmptyString = a.
Proof. induction a as [|x a IH]; [done|]. rewrite append_cons. by f_equal. Qed.

Lemma append_assoc (a b c : string) : (a +:+ b) +:+ c = a +:+ (b +:+ c).
Proof.
  induction a as [|x a IH]; [done|]. rewrite !append_cons. by f_equal.
Qed.

Lemma prefix_cons a s1 b s2 :
  String.prefix (String a s1) (String b s2) = Ascii.eqb a b && String.prefix s1 s2.
Proof.
  cbn. destruct (ascii_dec a b) as [->|Hne].
  - by rewrite Ascii.eqb_refl.
  - by destruct (Ascii.eqb_spec a b).
Qed.

Lemma prefix_nil s : String.prefix EmptyString s = true.
Proof. by destruct s. Qed.

Lemma prefix_of_nil p : String.prefix p EmptyString = true → p = EmptyString.
Proof. by destruct p. Qed.

Lemma prefix_trans a b c :
  String.prefix a b = true → String.prefix b c = true → String.prefix a c = true.
Proof.
  revert a b. induction c as [|z c IH]; intros a b Hab Hbc.
  - apply prefix_of_nil in Hbc as ->. by apply prefix_of_nil in Hab as ->.
  - destruct a as [|x a]; [done|]. destruct b as [|y b]; [done|].
    rewrite prefix_cons in *.
    apply andb_true_iff in Hab as [Hxy Hab], Hbc as [Hyz Hbc].
    apply Ascii.eqb_eq in Hxy as ->. rewrite Hyz. cbn. by eapply IH.
Qed.

Lemma contains_cons p c s :
  Str.contains p (String c s) = String.prefix p (String c s) || Str.contains p s.
Proof. done. Qed.

Lemma contains_nil p : Str.contains p EmptyString = String.prefix p EmptyString.
Proof. cbn. by rewrite orb_false_r. Qed.

Lemma contains_of_prefix p r s :
  String.prefix r s = true → Str.contains p r = true → Str.contains p s = true.
Proof.
  revert s. induction r as [|c r IH]; intros s Hrs Hp.
  - rewrite contains_nil in Hp. apply prefix_of_nil in Hp as ->.
    destruct s; cbn; by rewrite ?prefix_nil.
  - destruct s as [|d s]; [done|].
    rewrite contains_cons in Hp. rewrite contains_cons.
    apply orb_true_iff in Hp as [Hp|Hp].
    + by rewrite (prefix_trans _ _ _ Hp Hrs).
    + rewrite prefix_cons in Hrs. apply andb_true_iff in Hrs as [_ Hrs].
      rewrite (IH s Hrs Hp). by rewrite orb_true_r.
Qed.

Lemma contains_tail p c s :
  Str.contains p s = true → Str.contains p (String c s) = true.
Proof. intros H. rewrite contains_cons, H. by rewrite orb_true_r. Qed.

Lemma rstrip_prefix f s : String.prefix (rstrip f s) s = true.
Proof.
  induction s as [|c s IH]; [done|].
  cbn [rstrip]. destruct (rstrip f s) as [|d r] eqn:E.
  - destruct (f c); [done|]. rewrite prefix_cons, Ascii.eqb_refl. by rewrite prefix_nil.
  - by rewrite prefix_cons, Ascii.eqb_refl.
Qed.

Lemma contains_lstrip p f s :
  Str.contains p (lstrip f s) = true → Str.contains p s = true.
Proof.
  induction s as [|c s IH]; [done|].
  cbn [lstrip]. destruct (f c); [|done].
  intros H. by apply contains_tail, IH.
Qed.

Lemma contains_strip p s :
  Str.contains p (strip s) = true → Str.contains p s = true.
Proof.
  intros H. apply (contains_lstrip p isspace).
  by apply (contains_of_prefix p _ _ (rstrip_prefix isspace _)).
Qed.

Lemma split_on_head sep s :
  ∃ h t, split_on sep s = h :: t ∧ String.prefix h s = true.
Proof.
  induction s as [|c s (h & t & E & Hp)].
  - by exists EmptyString, [].
  - cbn [split_on]. destruct (Ascii.eqb c sep).
    + by eexists _, _.
    + rewrite E. cbn [cons_head]. eexists _, _. split; [done|].
      by rewrite prefix_cons, Ascii.eqb_refl.
Qed.

Lemma contains_piece p sep s x :
  x ∈ split_on sep s → Str.contains p x = true → Str.contains p s = true.
Proof.
  revert x. induction s as [|c s IH]; intros x Hx Hp.
  - cbn in Hx. by apply list_elem_of_singleton in Hx as ->.
  - cbn [split_on] in Hx. destruct (Ascii.eqb c sep).
    + apply elem_of_cons in Hx as [->|Hx].
      * rewrite contains_nil in Hp. apply prefix_of_nil in Hp as ->.
        cbn. by rewrite ?prefix_nil.
      * by apply contains_tail, (IH x).
    + destruct (split_on_head sep s) as (h & t & E & Hh).
      rewrite E in Hx, IH. cbn [cons_head] in Hx.
      apply elem_of_cons in Hx as [->|Hx].
      * rewrite contains_cons in Hp. rewrite contains_cons.
        apply orb_true_iff in Hp as [Hp|Hp].
        -- rewrite (prefix_trans _ (String c h) _ Hp); [done|].
           by rewrite prefix_cons, Ascii.eqb_refl.
        -- rewrite (IH h); [by rewrite orb_true_r| |done]. by left.
      * apply contains_tail, (IH x); [|done]. by right.
Qed.

Lemma split_no_marker sep s :
  Str.contains sep s = false → split_str sep s = [s].
Proof.
  unfold split_str. induction s as [|c s IH]; [done|].
  rewrite contains_cons. intros [Hp Hc]%orb_false_iff.
  cbn [split_go]. rewrite Hp, (IH Hc). done.
Qed.

Lemma fold_keeps_mac lines state :
  Forall (λ line, Str.contains "hardware ethernet" (strip line) = false) lines →
  (foldl scan_line state lines).1 = state.1.
Proof.
  revert state. induction lines as [|line lines IH]; intros state Hall; [done|].
  apply list.Forall_cons in Hall as [Hline Hall]. cbn [foldl].
  rewrite (IH _ Hall). unfold scan_line. rewrite Hline.
  by destruct (Str.contains "client-hostname" _).
Qed.

Lemma fold_keeps_hostname lines state :
  Forall (λ line, Str.contains "client-hostname" (strip line) = false) lines →
  (foldl scan_line state lines).2 = state.2.
Proof.
  revert state. induction lines as [|line lines IH]; intros state Hall; [done|].
  apply list.Forall_cons in Hall as [Hline Hall]. cbn [foldl].
  rewrite (IH _ Hall). unfold scan_line. rewrite Hline.
  by destruct (Str.contains "hardware ethernet" _).
Qed.

Lemma lines_without p lease :
  Str.contains p lease = false →
  Forall (λ line, Str.contains p (strip line) = false) (split_on newline lease).
Proof.
  intros H. apply list.Forall_forall. intros line Hline.
  destruct (Str.contains p (strip line)) eqn:E; [|done].
  apply contains_strip in E. by rewrite (contains_piece _ _ _ _ Hline E) in H.
Qed.

(** X24: a lease file in which the word [lease] followed by a space
    does not occur yields no lease at all, whatever else it holds: the
    text before the first occurrence is never read. *)
Theorem no_marker_no_lease content :
  Str.contains "lease " content = false → parse_leases content = [].
Proof. intros H. unfold parse_leases. by rewrite (split_no_marker _ _ H). Qed.

Lemma no_marker_no_lease_witness : parse_leases Cases.lease_header = [].
Proof. apply no_marker_no_lease. vm_compute. reflexivity. Defined.

(** X25: a lease whose text nowhere holds the words [hardware ethernet]
    gives no record, whatever address and host name it states. *)
Theorem lease_without_hardware_line_is_dropped lease :
  Str.contains "hardware ethernet" lease = false → parse_lease lease = None.
Proof.
  intros H. unfold parse_lease.
  pose proof (fold_keeps_mac _ (None, None) (lines_without _ _ H)) as Hmac.
  destruct (foldl scan_line _ _) as [mac hostname]. cbn in Hmac. subst mac.
  by repeat case_match.
Qed.

Lemma lease_without_hardware_line_is_dropped_witness :
  parse_lease Cases.released_lease_text = None.
Proof.
  apply lease_without_hardware_line_is_dropped. vm_compute. reflexivity.
Defined.

(** X26: a lease whose text nowhere holds the word [client-hostname]
    is read without a host name, and the device record made from it
    carries the host name [Unknown]. *)
Theorem lease_without_hostname_is_unknown w lease l :
  Str.contains "client-hostname" lease = false →
  parse_lease lease = Some l →
  Discovery.l_hostname l = None ∧
  dict_lookup "hostname" (Discovery.dhcp_device w l) = Some (JStr "Unknown").
Proof.
  intros H. unfold parse_lease.
  pose proof (fold_keeps_hostname _ (None, None) (lines_without _ _ H)) as Hh.
  destruct (foldl scan_line _ _) as [mac hostname]. cbn in Hh. subst hostname.
  intros Hl.
  assert (Discovery.l_hostname l = None) as E.
  { repeat case_match; simplify_eq; done. }
  split; [done|]. unfold Discovery.dhcp_device. rewrite E. done.
Qed.

Lemma lease_without_hostname_is_unknown_witness :
  dict_lookup "hostname"
    (Discovery.dhcp_device Samples.quiet_probe_world Cases.lease_nameless)
  = Some (JStr "Unknown").
Proof.
  apply (lease_without_hostname_is_unknown Samples.quiet_probe_world
           (lease_text Cases.lease_nameless) Cases.lease_nameless);
    vm_compute; reflexivity.
Defined.

Lemma mem_char_append c a b :
  Str.mem_char c (a +:+ b) = Str.mem_char c a || Str.mem_char c b.
Proof.
  induction a as [|x a IH]; [done|].
  rewrite append_cons. cbn [Str.mem_char]. by rewrite IH, orb_assoc.
Qed.

Lemma forallb_mem p c s :
  Str.forallb p s = true → p c = false → Str.mem_char c s = false.
Proof.
  intros Hs Hc. induction s as [|x s IH]; [done|].
  cbn in Hs. apply andb_true_iff in Hs as [Hx Hs].
  cbn [Str.mem_char]. rewrite (IH Hs), orb_false_r.
  destruct (Ascii.eqb_spec c x) as [->|]; [congruence|done].
Qed.

Lemma forallb_impl (p q : ascii → bool) s :
  (∀ c, p c = true → q c = true) →
  Str.forallb p s = true → Str.forallb q s = true.
Proof.
  intros Hpq. induction s as [|x s IH]; [done|]. cbn.
  intros [Hx Hs]%andb_true_iff. by rewrite (Hpq _ Hx), (IH Hs).
Qed.

Lemma plain_token s : plain s → token s.
Proof. apply forallb_impl. by intros c [? _]%andb_true_iff. Qed.

Lemma token_no_space s : token s → Str.mem_char " " s = false.
Proof. intros H. by apply (forallb_mem _ _ _ H). Qed.

Lemma token_no_newline s : token s → Str.mem_char newline s = false.
Proof. intros H. by apply (forallb_mem _ _ _ H). Qed.

Lemma split_on_line sep x rest :
  Str.mem_char sep x = false →
  split_on sep (x +:+ String sep rest) = x :: split_on sep rest.
Proof.
  induction x as [|a x IH]; intros Hx.
  - rewrite append_nil. cbn [split_on]. by rewrite Ascii.eqb_refl.
  - cbn [Str.mem_char] in Hx. apply orb_false_iff in Hx as [Ha Hx].
    rewrite append_cons. cbn [split_on].
    rewrite Ascii.eqb_sym, Ha, (IH Hx). done.
Qed.

Lemma split_on_last sep x :
  Str.mem_char sep x = false → split_on sep x = [x].
Proof.
  induction x as [|a x IH]; intros Hx; [done|].
  cbn [Str.mem_char] in Hx. apply orb_false_iff in Hx as [Ha Hx].
  cbn [split_on]. rewrite Ascii.eqb_sym, Ha, (IH Hx). done.
Qed.

Lemma split_unlines lines :
  Forall (λ line, Str.mem_char newline line = false) lines →
  split_on newline (unlines lines) = lines ++ [EmptyString].
Proof.
  induction 1 as [|line lines Hline _ IH]; [done|].
  cbn [unlines foldr]. rewrite (split_on_line _ _ _ Hline).
  cbn [app]. f_equal. exact IH.
Qed.

Lemma rstrip_last f x c :
  f c = false → rstrip f (x +:+ String c EmptyString) = x +:+ String c EmptyString.
Proof.
  intros Hc. induction x as [|a x IH].
  - rewrite append_nil. cbn. by rewrite Hc.
  - rewrite append_cons. cbn [rstrip]. rewrite IH.
    destruct x; by rewrite ?append_nil, ?append_cons.
Qed.

Lemma rstrip_dropped f y : Str.forallb f y = true → rstrip f y = EmptyString.
Proof.
  induction y as [|a y IH]; [done|].
  cbn. intros [Ha Hy]%andb_true_iff. by rewrite (IH Hy), Ha.
Qed.

Lemma rstrip_app f x y :
  Str.forallb f y = true → rstrip f (x +:+ y) = rstrip f x.
Proof.
  intros Hy. induction x as [|a x IH].
  - rewrite append_nil. by apply rstrip_dropped.
  - rewrite append_cons. cbn [rstrip]. by rewrite IH.
Qed.

Lemma rstrip_kept f s :
  Str.forallb (λ c, negb (f c)) s = true → rstrip f s = s.
Proof.
  induction s as [|a s IH]; [done|].
  cbn. intros [Ha Hs]%andb_true_iff. rewrite (IH Hs).
  destruct s; [|done]. by destruct (f a).
Qed.

Lemma prefix_mem c p s :
  String.prefix p s = true → Str.mem_char c p = true → Str.mem_char c s = true.
Proof.
  revert p. induction s as [|x s IH]; intros p Hp Hc.
  - by apply prefix_of_nil in Hp as ->.
  - destruct p as [|y p]; [done|].
    rewrite prefix_cons in Hp. apply andb_true_iff in Hp as [Hxy Hp].
    apply Ascii.eqb_eq in Hxy as ->. cbn [Str.mem_char] in *.
    apply orb_true_iff in Hc as [->|Hc]; [done|].
    by rewrite (IH p Hp Hc), orb_true_r.
Qed.

Lemma contains_needs_char c p s :
  Str.mem_char c p = true → Str.mem_char c s = false → Str.contains p s = false.
Proof.
  intros Hp Hs. destruct (Str.contains p s) eqn:E; [|done].
  assert (∀ s, Str.contains p s = true → Str.mem_char c s = true) as H.
  { clear s Hs E. induction s as [|x s IH].
    - rewrite contains_nil. intros H. by apply (prefix_mem c p).
    - rewrite contains_cons. intros [H|H]%orb_true_iff.
      + by apply (prefix_mem c p).
      + cbn [Str.mem_char]. by rewrite (IH H), orb_true_r. }
  by rewrite (H s E) in Hs.
Qed.

Lemma nonempty_eqb s : s ≠ EmptyString → String.eqb s EmptyString = false.
Proof. by destruct s. Qed.

Lemma plain_kept chars s :
  (∀ c, Str.mem_char c chars = true → Str.mem_char c quote_semicolon = true) →
  plain s → Str.forallb (λ c, negb (Str.mem_char c chars)) s = true.
Proof.
  intros Hsub. apply forallb_impl. intros c [_ Hc]%andb_true_iff.
  destruct (Str.mem_char c chars) eqn:E; [|done].
  by rewrite (Hsub c E) in Hc.
Qed.

Lemma semicolon_sub c :
  Str.mem_char c ";" = true → Str.mem_char c quote_semicolon = true.
Proof.
  cbn [Str.mem_char quote_semicolon]. rewrite !orb_false_r.
  intros ->. by rewrite orb_true_r.
Qed.

Lemma scan_hardware_line state mac :
  plain mac →
  scan_line state ("  hardware ethernet " +:+ mac +:+ ";") = (Some mac, state.2).
Proof.
  intros Hmac. unfold scan_line.
  assert (strip ("  hardware ethernet " +:+ mac +:+ ";")
          = "hardware ethernet " +:+ mac +:+ ";") as ->.
  { unfold strip.
    change (lstrip isspace ("  hardware ethernet " +:+ mac +:+ ";"))
      with (("hardware ethernet " +:+ mac) +:+ ";").
    by apply rstrip_last. }
  change (Str.contains "hardware ethernet" ("hardware ethernet " +:+ mac +:+ ";"))
    with true. cbn match.
  change ("hardware ethernet " +:+ mac +:+ ";")
    with ("hardware" +:+ String " " ("ethernet" +:+ String " " (mac +:+ ";"))).
  rewrite !split_on_line by done.
  rewrite split_on_last.
  2:{ rewrite mem_char_append, (token_no_space _ (plain_token _ Hmac)). done. }
  unfold last_piece, rstrip_chars. cbn [List.last].
  rewrite rstrip_app by done.
  by rewrite (rstrip_kept _ _ (plain_kept _ _ semicolon_sub Hmac)).
Qed.

Lemma scan_hostname_line state hostname :
  plain hostname → hostname ≠ EmptyString →
  scan_line state
    ("  client-hostname " +:+ String quote (hostname +:+ String quote ";"))
  = (state.1, Some hostname).
Proof.
  intros Hh Hne. unfold scan_line.
  pose proof (token_no_space _ (plain_token _ Hh)) as Hspace.
  assert (strip ("  client-hostname " +:+ String quote (hostname +:+ String quote ";"))
          = "client-hostname " +:+ String quote (hostname +:+ String quote ";")) as ->.
  { unfold strip.
    change (lstrip isspace
              ("  client-hostname " +:+ String quote (hostname +:+ String quote ";")))
      with ("client-hostname " +:+ String quote (hostname +:+ String quote ";")).
    replace ("client-hostname " +:+ String quote (hostname +:+ String quote ";"))
      with (("client-hostname " +:+ String quote (hostname +:+ String quote EmptyString))
              +:+ ";").
    - by apply rstrip_last.
    - rewrite append_assoc. f_equal. rewrite append_cons. f_equal.
      by rewrite append_assoc. }
  change (Str.contains "hardware ethernet"
            ("client-hostname " +:+ String quote (hostname +:+ String quote ";")))
    with (Str.contains "hardware ethernet" (hostname +:+ String quote ";")).
  rewrite (contains_needs_char " ").
  2: done.
  2:{ by rewrite mem_char_append, Hspace. }
  change (Str.contains "client-hostname"
            ("client-hostname " +:+ String quote (hostname +:+ String quote ";")))
    with true. cbn match.
  change ("client-hostname " +:+ String quote (hostname +:+ String quote ";"))
    with ("client-hostname" +:+
          String " " (String quote (hostname +:+ String quote ";"))).
  rewrite split_on_line by done.
  rewrite split_on_last.
  2:{ cbn [Str.mem_char]. by rewrite mem_char_append, Hspace. }
  unfold last_piece, strip_chars. cbn [List.last].
  destruct hostname as [|c hostname']; [done|].
  assert (Str.mem_char c quote_semicolon = false) as Hc.
  { unfold plain in Hh. cbn [Str.forallb] in Hh.
    apply andb_true_iff in Hh as [[_ Hc]%andb_true_iff _].
    by apply negb_true_iff in Hc. }
  rewrite append_cons.
  change (lstrip (λ c0, Str.mem_char c0 quote_semicolon)
            (String quote (String c (hostname' +:+ String quote ";"))))
    with (lstrip (λ c0, Str.mem_char c0 quote_semicolon)
            (String c (hostname' +:+ String quote ";"))).
  cbn [lstrip]. rewrite Hc, <- append_cons.
  rewrite rstrip_app by done.
  by rewrite (rstrip_kept _ _ (plain_kept _ _ (λ _ H, H) Hh)).
Qed.

Lemma address_token s : address_like s → token s.
Proof.
  apply forallb_impl. intros c Hc.
  destruct (isspace c) eqn:E; [|done].
  unfold isspace, Str.isdigit, Str.in_range in *.
  destruct (Ascii.eqb_spec c ".") as [Hdot|_].
  { subst c. by vm_compute in E. }
  rewrite orb_false_r in Hc.
  apply andb_true_iff in Hc as [H1%Nat.leb_le H2%Nat.leb_le].
  apply orb_true_iff in E as [E|E];
    apply andb_true_iff in E as [H3%Nat.leb_le H4%Nat.leb_le]; lia.
Qed.

Lemma address_without c s :
  address_like s → Str.isdigit c || Ascii.eqb c "." = false →
  Str.mem_char c s = false.
Proof. intros H Hc. by apply (forallb_mem _ _ _ H). Qed.

Lemma lstrip_first f c s : f c = false → lstrip f (String c s) = String c s.
Proof. intros H. cbn. by rewrite H. Qed.

Lemma scan_address_line state ip :
  address_like ip → ip ≠ EmptyString → scan_line state (ip +:+ " {") = state.
Proof.
  intros Hip Hne. unfold scan_line.
  assert (strip (ip +:+ " {") = ip +:+ " {") as ->.
  { unfold strip. destruct ip as [|c ip']; [done|].
    pose proof (address_token _ Hip) as Ht. unfold token in Ht.
    cbn [Str.forallb] in Ht. apply andb_true_iff in Ht as [Hc%negb_true_iff _].
    rewrite append_cons, (lstrip_first _ _ _ Hc), <- append_cons.
    change (String c ip' +:+ " {") with (String c ip' +:+ " " +:+ "{").
    rewrite <- append_assoc. by apply rstrip_last. }
  rewrite (contains_needs_char "h"), (contains_needs_char "c"); try done.
  - by rewrite mem_char_append, (address_without "c" _ Hip).
  - by rewrite mem_char_append, (address_without "h" _ Hip).
Qed.

Lemma lease_lines_split l :
  well_formed l →
  split_on newline (lease_text l) = lease_lines l ++ [EmptyString].
Proof.
  intros (Hip & _ & Hmac & _ & Hh). apply split_unlines.
  pose proof (token_no_newline _ (address_token _ Hip)) as Hi.
  pose proof (token_no_newline _ (plain_token _ Hmac)) as Hm.
  unfold lease_lines.
  repeat (apply list.Forall_cons_2 || apply Forall_app_2);
    try apply Forall_nil_2.
  - by rewrite mem_char_append, Hi.
  - by rewrite !mem_char_append, Hm.
  - destruct (Discovery.l_hostname l) as [hostname|]; [|done].
    destruct Hh as [Hh _].
    apply list.Forall_cons_2; [|done].
    rewrite mem_char_append. cbn [Str.mem_char].
    by rewrite mem_char_append, (token_no_newline _ (plain_token _ Hh)).
  - done.
Qed.

Lemma first_line_address ip rest :
  address_like ip →
  (if Str.mem_char " " (ip +:+ " {")
   then Some (default EmptyString (head (split_on " " (ip +:+ " {"))))
   else rest) = Some ip.
Proof.
  intros Hip. rewrite mem_char_append, orb_true_r.
  change (ip +:+ " {") with (ip +:+ String " " "{").
  by rewrite (split_on_line _ _ _ (token_no_space _ (address_token _ Hip))).
Qed.

(** What [parse_lease] reads in the text written for a lease. *)
Lemma parse_lease_text l : well_formed l → parse_lease (lease_text l) = Some l.
Proof.
  intros Hl. unfold parse_lease. rewrite (lease_lines_split _ Hl).
  destruct Hl as (Hip & Hip0 & Hmac & Hmac0 & Hh).
  destruct l as [ip mac hostname]. unfold lease_lines.
  cbn [Discovery.l_ip Discovery.l_mac Discovery.l_hostname] in *.
  destruct hostname as [hostname|]; cbn [app foldl].
  - destruct Hh as [Hh Hh0].
    rewrite (scan_address_line _ _ Hip Hip0), (scan_hardware_line _ _ Hmac),
      (scan_hostname_line _ _ Hh Hh0).
    change (scan_line ?st "}") with st.
    change (scan_line ?st EmptyString) with st.
    cbn [fst snd]. rewrite (first_line_address _ _ Hip).
    by rewrite (nonempty_eqb _ Hip0), (nonempty_eqb _ Hmac0), (nonempty_eqb _ Hh0).
  - rewrite (scan_address_line _ _ Hip Hip0), (scan_hardware_line _ _ Hmac).
    change (scan_line ?st "}") with st.
    change (scan_line ?st EmptyString) with st.
    cbn [fst snd]. rewrite (first_line_address _ _ Hip).
    by rewrite (nonempty_eqb _ Hip0), (nonempty_eqb _ Hmac0).
Qed.

Lemma length_append (a b : string) :
  String.length (a +:+ b) = (String.length a + String.length b)%nat.
Proof.
  induction a as [|x a IH]; [done|]. rewrite append_cons. cbn. by rewrite IH.
Qed.

Lemma prefix_app_long p x y :
  (String.length p ≤ String.length x)%nat →
  String.prefix p (x +:+ y) = String.prefix p x.
Proof.
  revert p. induction x as [|a x IH]; intros p Hlen.
  - destruct p; [by rewrite !prefix_nil|cbn in Hlen; lia].
  - destruct p as [|b p]; [done|].
    rewrite append_cons, !prefix_cons. cbn in Hlen. rewrite IH; [done|lia].
Qed.

Lemma prefix_app_l x y : String.prefix x (x +:+ y) = true.
Proof.
  induction x as [|a x IH]; [apply prefix_nil|].
  by rewrite append_cons, prefix_cons, Ascii.eqb_refl.
Qed.

Lemma contains_app_l p x y :
  Str.contains p (x +:+ y) = false → Str.contains p x = false.
Proof.
  intros H. destruct (Str.contains p x) eqn:E; [|done].
  by rewrite (contains_of_prefix p x _ (prefix_app_l x y) E) in H.
Qed.

(** A run [t] without the last character of [q], followed by a
    character that [q] does not hold, is no start of [q]. *)
Lemma prefix_blocked q0 z t c rest :
  Str.mem_char z t = false →
  Str.mem_char c (q0 +:+ String z EmptyString) = false →
  String.prefix (q0 +:+ String z EmptyString) (t +:+ String c rest) = false.
Proof.
  revert t. induction q0 as [|y q0 IH]; intros t Ht Hc.
  - rewrite append_nil in *. cbn [Str.mem_char] in Hc.
    rewrite orb_false_r in Hc.
    destruct t as [|x t].
    + rewrite append_nil, prefix_cons, Ascii.eqb_sym, Hc. done.
    + cbn [Str.mem_char] in Ht. apply orb_false_iff in Ht as [Hx _].
      by rewrite append_cons, prefix_cons, Hx.
  - rewrite append_cons in *. cbn [Str.mem_char] in Hc.
    apply orb_false_iff in Hc as [Hy Hc].
    destruct t as [|x t].
    + rewrite append_nil, prefix_cons, Ascii.eqb_sym, Hy. done.
    + cbn [Str.mem_char] in Ht. apply orb_false_iff in Ht as [_ Ht].
      rewrite append_cons, prefix_cons, (IH t Ht Hc). apply andb_false_r.
Qed.

Lemma contains_skip p q0 z t c rest :
  String.prefix (q0 +:+ String z EmptyString) p = true →
  Str.mem_char z t = false →
  Str.mem_char c (q0 +:+ String z EmptyString) = false →
  Str.contains p (t +:+ String c rest) = Str.contains p (String c rest).
Proof.
  intros Hq Ht Hc. induction t as [|x t IH]; [done|].
  assert (String.prefix p (String x t +:+ String c rest) = false) as Hp.
  { destruct (String.prefix p _) eqn:E; [|done].
    by rewrite <- (prefix_blocked q0 z (String x t) c rest Ht Hc),
      (prefix_trans _ _ _ Hq E). }
  rewrite append_cons in *. rewrite contains_cons, Hp.
  cbn [Str.mem_char] in Ht. apply orb_false_iff in Ht as [_ Ht].
  by rewrite (IH Ht).
Qed.

Lemma contains_cons_miss p c s :
  String.prefix p (String c s) = false →
  Str.contains p (String c s) = Str.contains p s.
Proof. intros H. by rewrite contains_cons, H. Qed.

Ltac flatten_text :=
  repeat (rewrite append_assoc || rewrite append_cons || rewrite append_nil).

(** The text of a lease holds no marker, and forms none with the
    marker that follows it. *)
Lemma lease_text_marker_free l :
  well_formed l → Str.contains "lease " (lease_text l +:+ "lease") = false.
Proof.
  intros (Hip & _ & Hmac & _ & Hh).
  destruct l as [ip mac hostname]. unfold lease_text, lease_lines.
  cbn [Discovery.l_ip Discovery.l_mac Discovery.l_hostname] in *.
  pose proof (address_without "e" _ Hip eq_refl) as Hi.
  pose proof (token_no_space _ (plain_token _ Hmac)) as Hm.
  destruct hostname as [hostname|]; cbn [app unlines foldr]; flatten_text.
  - destruct Hh as [Hh _].
    pose proof (token_no_space _ (plain_token _ Hh)) as Hn.
    rewrite (contains_skip "lease " "leas" "e" ip " " _ eq_refl Hi eq_refl).
    rewrite !contains_cons_miss by reflexivity.
    rewrite (contains_skip "lease " "lease" " " mac ";" _ eq_refl Hm eq_refl).
    rewrite !contains_cons_miss by reflexivity.
    rewrite (contains_skip "lease " "lease" " " hostname quote _ eq_refl Hn eq_refl).
    by rewrite !contains_cons_miss by reflexivity.
  - rewrite (contains_skip "lease " "leas" "e" ip " " _ eq_refl Hi eq_refl).
    rewrite !contains_cons_miss by reflexivity.
    rewrite (contains_skip "lease " "lease" " " mac ";" _ eq_refl Hm eq_refl).
    by rewrite !contains_cons_miss by reflexivity.
Qed.

Lemma split_marker rest :
  split_str "lease " ("lease " +:+ rest) = EmptyString :: split_str "lease " rest.
Proof.
  unfold split_str.
  change (split_go "lease " 0 ("lease " +:+ rest))
    with (if String.prefix "lease " ("lease " +:+ rest)
          then EmptyString :: split_go "lease " 0 rest
          else cons_head "l" (split_go "lease " 0 ("ease " +:+ rest))).
  by rewrite prefix_app_l.
Qed.

(** A block that forms no marker of its own ends at the next marker. *)
Lemma split_block b rest :
  Str.contains "lease " (b +:+ "lease") = false →
  split_str "lease " (b +:+ "lease " +:+ rest) = b :: split_str "lease " rest.
Proof.
  induction b as [|x b IH]; intros H; [apply split_marker|].
  unfold split_str in *.
  rewrite append_cons in H. rewrite contains_cons in H.
  apply orb_false_iff in H as [Hp Hc].
  rewrite append_cons. cbn [split_go].
  assert (String.prefix "lease " (String x (b +:+ "lease " +:+ rest)) = false)
    as ->.
  { change (b +:+ "lease " +:+ rest) with (b +:+ "lease" +:+ " " +:+ rest).
    rewrite <- append_assoc, <- append_cons, prefix_app_long; [done|].
    cbn [String.length]. rewrite length_append. cbn. lia. }
  by rewrite (IH Hc).
Qed.

Lemma split_lease_texts l leases :
  Forall well_formed (l :: leases) →
  split_str "lease "
    (lease_text l +:+
     foldr (λ l rest, "lease " +:+ lease_text l +:+ rest) EmptyString leases)
  = lease_text <$> (l :: leases).
Proof.
  revert l. induction leases as [|l' leases IH]; intros l Hall;
    apply list.Forall_cons in Hall as [Hl Hall]; cbn [foldr].
  - rewrite append_empty, split_no_marker; [done|].
    exact (contains_app_l _ _ _ (lease_text_marker_free _ Hl)).
  - rewrite split_block by exact (lease_text_marker_free _ Hl).
    by rewrite (IH l' Hall).
Qed.

Lemma parse_lease_texts leases :
  Forall well_formed leases → omap parse_lease (lease_text <$> leases) = leases.
Proof.
  induction 1 as [|l leases Hl _ IH]; [done|].
  cbn [fmap list_fmap omap list_omap].
  rewrite (parse_lease_text _ Hl). by f_equal.
Qed.

(** X27: a lease file in the layout the server writes is read back as
    the leases it was written from, in order.  The file is a header that
    forms no marker, then for each lease the word [lease], the dotted
    address, an opening brace, the hardware line, the host-name line if
    the lease has a name, and the closing brace; addresses are digits
    and dots, hardware addresses and host names hold no blank, double
    quote or semicolon, and none of them is empty. *)
Theorem lease_file_is_read_back header leases :
  Str.contains "lease " (header +:+ "lease") = false →
  Forall well_formed leases →
  parse_leases (lease_file header leases) = leases.
Proof.
  intros Hheader Hall. unfold parse_leases, lease_file.
  destruct leases as [|l leases]; cbn [foldr].
  - rewrite split_no_marker; [done|].
    rewrite append_empty. exact (contains_app_l _ _ _ Hheader).
  - rewrite (split_block _ _ Hheader). cbn [tail].
    rewrite (split_lease_texts _ _ Hall). by apply parse_lease_texts.
Qed.

Lemma lease_file_is_read_back_witness :
  parse_leases
    (lease_file Cases.lease_header [Cases.lease_alpha; Cases.lease_nameless])
  = [Cases.lease_alpha; Cases.lease_nameless].
Proof.
  apply lease_file_is_read_back.
  - vm_compute. reflexivity.
  - repeat apply list.Forall_cons_2; try apply Forall_nil_2;
      vm_compute; repeat split; discriminate.
Defined.

End LeaseTable.

(** ** The exit status of the assessment *)

Module Idle.
Import Assessment.




(** *** Agreement with the run on arrays of objects *)

Lemma find_of_typed fs inventory_file :
  Assessor._find_inventory_file (Assessor.of_typed fs) inventory_file =
    let '(found, log) := _find_inventory_file fs inventory_file in
    (Assessor.as_document <$> found, log).
Proof.
  unfold Assessor._find_inventory_file, _find_inventory_file.
  cbn [Assessor.of_typed Assessor.listing Assessor.lookup].
  rewrite Loading.glob_of_files.
  destruct (Files.glob "network_discovery_" ".json" _) as [|f others];
    cbn [fmap list_fmap].
  - by destruct inventory_file as [path|]; [destruct (negb (path =? "")%string)|].
  - change (list_fmap _ _ Loaded.of_file others) with (Loaded.of_file <$> others).
    rewrite Loading.latest_of_files.
    by destruct inventory_file as [path|]; [destruct (negb (path =? "")%string)|].
Qed.

(** On a directory whose files hold arrays of objects the assessment
    ends as [Assessment.main] says. *)
Lemma assessor_main_of_typed w fs inventory_file :
  let run := Assessor.main w (Assessor.of_typed fs) inventory_file in
  let typed := main w fs inventory_file in
  Loaded.status run.1.1 = typed.1.1 ∧ run.1.2 = typed.1.2 ∧ run.2 = typed.2.
Proof.
  cbv zeta. unfold Assessor.main, main. rewrite find_of_typed.
  destruct (_find_inventory_file fs inventory_file) as [found log1].
  assert (∃ devices log2,
            _load_inventory found = (devices, log2) ∧
            Assessor._load_inventory (Assessor.as_document <$> found)
            = (JArr (JObj <$> devices), log2)) as (devices & log2 & -> & ->).
  { destruct found as [[path [f|]]|]; cbn; [|by eauto..].
    destruct (Files.content f) as [devices|]; cbn; [|by eauto].
    rewrite length_fmap. by eauto. }
  cbn [Loaded.elements]. rewrite Chain.batch_of_objects.
  destruct (assess_all_devices w devices) as [assessed log3].
  destruct assessed as [|r assessed]; [done|].
  cbn [Assessor.of_typed Assessor.write_ok].
  by destruct (write_ok fs).
Qed.
End Idle.
